(** * McBopomofoWeb: the key handler and the web language model

    A shallow embedding of [KeyHandler.ts], [WebLanguageModel.ts],
    [InputState.ts] and [KeyValuePair.ts], of the parts of
    [InputController.ts] that enter states and keep settings, and of what
    the Chrome OS extension asks its host to show, with the properties of
    the composition engine that are stated over them.

    Conventions.
    - A JavaScript string is its sequence of UTF-16 code units, so that
      [length] is the [.length] of the source.
    - Array indices, cursors and spanning lengths are natural numbers; the
      composing buffer size, which a host may set to any integer, is in [Z].
    - Scores are binary64 numbers ([float]).
    - A method of the language model that can throw has a [Completion] as
      its result.  The key handler catches nothing, so a lookup that throws
      ends the call of the handler: the methods of the handler are those of
      the calls whose lookups return.
    - Collaborators whose code is not part of the files above (the reading
      buffer, the grid with its walker, the user override model, the
      localized strings, lodash, [parseFloat]) are interfaces (type
      classes); the handler is written against them as the source calls
      them. *)

From Stdlib Require Import ZArith NArith Lia Ascii String Floats Sorted.
From stdpp Require Import base option list gmap strings.

Set Default Proof Using "Type".

(* ===================================================================== *)
(** ** JavaScript strings and arrays *)
(* ===================================================================== *)

Abbreviation JSString := (list N).

Module JS.

(** An ASCII literal as a JavaScript string. *)
Definition js (s : string) : JSString :=
  N_of_ascii <$> list_ascii_of_string s.

(** [s.startsWith(p)] *)
Fixpoint startsWith (s p : JSString) {struct p} : bool :=
  match p, s with
  | [], _ => true
  | _ :: _, [] => false
  | a :: p', b :: s' => N.eqb a b && startsWith s' p'
  end.

(** [a.includes(x)] on an array of strings *)
Definition includes (a : list JSString) (x : JSString) : bool :=
  bool_decide (x ∈ a).

(** [s.split(sep)] for a one-character separator: never empty, the empty
    string splits into one empty segment. *)
Fixpoint split (sep : N) (s : JSString) : list JSString :=
  match s with
  | [] => [[]]
  | c :: r =>
      if N.eqb c sep then [] :: split sep r
      else match split sep r with
           | seg :: segs => (c :: seg) :: segs
           | [] => [[c]]
           end
  end.

(** [_.join(a, sep)] and [a.join(sep)] *)
Fixpoint join (a : list JSString) (sep : JSString) : JSString :=
  match a with
  | [] => []
  | x :: r =>
      match r with
      | [] => x
      | _ :: _ => x ++ sep ++ join r sep
      end
  end.

(** [s.replace(/pat/g, rep)] for a literal, non-empty pattern: matches are
    found left to right and do not overlap.  [skip] counts the code units
    of the current match that are still to be consumed. *)
Fixpoint replaceAll_from (pat rep : JSString) (skip : nat) (s : JSString)
  : JSString :=
  match s with
  | [] => []
  | c :: r =>
      match skip with
      | S k => replaceAll_from pat rep k r
      | O =>
          if startsWith s pat
          then rep ++ replaceAll_from pat rep (length pat - 1) r
          else c :: replaceAll_from pat rep 0 r
      end
  end.

Definition replaceAll (pat rep s : JSString) : JSString :=
  replaceAll_from pat rep 0 s.

(** [s.substring(a, b)]: the arguments are swapped when [a > b] and
    clamped to the length. *)
Definition substring (s : JSString) (a b : nat) : JSString :=
  take (Nat.max a b - Nat.min a b) (drop (Nat.min a b) s).

(** [s.substring(a)] *)
Definition substring_from (s : JSString) (a : nat) : JSString := drop a s.

(** [a.slice(from, to)] for non-negative indices *)
Definition slice {A} (a : list A) (from to : nat) : list A :=
  take (to - from) (drop from a).

(** A code unit is a high (lead) or a low (trail) surrogate. *)
Definition isHighSurrogate (c : N) : bool :=
  (N.leb 55296 c && N.leb c 56319)%N.

Definition isLowSurrogate (c : N) : bool :=
  (N.leb 56320 c && N.leb c 57343)%N.

(** The code points of a string: a high surrogate followed by a low one
    is one code point of two code units, every other unit stands alone.
    [pending] is true when the previous unit was a high surrogate that is
    still waiting for its low half. *)
Fixpoint countCodePoints (pending : bool) (s : JSString) : nat :=
  match s with
  | [] => 0
  | c :: r =>
      if pending && isLowSurrogate c then countCodePoints false r
      else S (countCodePoints (isHighSurrogate c) r)
  end.

Definition codePointLength (s : JSString) : nat := countCodePoints false s.

(** [a < b] on strings: the first code unit that differs decides, and a
    proper prefix is less than the string.  [a > b] is [lessThan b a]. *)
Fixpoint lessThan (a b : JSString) : bool :=
  match a, b with
  | _, [] => false
  | [], _ :: _ => true
  | x :: a', y :: b' => N.ltb x y || (N.eqb x y && lessThan a' b')
  end.

End JS.
Export JS.

Definition hyphen : N := 45%N.
Definition blank : N := 32%N.

(** How a call ends: it returns a value, or it throws.  The only exception
    that the code below can raise is a [TypeError]. *)
Inductive Completion (A : Type) :=
| Returned (a : A)
| TypeError.

Arguments Returned {A} a.
Arguments TypeError {A}.

(** A JavaScript object has, besides its own properties, the ones it
    inherits from its prototype, and [name in object] is true of both
    kinds.  For the object that holds the dictionary the own properties are
    the entries, which are strings; the inherited ones are those of
    [Object.prototype] ([constructor], [toString], [__proto__], ...), which
    are functions or objects and have no [split]. *)
Class ObjectPrototype := {
  inheritedProperty : JSString → bool;
}.

(** [name in object] *)
Definition hasProperty `{ObjectPrototype} {A} (name : JSString)
    (object : gmap JSString A) : bool :=
  bool_decide (is_Some (object !! name)) || inheritedProperty name.

(** An optional function applied with a fallback: [f != null] guards the
    call, and [f(x) ?? x] keeps [x] when the call returns [undefined]. *)
Definition convertWith (f : option (JSString → option JSString))
    (x : JSString) : JSString :=
  match f with
  | Some conv => default x (conv x)
  | None => x
  end.

(* ===================================================================== *)
(** ** Gramambular: key-value pairs and unigrams *)
(* ===================================================================== *)

(** [KeyValuePair.ts] *)
Record KeyValuePair := mkKeyValuePair { key : JSString; value : JSString }.

Definition KeyValuePair_equals (a b : KeyValuePair) : bool :=
  bool_decide (key a = key b) && bool_decide (value a = value b).

Definition KeyValuePair_toString (this : KeyValuePair) : JSString :=
  js "(" ++ key this ++ js "," ++ value this ++ js ")".

Definition KeyValuePair_isGreaterThan (this another : KeyValuePair) : bool :=
  if lessThan (key another) (key this) then true
  else if bool_decide (key this = key another) then
    lessThan (value another) (value this)
  else false.

Definition KeyValuePair_isLessThan (this another : KeyValuePair) : bool :=
  if lessThan (key this) (key another) then true
  else if bool_decide (key this = key another) then
    lessThan (value this) (value another)
  else false.

(** A unigram: a key-value pair and its score. *)
Record Unigram := mkUnigram { keyValue : KeyValuePair; score : float }.

(** Parts of Gramambular and of the JavaScript runtime that the language
    model relies on: the score a [Unigram] gets when none is passed to its
    constructor, and [parseFloat], whose argument [values[i + 1]] is
    [undefined] past the end of the array. *)
Class Numbers := {
  unigramDefaultScore : float;
  parseFloat : option JSString → float;
}.

(** [BopomofoSyllable.FromComposedString(s).absoluteOrderString] *)
Class Mandarin := {
  absoluteOrderString : JSString → JSString;
}.

(* ===================================================================== *)
(** ** WebLanguageModel.ts *)
(* ===================================================================== *)

(** A [Map<string, string[]>].  An array is an object: it has an identity,
    a number here, and [push] changes it in place, under every key that
    holds it.  [arrayAt] is the array that the map holds for a key and
    [elements] is what each array holds; an array that [elements] does not
    list is empty. *)
Record PhraseMap := mkPhraseMap {
  arrayAt : gmap JSString nat;
  elements : gmap nat (list JSString);
}.

Module PhraseMapImpl.

(** The elements of an array. *)
Definition elementsOf (m : PhraseMap) (array : nat) : list JSString :=
  default [] (elements m !! array).

(** [map.get(key)], with what the array holds *)
Definition get (k : JSString) (m : PhraseMap) : option (list JSString) :=
  elementsOf m <$> arrayAt m !! k.

(** [map.set(key, array)] *)
Definition set (k : JSString) (array : nat) (m : PhraseMap) : PhraseMap :=
  {| arrayAt := <[k := array]> (arrayAt m); elements := elements m |}.

(** [array.push(x)] *)
Definition push (array : nat) (x : JSString) (m : PhraseMap) : PhraseMap :=
  {| arrayAt := arrayAt m;
     elements := <[array := elementsOf m array ++ [x]]> (elements m) |}.

(** [[]]: a new array, which no key holds yet. *)
Definition newArray (m : PhraseMap) : nat :=
  fresh (dom (elements m) ∪ (map_img (arrayAt m) : gset nat)).

End PhraseMapImpl.

(** The model for user phrases.  The [Map] is one shared object, updated in
    place; [phraseChanges] records the argument of every call of the
    [onPhraseChange] callback, oldest first, as it is at the time of the
    call. *)
Record UserPhrases := mkUserPhrases {
  up_map : PhraseMap;
  phraseChanges : list PhraseMap;
}.

Module UserPhrasesImpl.

Definition setUserPhrases (m : PhraseMap) (up : UserPhrases) : UserPhrases :=
  {| up_map := m; phraseChanges := phraseChanges up |}.

Definition addUserPhrase (k phrase : JSString) (up : UserPhrases)
  : UserPhrases :=
  match arrayAt (up_map up) !! k with
  | Some list =>
      if includes (PhraseMapImpl.elementsOf (up_map up) list) phrase then up
      else
        let m := PhraseMapImpl.set k list
                   (PhraseMapImpl.push list phrase (up_map up)) in
        {| up_map := m; phraseChanges := phraseChanges up ++ [m] |}
  | None =>
      let list := PhraseMapImpl.newArray (up_map up) in
      let m := PhraseMapImpl.set k list
                 (PhraseMapImpl.push list phrase (up_map up)) in
      {| up_map := m; phraseChanges := phraseChanges up ++ [m] |}
  end.

Definition unigramsForKey (k : JSString) (up : UserPhrases) : list Unigram :=
  match PhraseMapImpl.get k (up_map up) with
  | Some list => (λ item, mkUnigram (mkKeyValuePair k item) 0%float) <$> list
  | None => []
  end.

Definition hasUnigramsForKey (k : JSString) (up : UserPhrases) : bool :=
  match PhraseMapImpl.get k (up_map up) with
  | None => false
  | Some list => bool_decide (0 < length list)
  end.

End UserPhrasesImpl.

(** The main language model: the static dictionary (the own properties of
    a JavaScript object, from absolute-order keys to "value score value
    score ..." strings), the user phrases and the two optional
    converters. *)
Record WebLanguageModel := mkWebLanguageModel {
  map_ : gmap JSString JSString;
  userPhrases_ : UserPhrases;
  converter_ : option (JSString → option JSString);
  addUserPhraseConverter : option (JSString → option JSString);
}.

Module WebLanguageModelImpl.

Definition setConverter (c : option (JSString → option JSString))
    (lm : WebLanguageModel) : WebLanguageModel :=
  {| map_ := map_ lm; userPhrases_ := userPhrases_ lm;
     converter_ := c; addUserPhraseConverter := addUserPhraseConverter lm |}.

Definition setAddUserPhraseConverter
    (c : option (JSString → option JSString))
    (lm : WebLanguageModel) : WebLanguageModel :=
  {| map_ := map_ lm; userPhrases_ := userPhrases_ lm;
     converter_ := converter_ lm; addUserPhraseConverter := c |}.

Definition withUserPhrases (up : UserPhrases) (lm : WebLanguageModel)
  : WebLanguageModel :=
  {| map_ := map_ lm; userPhrases_ := up;
     converter_ := converter_ lm;
     addUserPhraseConverter := addUserPhraseConverter lm |}.

Definition setUserPhrases (m : PhraseMap) (lm : WebLanguageModel)
  : WebLanguageModel :=
  withUserPhrases (UserPhrasesImpl.setUserPhrases m (userPhrases_ lm)) lm.

Definition addUserPhrase (k phrase : JSString) (lm : WebLanguageModel)
  : WebLanguageModel :=
  let phrase := convertWith (addUserPhraseConverter lm) phrase in
  withUserPhrases (UserPhrasesImpl.addUserPhrase k phrase (userPhrases_ lm))
                  lm.

Section Keys.
Context `{ObjectPrototype} `{Mandarin}.

Definition maybeAbsoluteOrderKey (k : JSString) : JSString :=
  let r := replaceAll (js "_-") (js "_______") k in
  let elements :=
    (λ s, if startsWith s (js "_") then s else absoluteOrderString s)
      <$> split hyphen r in
  replaceAll (js "_______") (js "_-") (join elements []).

Definition hasUnigramsForKey (k : JSString) (lm : WebLanguageModel) : bool :=
  if bool_decide (k = js " ") then true
  else if UserPhrasesImpl.hasUnigramsForKey k (userPhrases_ lm) then true
  else hasProperty (maybeAbsoluteOrderKey k) (map_ lm).

Context `{Numbers}.

(** One round of either loop of [unigramsForKey]: push the unigram unless
    its value was used, then record the value as used. *)
Definition pushUnlessUsed (acc : list Unigram * list JSString) (g : Unigram)
  : list Unigram * list JSString :=
  (if includes acc.2 (value (keyValue g)) then acc.1 else acc.1 ++ [g],
   acc.2 ++ [value (keyValue g)]).

(** [for (let phrase of userPhrases) ...] *)
Definition userLoop (lm : WebLanguageModel) (k : JSString)
    (userPhrases : list Unigram) (acc : list Unigram * list JSString)
  : list Unigram * list JSString :=
  foldl (λ acc phrase,
           let phrase :=
             match converter_ lm with
             | Some conv =>
                 mkUnigram
                   (mkKeyValuePair k
                      (default (value (keyValue phrase))
                               (conv (value (keyValue phrase)))))
                   (score phrase)
             | None => phrase
             end in
           pushUnlessUsed acc phrase)
        acc userPhrases.

(** [for (let i = 0; i < values.length; i += 2) ...] *)
Fixpoint dictLoop (lm : WebLanguageModel) (k : JSString)
    (values : list JSString) (acc : list Unigram * list JSString)
  : list Unigram * list JSString :=
  match values with
  | [] => acc
  | v :: rest =>
      let sc := parseFloat (head rest) in
      let v := convertWith (converter_ lm) v in
      let acc := pushUnlessUsed acc (mkUnigram (mkKeyValuePair k v) sc) in
      match rest with
      | [] => acc
      | _ :: rest' => dictLoop lm k rest' acc
      end
  end.

(** [unigramsForKey].  When [actualKey in this.map_] holds of an inherited
    property only, [this.map_[actualKey]] is no string and the call of its
    [split] throws. *)
Definition unigramsForKey (k : JSString) (lm : WebLanguageModel)
  : Completion (list Unigram) :=
  if bool_decide (k = js " ") then
    Returned [mkUnigram (mkKeyValuePair (js " ") (js " ")) unigramDefaultScore]
  else
    let userPhrases := UserPhrasesImpl.unigramsForKey k (userPhrases_ lm) in
    let acc := userLoop lm k userPhrases ([], []) in
    let actualKey := maybeAbsoluteOrderKey k in
    if hasProperty actualKey (map_ lm) then
      match map_ lm !! actualKey with
      | Some entry => Returned (dictLoop lm k (split blank entry) acc).1
      | None => TypeError
      end
    else Returned acc.1.

End Keys.

End WebLanguageModelImpl.

(* ===================================================================== *)
(** ** InputState.ts *)
(* ===================================================================== *)

(** The fields shared by every state with a composing buffer. *)
Module NotEmpty.
Record t := mk {
  composingBuffer : JSString;
  cursorIndex : nat;
  tooltip : JSString;
}.
End NotEmpty.

Module Inputting.
Record t := mk {
  base : NotEmpty.t;
  evictedText : JSString;
}.
(** [new Inputting(buf, index, tooltipText)]: [evictedText] starts empty. *)
Definition new (buf : JSString) (index : nat) (tooltipText : JSString) : t :=
  mk (NotEmpty.mk buf index tooltipText) [].
(** [state.evictedText = text] *)
Definition setEvictedText (text : JSString) (s : t) : t := mk (base s) text.
End Inputting.

Module ChoosingCandidate.
Record t := mk {
  base : NotEmpty.t;
  candidates : list JSString;
}.
(** [new ChoosingCandidate(buf, index, cs)]: the tooltip is the default. *)
Definition new (buf : JSString) (index : nat) (cs : list JSString) : t :=
  mk (NotEmpty.mk buf index []) cs.
End ChoosingCandidate.

Module Marking.
Record t := mk {
  base : NotEmpty.t;
  markStartGridCursorIndex : nat;
  head : JSString;
  markedText : JSString;
  tail : JSString;
  reading : JSString;
  acceptable : bool;
}.
Definition new (buf : JSString) (index : nat) (tooltipText : JSString)
    (startCursorIndexInGrid : nat) (headText markedText tailText
    readingText : JSString) (canAccept : bool) : t :=
  mk (NotEmpty.mk buf index tooltipText) startCursorIndexInGrid headText
     markedText tailText readingText canAccept.
End Marking.

(** The classes that implement [InputState].  [NotEmpty] is a class of its
    own and the superclass of the last three. *)
Inductive InputState :=
| Empty
| EmptyIgnoringPrevious
| Committing (text : JSString)
| NotEmptyState (s : NotEmpty.t)
| InputtingState (s : Inputting.t)
| ChoosingCandidateState (s : ChoosingCandidate.t)
| MarkingState (s : Marking.t).

(** [state instanceof NotEmpty], with the cast when it holds. *)
Definition asNotEmpty (state : InputState) : option NotEmpty.t :=
  match state with
  | NotEmptyState s => Some s
  | InputtingState s => Some (Inputting.base s)
  | ChoosingCandidateState s => Some (ChoosingCandidate.base s)
  | MarkingState s => Some (Marking.base s)
  | _ => None
  end.

Definition instanceofNotEmpty (state : InputState) : bool :=
  match asNotEmpty state with Some _ => true | None => false end.

Definition instanceofInputting (state : InputState) : bool :=
  match state with InputtingState _ => true | _ => false end.

Definition instanceofMarking (state : InputState) : bool :=
  match state with MarkingState _ => true | _ => false end.

(* ===================================================================== *)
(** ** Key.ts *)
(* ===================================================================== *)

Inductive KeyName :=
| ASCII | LEFT | RIGHT | UP | DOWN | HOME | END | UNKNOWN
| BACKSPACE | DELETE | RETURN | ESC | SPACE | TAB | PAGE_UP | PAGE_DOWN.

Global Instance KeyName_eq_dec : EqDecision KeyName.
Proof. solve_decision. Defined.

Module Key.
Record t := mk {
  ascii : JSString;
  name : KeyName;
  shiftPressed : bool;
  ctrlPressed : bool;
}.

(** Modelled from the spec: the getter [isCursorKeys] of [Key], whose file
    is not among the sources.  Transition rule 6 names the keys that move
    the grid cursor; they are the four cases of the switch in
    [handleCursorKeys]. *)
Definition isCursorKeys (k : t) : bool :=
  match name k with
  | LEFT | RIGHT | HOME | END => true
  | _ => false
  end.

(** Modelled from the spec: the getter [isDeleteKeys] of [Key], whose file
    is not among the sources (transition rule 7: Backspace / Delete). *)
Definition isDeleteKeys (k : t) : bool :=
  match name k with
  | BACKSPACE | DELETE => true
  | _ => false
  end.
End Key.

(* ===================================================================== *)
(** ** Collaborators of the key handler *)
(* ===================================================================== *)

Inductive BopomofoKeyboardLayout :=
| StandardLayout | ETenLayout | HsuLayout | ETen26Layout
| HanyuPinyinLayout | IBMLayout.

(** The syllable assembler, [BopomofoReadingBuffer]. *)
Class BopomofoReadingBuffer (R : Type) := {
  keyboardLayout : R → BopomofoKeyboardLayout;
  setKeyboardLayout : BopomofoKeyboardLayout → R → R;
  isValidKey : R → JSString → bool;
  combineKey : JSString → R → R;
  hasToneMarker : R → bool;
  hasToneMarkerOnly : R → bool;
  readingIsEmpty : R → bool;
  (** [reading.syllable.composedString] *)
  syllableComposedString : R → JSString;
  (** [reading.composedString] *)
  readingComposedString : R → JSString;
  readingClear : R → R;
  readingBackspace : R → R;
}.

(** A node of the grid, as far as the key handler reads it. *)
Record Node := mkNode {
  nodeKey : JSString;
  currentKeyValue : KeyValuePair;
  nodeScore : float;
  nodeCandidates : list KeyValuePair;
  highestUnigramScore : float;
  scoreForCandidate : JSString → option float;
}.

(** [NodeAnchor]: the node may be [undefined]. *)
Record NodeAnchor := mkNodeAnchor {
  node : option Node;
  spanningLength : nat;
}.

(** [new NodeAnchor()] *)
Definition emptyNodeAnchor : NodeAnchor := mkNodeAnchor None 0.

(** The grid of a [BlockReadingBuilder] and the [Walker] over it.  The grid
    is rebuilt from the language model and the readings whenever a reading
    is inserted or removed at a position. *)
Class Gramambular (G : Type) := {
  kSelectedCandidateScore : float;
  gridClear : G;
  gridInsert : WebLanguageModel → list JSString → nat → G → G;
  gridRemove : WebLanguageModel → list JSString → nat → G → G;
  nodesCrossingOrEndingAt : G → nat → list NodeAnchor;
  fixNodeSelectedCandidate : nat → JSString → G → NodeAnchor * G;
  overrideNodeScoreForSelectedCandidate :
    nat → JSString → float → G → G;
  (** [new Walker(grid).walk(0)] *)
  walkGrid : G → list NodeAnchor;
}.

(** [UserOverrideModel]; times are milliseconds, [suggest] may return
    [null]. *)
Class UserOverrideModel (U : Type) := {
  newUserOverrideModel : nat → float → U;
  suggest : U → list NodeAnchor → nat → Z → option JSString;
  observe : list NodeAnchor → nat → JSString → Z → U → U;
}.

(** [LocalizedStrings]; the first argument is the language code. *)
Class LocalizedStrings := {
  cursorIsBetweenSyllables :
    JSString → option JSString → option JSString → JSString;
  syllablesRequired : JSString → nat → JSString;
  syllableMaximum : JSString → nat → JSString;
  phraseAlreadyExists : JSString → JSString;
  pressEnterToAddThePhrase : JSString → JSString;
  markedWithSyllablesAndStatus :
    JSString → JSString → JSString → JSString → JSString;
}.

(** lodash's [_.toArray] on a string: its symbols, in order. *)
Class Lodash := {
  toArray : JSString → list JSString;
}.

(** Modelled from the spec: [BlockReadingBuilder], whose file is not among
    the sources.  The builder holds an ordered sequence of readings and a
    cursor in [0, W]; the grid width W is the number of readings.
    [insert_reading_at_cursor] inserts at the cursor and advances it,
    [delete_reading_before_cursor] and [delete_reading_after_cursor] remove
    the reading on either side of it, [remove_head_readings(n)] evicts [n]
    readings from the head, and the cursor setter clamps to [0, W]. *)
Module BlockReadingBuilder.
Section Builder.
Context {G : Type} `{Gramambular G}.

Record t := mk {
  readings : list JSString;
  cursorIndex : nat;
  grid : G;
}.

Definition new : t := mk [] 0 gridClear.

Definition clear (b : t) : t := new.

Definition length (b : t) : nat := List.length (readings b).

(** [builder.grid.width] *)
Definition width (b : t) : nat := List.length (readings b).

Definition setCursorIndex (v : nat) (b : t) : t :=
  mk (readings b) (Nat.min v (length b)) (grid b).

Definition insertReadingAtCursor (lm : WebLanguageModel) (r : JSString)
    (b : t) : t :=
  let rs := take (cursorIndex b) (readings b) ++ r
            :: drop (cursorIndex b) (readings b) in
  mk rs (cursorIndex b + 1) (gridInsert lm rs (cursorIndex b) (grid b)).

Definition deleteReadingBeforeCursor (lm : WebLanguageModel) (b : t) : t :=
  if bool_decide (cursorIndex b = 0) then b
  else
    let rs := take (cursorIndex b - 1) (readings b)
              ++ drop (cursorIndex b) (readings b) in
    mk rs (cursorIndex b - 1) (gridRemove lm rs (cursorIndex b - 1) (grid b)).

Definition deleteReadingAfterCursor (lm : WebLanguageModel) (b : t) : t :=
  if bool_decide (cursorIndex b = length b) then b
  else
    let rs := take (cursorIndex b) (readings b)
              ++ drop (cursorIndex b + 1) (readings b) in
    mk rs (cursorIndex b) (gridRemove lm rs (cursorIndex b) (grid b)).

(** One reading leaves the head; the cursor follows it down to 0. *)
Definition removeHeadReading (lm : WebLanguageModel) (b : t) : t :=
  let rs := drop 1 (readings b) in
  mk rs (cursorIndex b - 1) (gridRemove lm rs 0 (grid b)).

Definition removeHeadReadings (lm : WebLanguageModel) (count : nat) (b : t)
  : t :=
  if bool_decide (length b < count) then b
  else Nat.iter count (removeHeadReading lm) b.

End Builder.
Arguments t G : clear implicits.
End BlockReadingBuilder.

(* ===================================================================== *)
(** ** KeyHandler.ts *)
(* ===================================================================== *)

Record ComposedString := mkComposedString {
  cs_head : JSString;
  cs_tail : JSString;
  cs_tooltip : JSString;
}.

Definition kPunctuationListKey : JSString := js "`".
Definition kPunctuationListUnigramKey : JSString := js "_punctuation_list".
Definition kPunctuationKeyPrefix : JSString := js "_punctuation_".
Definition kCtrlPunctuationKeyPrefix : JSString := js "_ctrl_punctuation_".
Definition kLetterPrefix : JSString := js "_letter_".

Definition kMinValidMarkingReadingCount : nat := 2.
Definition kMaxValidMarkingReadingCount : nat := 6.
Definition kUserOverrideModelCapacity : nat := 500.
Definition kObservedOverrideHalfLife : float := 5400%float.

Definition kComposingBufferSize : Z := 20.
Definition kMaxComposingBufferSize : Z := 100.
Definition kMinComposingBufferSize : Z := 4.
Definition kMaxComposingBufferNeedsToWalkSize : nat := 10.
Definition kNoOverrideThreshold : float := (-8)%float.
Definition kEpsilon : float := 0x1.0c6f7a0b5ed8dp-20%float.
Definition kJoinSeparator : JSString := js "-".

Definition GetKeyboardLayoutName (layout : BopomofoKeyboardLayout)
  : JSString :=
  match layout with
  | ETenLayout => js "ETen"
  | HsuLayout => js "Hsu"
  | ETen26Layout => js "ETen26"
  | HanyuPinyinLayout => js "HanyuPinyin"
  | IBMLayout => js "IBM"
  | StandardLayout => js "Standard"
  end.

Definition FindHighestScore (nodeAnchors : list NodeAnchor) (epsilon : float)
  : float :=
  (foldl (λ highestScore anchor,
            match node anchor with
            | None => highestScore
            | Some nd =>
                let score := highestUnigramScore nd in
                if (highestScore <? score)%float then score
                else highestScore
            end)
         0%float nodeAnchors + epsilon)%float.

(** [MarkedPhraseExists].  A lookup that throws is caught nowhere in the
    handler: the exception leaves [buildMarkingState], and [handle] with
    it, before any state is built or passed to a callback.  The methods
    below are those of the calls whose lookups return; where the lookup
    throws, the value [false] stands for no value of the code. *)
Definition MarkedPhraseExists `{ObjectPrototype} `{Mandarin} `{Numbers}
    (languageModel_ : WebLanguageModel) (readingValue marked : JSString)
  : bool :=
  match WebLanguageModelImpl.unigramsForKey readingValue languageModel_ with
  | Returned phrases =>
      existsb (λ unigram, bool_decide (value (keyValue unigram) = marked))
              phrases
  | TypeError => false
  end.

Section KeyHandler.
Context {R G U : Type}.
Context `{ObjectPrototype} `{Mandarin} `{Numbers} `{Lodash} `{LocalizedStrings}.
Context `{BopomofoReadingBuffer R} `{Gramambular G} `{UserOverrideModel U}.

(** The fields of a [KeyHandler].  The language model is the
    [WebLanguageModel] that [InputController] constructs the handler with;
    the builder refers to the same object. *)
Record KeyHandler := mkKeyHandler {
  languageCode : JSString;
  selectPhraseAfterCursorAsCandidate_ : bool;
  moveCursorAfterSelection_ : bool;
  putLowercaseLettersToComposingBuffer_ : bool;
  escKeyClearsEntireComposingBuffer_ : bool;
  composingBufferSize_ : Z;
  traditionalMode_ : bool;
  languageModel_ : WebLanguageModel;
  reading_ : R;
  builder_ : BlockReadingBuilder.t G;
  walkedNodes_ : list NodeAnchor;
  userOverrideModel_ : U;
}.

Definition newKeyHandler (languageModel : WebLanguageModel) (reading : R)
  : KeyHandler :=
  {| languageCode := [];
     selectPhraseAfterCursorAsCandidate_ := false;
     moveCursorAfterSelection_ := false;
     putLowercaseLettersToComposingBuffer_ := false;
     escKeyClearsEntireComposingBuffer_ := false;
     composingBufferSize_ := kComposingBufferSize;
     traditionalMode_ := false;
     languageModel_ := languageModel;
     reading_ := reading;
     builder_ := BlockReadingBuilder.new;
     walkedNodes_ := [];
     userOverrideModel_ :=
       newUserOverrideModel kUserOverrideModelCapacity
                            kObservedOverrideHalfLife |}.

Definition withReading (f : R → R) (kh : KeyHandler) : KeyHandler :=
  mkKeyHandler (languageCode kh) (selectPhraseAfterCursorAsCandidate_ kh)
    (moveCursorAfterSelection_ kh) (putLowercaseLettersToComposingBuffer_ kh)
    (escKeyClearsEntireComposingBuffer_ kh) (composingBufferSize_ kh)
    (traditionalMode_ kh) (languageModel_ kh) (f (reading_ kh)) (builder_ kh)
    (walkedNodes_ kh) (userOverrideModel_ kh).

Definition withBuilder
    (f : BlockReadingBuilder.t G → BlockReadingBuilder.t G)
    (kh : KeyHandler) : KeyHandler :=
  mkKeyHandler (languageCode kh) (selectPhraseAfterCursorAsCandidate_ kh)
    (moveCursorAfterSelection_ kh) (putLowercaseLettersToComposingBuffer_ kh)
    (escKeyClearsEntireComposingBuffer_ kh) (composingBufferSize_ kh)
    (traditionalMode_ kh) (languageModel_ kh) (reading_ kh) (f (builder_ kh))
    (walkedNodes_ kh) (userOverrideModel_ kh).

Definition withGrid (f : G → G) (kh : KeyHandler) : KeyHandler :=
  withBuilder (λ b, BlockReadingBuilder.mk (BlockReadingBuilder.readings b)
                      (BlockReadingBuilder.cursorIndex b)
                      (f (BlockReadingBuilder.grid b))) kh.

Definition withWalkedNodes (nodes : list NodeAnchor) (kh : KeyHandler)
  : KeyHandler :=
  mkKeyHandler (languageCode kh) (selectPhraseAfterCursorAsCandidate_ kh)
    (moveCursorAfterSelection_ kh) (putLowercaseLettersToComposingBuffer_ kh)
    (escKeyClearsEntireComposingBuffer_ kh) (composingBufferSize_ kh)
    (traditionalMode_ kh) (languageModel_ kh) (reading_ kh) (builder_ kh)
    nodes (userOverrideModel_ kh).

Definition withLanguageModel (f : WebLanguageModel → WebLanguageModel)
    (kh : KeyHandler) : KeyHandler :=
  mkKeyHandler (languageCode kh) (selectPhraseAfterCursorAsCandidate_ kh)
    (moveCursorAfterSelection_ kh) (putLowercaseLettersToComposingBuffer_ kh)
    (escKeyClearsEntireComposingBuffer_ kh) (composingBufferSize_ kh)
    (traditionalMode_ kh) (f (languageModel_ kh)) (reading_ kh) (builder_ kh)
    (walkedNodes_ kh) (userOverrideModel_ kh).

Definition withUserOverrideModel (f : U → U) (kh : KeyHandler) : KeyHandler :=
  mkKeyHandler (languageCode kh) (selectPhraseAfterCursorAsCandidate_ kh)
    (moveCursorAfterSelection_ kh) (putLowercaseLettersToComposingBuffer_ kh)
    (escKeyClearsEntireComposingBuffer_ kh) (composingBufferSize_ kh)
    (traditionalMode_ kh) (languageModel_ kh) (reading_ kh) (builder_ kh)
    (walkedNodes_ kh) (f (userOverrideModel_ kh)).

(** *** The setters of the per-instance configuration *)

Definition setLanguageCode (v : JSString) (kh : KeyHandler) : KeyHandler :=
  mkKeyHandler v (selectPhraseAfterCursorAsCandidate_ kh)
    (moveCursorAfterSelection_ kh) (putLowercaseLettersToComposingBuffer_ kh)
    (escKeyClearsEntireComposingBuffer_ kh) (composingBufferSize_ kh)
    (traditionalMode_ kh) (languageModel_ kh) (reading_ kh) (builder_ kh)
    (walkedNodes_ kh) (userOverrideModel_ kh).

Definition setSelectPhraseAfterCursorAsCandidate (v : bool) (kh : KeyHandler)
  : KeyHandler :=
  mkKeyHandler (languageCode kh) v
    (moveCursorAfterSelection_ kh) (putLowercaseLettersToComposingBuffer_ kh)
    (escKeyClearsEntireComposingBuffer_ kh) (composingBufferSize_ kh)
    (traditionalMode_ kh) (languageModel_ kh) (reading_ kh) (builder_ kh)
    (walkedNodes_ kh) (userOverrideModel_ kh).

Definition setMoveCursorAfterSelection (v : bool) (kh : KeyHandler)
  : KeyHandler :=
  mkKeyHandler (languageCode kh) (selectPhraseAfterCursorAsCandidate_ kh)
    v (putLowercaseLettersToComposingBuffer_ kh)
    (escKeyClearsEntireComposingBuffer_ kh) (composingBufferSize_ kh)
    (traditionalMode_ kh) (languageModel_ kh) (reading_ kh) (builder_ kh)
    (walkedNodes_ kh) (userOverrideModel_ kh).

Definition setPutLowercaseLettersToComposingBuffer (v : bool)
    (kh : KeyHandler) : KeyHandler :=
  mkKeyHandler (languageCode kh) (selectPhraseAfterCursorAsCandidate_ kh)
    (moveCursorAfterSelection_ kh) v
    (escKeyClearsEntireComposingBuffer_ kh) (composingBufferSize_ kh)
    (traditionalMode_ kh) (languageModel_ kh) (reading_ kh) (builder_ kh)
    (walkedNodes_ kh) (userOverrideModel_ kh).

Definition setEscKeyClearsEntireComposingBuffer (v : bool) (kh : KeyHandler)
  : KeyHandler :=
  mkKeyHandler (languageCode kh) (selectPhraseAfterCursorAsCandidate_ kh)
    (moveCursorAfterSelection_ kh) (putLowercaseLettersToComposingBuffer_ kh)
    v (composingBufferSize_ kh)
    (traditionalMode_ kh) (languageModel_ kh) (reading_ kh) (builder_ kh)
    (walkedNodes_ kh) (userOverrideModel_ kh).

(** [set composingBufferSize(value)] *)
Definition setComposingBufferSize (v : Z) (kh : KeyHandler) : KeyHandler :=
  let v := if (kMaxComposingBufferSize <? v)%Z
           then kMaxComposingBufferSize else v in
  let v := if (v <? kMinComposingBufferSize)%Z
           then kMinComposingBufferSize else v in
  mkKeyHandler (languageCode kh) (selectPhraseAfterCursorAsCandidate_ kh)
    (moveCursorAfterSelection_ kh) (putLowercaseLettersToComposingBuffer_ kh)
    (escKeyClearsEntireComposingBuffer_ kh) v
    (traditionalMode_ kh) (languageModel_ kh) (reading_ kh) (builder_ kh)
    (walkedNodes_ kh) (userOverrideModel_ kh).

Definition composingBufferSize (kh : KeyHandler) : Z :=
  composingBufferSize_ kh.

Definition setTraditionalMode (flag : bool) (kh : KeyHandler) : KeyHandler :=
  mkKeyHandler (languageCode kh) (selectPhraseAfterCursorAsCandidate_ kh)
    (moveCursorAfterSelection_ kh) (putLowercaseLettersToComposingBuffer_ kh)
    (escKeyClearsEntireComposingBuffer_ kh) (composingBufferSize_ kh)
    flag (languageModel_ kh) (reading_ kh) (builder_ kh)
    (walkedNodes_ kh) (userOverrideModel_ kh).

(** *** What a call of the handler does besides returning

    [stateCallback] and [errorCallback] are recorded in the order of the
    calls. *)
Inductive Event :=
| StateEntered (s : InputState)
| ErrorSignalled.

(** A method of the handler: from the fields before the call to the result,
    the fields after it and the callbacks made. *)
Definition M (A : Type) : Type := KeyHandler → A * KeyHandler * list Event.

Definition ret {A} (a : A) : M A := λ kh, (a, kh, []).

Definition bind {A B} (m : M A) (f : A → M B) : M B :=
  λ kh, let r := m kh in
        let r' := f r.1.1 r.1.2 in
        (r'.1.1, r'.1.2, r.2 ++ r'.2).

Definition get : M KeyHandler := λ kh, (kh, kh, []).

Definition modify (f : KeyHandler → KeyHandler) : M unit :=
  λ kh, (tt, f kh, []).

Definition stateCallback (s : InputState) : M unit :=
  λ kh, (tt, kh, [StateEntered s]).

Definition errorCallback : M unit := λ kh, (tt, kh, [ErrorSignalled]).

Definition result {A} (r : A * KeyHandler * list Event) : A := r.1.1.
Definition after {A} (r : A * KeyHandler * list Event) : KeyHandler := r.1.2.
Definition events {A} (r : A * KeyHandler * list Event) : list Event := r.2.

(** The states passed to [stateCallback], in order. *)
Definition statesEntered (evs : list Event) : list InputState :=
  omap (λ e, match e with StateEntered s => Some s | _ => None end) evs.

End KeyHandler.

Arguments KeyHandler R G U : clear implicits.
Arguments M R G U A : clear implicits.

Notation "'let*' x ':=' m 'in' k" := (bind m (λ x, k))
  (at level 10, x name, m at level 100, k at level 200, only parsing).
Notation "m ';;;' k" := (bind m (λ _, k))
  (at level 100, k at level 200, right associativity, only parsing).

Section KeyHandlerMethods.
Context {R G U : Type}.
Context `{ObjectPrototype} `{Mandarin} `{Numbers} `{Lodash} `{LocalizedStrings}.
Context `{BopomofoReadingBuffer R} `{Gramambular G} `{UserOverrideModel U}.

Local Abbreviation KH := (KeyHandler R G U).
Local Abbreviation Method := (M R G U).

Definition gridWidth (kh : KH) : nat := BlockReadingBuilder.width (builder_ kh).
Definition builderLength (kh : KH) : nat :=
  BlockReadingBuilder.length (builder_ kh).
Definition builderCursorIndex (kh : KH) : nat :=
  BlockReadingBuilder.cursorIndex (builder_ kh).
Definition builderReadings (kh : KH) : list JSString :=
  BlockReadingBuilder.readings (builder_ kh).
Definition builderGrid (kh : KH) : G := BlockReadingBuilder.grid (builder_ kh).

(** [this.builder_.insertReadingAtCursor(reading)] *)
Definition insertReadingAtCursor (reading : JSString) (kh : KH) : KH :=
  withBuilder
    (BlockReadingBuilder.insertReadingAtCursor (languageModel_ kh) reading) kh.

Definition reset (kh : KH) : KH :=
  withWalkedNodes []
    (withBuilder BlockReadingBuilder.clear (withReading readingClear kh)).

(** The running state of the loop of [getComposedString]. *)
Record Composing := mkComposing {
  runningCursor : nat;
  composed : JSString;
  composedCursor : nat;
  composingTooltip : JSString;
}.

(** One round of the loop over the walked nodes.  [runningCursor] never
    passes [builderCursor], so [distance] is a difference of naturals. *)
Definition composeAnchor (lang : JSString) (readings : list JSString)
    (builderCursor : nat) (st : Composing) (anchor : NodeAnchor)
  : Composing :=
  match node anchor with
  | None => st
  | Some nd =>
      let value := value (currentKeyValue nd) in
      let composed := composed st ++ value in
      if bool_decide (runningCursor st = builderCursor) then
        mkComposing (runningCursor st) composed (composedCursor st)
                    (composingTooltip st)
      else
        let spanningLength := spanningLength anchor in
        if bool_decide (runningCursor st + spanningLength ≤ builderCursor)
        then
          mkComposing (runningCursor st + spanningLength) composed
                      (composedCursor st + length value)
                      (composingTooltip st)
        else
          let distance := builderCursor - runningCursor st in
          let u32Value := toArray value in
          let cpLen := Nat.min distance (length u32Value) in
          let actualString := join (slice u32Value 0 cpLen) [] in
          mkComposing (runningCursor st + distance) composed
            (composedCursor st + length actualString)
            (if bool_decide (length u32Value < spanningLength) then
               cursorIsBetweenSyllables lang
                 (readings !! (builderCursor - 1))
                 (readings !! builderCursor)
             else composingTooltip st)
  end.

Definition getComposedString (kh : KH) (builderCursor : nat)
  : ComposedString :=
  let st := foldl (composeAnchor (languageCode kh) (builderReadings kh)
                                 builderCursor)
                  (mkComposing 0 [] 0 []) (walkedNodes_ kh) in
  let head := substring (composed st) 0 (composedCursor st) in
  let tail := substring (composed st) (composedCursor st)
                        (length (composed st)) in
  mkComposedString head tail (composingTooltip st).

Definition actualCandidateCursorIndex (kh : KH) : nat :=
  let cursorIndex := builderCursorIndex kh in
  if selectPhraseAfterCursorAsCandidate_ kh then
    if bool_decide (cursorIndex < builderLength kh) then cursorIndex + 1
    else cursorIndex
  else
    if bool_decide (cursorIndex = 0) && bool_decide (0 < builderLength kh)
    then cursorIndex + 1
    else cursorIndex.

(** [node?.key.length ?? 0] *)
Definition anchorKeyLength (a : NodeAnchor) : nat :=
  match node a with
  | Some nd => length (nodeKey nd)
  | None => 0
  end.

(** [anchoredNodes.sort((a, b) => keyLength(b) - keyLength(a))]: the sort of
    an array is stable, longer keys come first. *)
Fixpoint insertByKeyLength (a : NodeAnchor) (l : list NodeAnchor)
  : list NodeAnchor :=
  match l with
  | [] => [a]
  | b :: r =>
      if bool_decide (anchorKeyLength b ≤ anchorKeyLength a) then a :: b :: r
      else b :: insertByKeyLength a r
  end.

Definition sortByKeyLength (l : list NodeAnchor) : list NodeAnchor :=
  foldr insertByKeyLength [] l.

Definition buildChoosingCandidateState (kh : KH) (nonEmptyState : NotEmpty.t)
  : ChoosingCandidate.t :=
  let anchoredNodes :=
    sortByKeyLength
      (nodesCrossingOrEndingAt (builderGrid kh)
                               (actualCandidateCursorIndex kh)) in
  let candidates :=
    anchoredNodes ≫= (λ anchor,
      match node anchor with
      | Some nd => value <$> nodeCandidates nd
      | None => []
      end) in
  ChoosingCandidate.new (NotEmpty.composingBuffer nonEmptyState)
                        (NotEmpty.cursorIndex nonEmptyState) candidates.

Definition buildInputtingState (kh : KH) : Inputting.t :=
  let composedString := getComposedString kh (builderCursorIndex kh) in
  let head := cs_head composedString in
  let reading := readingComposedString (reading_ kh) in
  let tail := cs_tail composedString in
  let composingBuffer := head ++ reading ++ tail in
  let cursorIndex := length head + length reading in
  Inputting.new composingBuffer cursorIndex (cs_tooltip composedString).

Definition buildMarkingState (kh : KH) (beginCursorIndex : nat) : Marking.t :=
  let from := getComposedString kh beginCursorIndex in
  let to := getComposedString kh (builderCursorIndex kh) in
  let composedStringCursorIndex := length (cs_head to) in
  let composed := cs_head to ++ cs_tail to in
  let fromIndex := beginCursorIndex in
  let toIndex := builderCursorIndex kh in
  let swap := bool_decide (builderCursorIndex kh < beginCursorIndex) in
  let ends := if swap then (to, from) else (from, to) in
  let from := ends.1 in
  let to := ends.2 in
  let indices :=
    if swap then (toIndex, fromIndex) else (fromIndex, toIndex) in
  let fromIndex := indices.1 in
  let toIndex := indices.2 in
  let head := cs_head from in
  let marked := substring_from (cs_head to) (length (cs_head from)) in
  let tail := cs_tail to in
  let readings := slice (builderReadings kh) fromIndex toIndex in
  let readingUiText := join readings (js " ") in
  let readingValue := join readings (js "-") in
  let validity :=
    if bool_decide (length readings < kMinValidMarkingReadingCount) then
      (false, syllablesRequired (languageCode kh)
                kMinValidMarkingReadingCount)
    else if bool_decide (kMaxValidMarkingReadingCount < length readings) then
      (false, syllableMaximum (languageCode kh) kMaxValidMarkingReadingCount)
    else if MarkedPhraseExists (languageModel_ kh) readingValue marked then
      (false, phraseAlreadyExists (languageCode kh))
    else (true, pressEnterToAddThePhrase (languageCode kh)) in
  let isValid := validity.1 in
  let status := validity.2 in
  let tooltip :=
    markedWithSyllablesAndStatus (languageCode kh) marked readingUiText
                                 status in
  Marking.new composed composedStringCursorIndex tooltip beginCursorIndex
              head marked tail readingValue isValid.

Definition walk : Method unit :=
  modify (λ kh, withWalkedNodes (walkGrid (builderGrid kh)) kh).

Definition popEvictedTextAndWalk : Method JSString :=
  let* kh := get in
  let* evictedText :=
    (if bool_decide (composingBufferSize kh < Z.of_nat (gridWidth kh))%Z
        && bool_decide (length (walkedNodes_ kh) ≠ 0)
     then
       match walkedNodes_ kh !! 0 with
       | Some anchor =>
           modify (withBuilder
                     (BlockReadingBuilder.removeHeadReadings
                        (languageModel_ kh) (spanningLength anchor)));;;
           ret (match node anchor with
                | Some nd => value (currentKeyValue nd)
                | None => []
                end)
       | None => ret []
       end
     else ret []) in
  walk;;;
  ret evictedText.

(** The body of the loop of [fixNodesIfRequired]; [nodes] is what is left
    of [walkedNodes_]. *)
Fixpoint fixNodesLoop (width index : nat) (nodes : list NodeAnchor) (g : G)
  : G :=
  match nodes with
  | [] => g
  | anchor :: rest =>
      if bool_decide (width - kMaxComposingBufferNeedsToWalkSize ≤ index)
      then g
      else
        match node anchor with
        | None => fixNodesLoop width index rest g
        | Some nd =>
            let g :=
              if (nodeScore nd <? kSelectedCandidateScore)%float then
                (fixNodeSelectedCandidate (index + spanningLength anchor)
                   (value (currentKeyValue nd)) g).2
              else g in
            fixNodesLoop width (index + spanningLength anchor) rest g
        end
  end.

Definition fixNodesIfRequired : Method unit :=
  let* kh := get in
  let width := gridWidth kh in
  if bool_decide (kMaxComposingBufferNeedsToWalkSize < width) then
    modify (withGrid (fixNodesLoop width 0 (walkedNodes_ kh)))
  else ret tt.

(** The loop of [pinNode] that finds the end of the node at the cursor. *)
Fixpoint nextPositionLoop (cursorIndex nextPosition : nat)
    (nodes : list NodeAnchor) : nat :=
  match nodes with
  | [] => nextPosition
  | anchor :: rest =>
      if bool_decide (cursorIndex ≤ nextPosition) then nextPosition
      else nextPositionLoop cursorIndex
             (nextPosition + spanningLength anchor) rest
  end.

Definition pinNode (now : Z) (candidate : JSString)
    (useMoveCursorAfterSelectionSetting : bool) : Method unit :=
  let* kh := get in
  let cursorIndex := actualCandidateCursorIndex kh in
  let fixed := fixNodeSelectedCandidate cursorIndex candidate
                 (builderGrid kh) in
  let selectedNode := fixed.1 in
  modify (withGrid (λ _, fixed.2));;;
  let score := node selectedNode ≫= (λ nd, scoreForCandidate nd candidate) in
  match score with
  | Some score =>
      if (kNoOverrideThreshold <? score)%float then
        modify (withUserOverrideModel
                  (observe (walkedNodes_ kh) cursorIndex candidate now))
      else ret tt
  | None => ret tt
  end;;;
  walk;;;
  let* kh := get in
  if useMoveCursorAfterSelectionSetting && moveCursorAfterSelection_ kh then
    let nextPosition := nextPositionLoop cursorIndex 0 (walkedNodes_ kh) in
    if bool_decide (nextPosition ≤ builderLength kh) then
      modify (withBuilder (BlockReadingBuilder.setCursorIndex nextPosition))
    else ret tt
  else ret tt.

(** [stateCallback(this.buildInputtingState())] *)
Definition emitInputting : Method unit :=
  let* kh := get in
  stateCallback (InputtingState (buildInputtingState kh)).


(** The loop of [handleTabKey] that looks for the current value of the node
    among the candidates. *)
Fixpoint tabLoop (currentValue : option JSString) (shiftPressed : bool)
    (total currentIndex : nat) (candidates : list JSString) : nat :=
  match candidates with
  | [] => currentIndex
  | candidate :: rest =>
      if bool_decide (Some candidate = currentValue) then
        if shiftPressed then
          if bool_decide (currentIndex = 0) then total - 1
          else currentIndex - 1
        else currentIndex + 1
      else tabLoop currentValue shiftPressed total (currentIndex + 1) rest
  end.

(** The loop of [handleTabKey] that finds the walked node at the cursor. *)
Fixpoint currentNodeLoop (cursorIndex length : nat) (nodes : list NodeAnchor)
  : NodeAnchor :=
  match nodes with
  | [] => emptyNodeAnchor
  | anchor :: rest =>
      let length := length + spanningLength anchor in
      if bool_decide (cursorIndex ≤ length) then anchor
      else currentNodeLoop cursorIndex length rest
  end.

Definition handleTabKey (k : Key.t) (state : InputState) (now : Z)
  : Method bool :=
  match state with
  | InputtingState inputting =>
      let* kh := get in
      if negb (readingIsEmpty (reading_ kh)) then
        errorCallback;;; ret true
      else
        let candidates :=
          ChoosingCandidate.candidates
            (buildChoosingCandidateState kh (Inputting.base inputting)) in
        if bool_decide (length candidates = 0) then
          errorCallback;;; ret true
        else
          let cursorIndex := actualCandidateCursorIndex kh in
          let currentNode := currentNodeLoop cursorIndex 0 (walkedNodes_ kh) in
          let currentValue :=
            (λ nd, value (currentKeyValue nd)) <$> node currentNode in
          let score := default 0%float (nodeScore <$> node currentNode) in
          let currentIndex :=
            if (score <? kSelectedCandidateScore)%float then
              if bool_decide (candidates !! 0 = currentValue) then
                if Key.shiftPressed k then length candidates - 1 else 1
              else 0
            else
              tabLoop currentValue (Key.shiftPressed k) (length candidates) 0
                      candidates in
          let currentIndex :=
            if bool_decide (length candidates ≤ currentIndex) then 0
            else currentIndex in
          pinNode now (default [] (candidates !! currentIndex)) false;;;
          emitInputting;;;
          ret true
  | _ => errorCallback;;; ret true
  end.

Definition handleCursorKeys (k : Key.t) (state : InputState) : Method bool :=
  if negb (instanceofInputting state) && negb (instanceofMarking state) then
    ret false
  else
    let* kh := get in
    let markBeginCursorIndex :=
      match state with
      | MarkingState marking => Marking.markStartGridCursorIndex marking
      | _ => builderCursorIndex kh
      end in
    if negb (readingIsEmpty (reading_ kh)) then
      errorCallback;;; emitInputting;;; ret true
    else
      let* isValidMove :=
        match Key.name k with
        | LEFT =>
            if bool_decide (0 < builderCursorIndex kh) then
              modify (withBuilder (BlockReadingBuilder.setCursorIndex
                                     (builderCursorIndex kh - 1)));;;
              ret true
            else ret false
        | RIGHT =>
            if bool_decide (builderCursorIndex kh < builderLength kh) then
              modify (withBuilder (BlockReadingBuilder.setCursorIndex
                                     (builderCursorIndex kh + 1)));;;
              ret true
            else ret false
        | HOME =>
            modify (withBuilder (BlockReadingBuilder.setCursorIndex 0));;;
            ret true
        | END =>
            modify (withBuilder (BlockReadingBuilder.setCursorIndex
                                   (builderLength kh)));;;
            ret true
        | _ => ret false
        end in
      (if negb isValidMove then errorCallback else ret tt);;;
      let* kh := get in
      (if Key.shiftPressed k
          && bool_decide (builderCursorIndex kh ≠ markBeginCursorIndex)
       then stateCallback
              (MarkingState (buildMarkingState kh markBeginCursorIndex))
       else emitInputting);;;
      ret true.

Definition handleDeleteKeys (k : Key.t) (state : InputState) : Method bool :=
  if negb (instanceofNotEmpty state) then ret false
  else
    let finish : Method bool :=
      let* kh := get in
      (if readingIsEmpty (reading_ kh) && bool_decide (builderLength kh = 0)
       then stateCallback EmptyIgnoringPrevious
       else emitInputting);;;
      ret true in
    let* kh := get in
    if hasToneMarkerOnly (reading_ kh) then
      modify (withReading readingClear);;; finish
    else if readingIsEmpty (reading_ kh) then
      if bool_decide (Key.name k = BACKSPACE)
         && bool_decide (0 < builderCursorIndex kh) then
        modify (withBuilder (BlockReadingBuilder.deleteReadingBeforeCursor
                               (languageModel_ kh)));;;
        walk;;; finish
      else if bool_decide (Key.name k = DELETE)
              && bool_decide (builderCursorIndex kh < builderLength kh) then
        modify (withBuilder (BlockReadingBuilder.deleteReadingAfterCursor
                               (languageModel_ kh)));;;
        walk;;; finish
      else
        errorCallback;;; emitInputting;;; ret true
    else
      (if bool_decide (Key.name k = BACKSPACE)
       then modify (withReading readingBackspace)
       else errorCallback);;;
      finish.

Definition handlePunctuation (punctuationUnigramKey : JSString)
  : Method bool :=
  let* kh := get in
  if negb (WebLanguageModelImpl.hasUnigramsForKey punctuationUnigramKey
             (languageModel_ kh)) then ret false
  else if negb (readingIsEmpty (reading_ kh)) then
    errorCallback;;; emitInputting;;; ret true
  else
    modify (insertReadingAtCursor punctuationUnigramKey);;;
    let* evictedText := popEvictedTextAndWalk in
    let* kh := get in
    let inputtingState :=
      Inputting.setEvictedText evictedText (buildInputtingState kh) in
    stateCallback (InputtingState inputtingState);;;
    (if traditionalMode_ kh && readingIsEmpty (reading_ kh) then
       let candidateState :=
         buildChoosingCandidateState kh (Inputting.base inputtingState) in
       modify reset;;;
       match ChoosingCandidate.candidates candidateState with
       | [text] => stateCallback (Committing text)
       | _ => stateCallback (ChoosingCandidateState candidateState)
       end
     else ret tt);;;
    ret true.

(** [handle], after the modifier keys and the reading buffer had their
    turn: every key that is not part of a reading. *)
Definition handleOtherKeys (k : Key.t) (state : InputState) (now : Z)
  : Method bool :=
  let simpleAscii := Key.ascii k in
  let maybeNotEmptyState := asNotEmpty state in
  let* kh := get in
  (* Shift + Space. *)
  if bool_decide (Key.name k = SPACE) && Key.shiftPressed k then
    (if putLowercaseLettersToComposingBuffer_ kh then
       modify (insertReadingAtCursor (js " "));;;
       let* evictedText := popEvictedTextAndWalk in
       let* kh := get in
       stateCallback
         (InputtingState
            (Inputting.setEvictedText evictedText (buildInputtingState kh)))
     else
       (if bool_decide (builderLength kh ≠ 0) then
          stateCallback
            (Committing (NotEmpty.composingBuffer
                           (Inputting.base (buildInputtingState kh))))
        else ret tt);;;
       stateCallback (Committing (js " "));;;
       modify reset);;;
    ret true
  else
  (* Space hit: see if we should enter the candidate choosing state. *)
  match
    (if (bool_decide (Key.name k = SPACE) || bool_decide (Key.name k = DOWN))
        && readingIsEmpty (reading_ kh)
     then maybeNotEmptyState else None)
  with
  | Some notEmpty =>
      stateCallback
        (ChoosingCandidateState (buildChoosingCandidateState kh notEmpty));;;
      ret true
  | None =>
  (* Esc hit. *)
  if bool_decide (Key.name k = ESC) then
    if negb (instanceofNotEmpty state) then ret false
    else if escKeyClearsEntireComposingBuffer_ kh then
      modify reset;;; stateCallback EmptyIgnoringPrevious;;; ret true
    else
      (if negb (readingIsEmpty (reading_ kh)) then
         modify (withReading readingClear);;;
         if bool_decide (builderLength kh = 0)
         then stateCallback EmptyIgnoringPrevious
         else emitInputting
       else emitInputting);;;
      ret true
  (* Tab key. *)
  else if bool_decide (Key.name k = TAB) then handleTabKey k state now
  (* Cursor keys. *)
  else if Key.isCursorKeys k then handleCursorKeys k state
  (* Backspace and Del. *)
  else if Key.isDeleteKeys k then handleDeleteKeys k state
  (* Enter. *)
  else if bool_decide (Key.name k = RETURN) then
    if negb (instanceofNotEmpty state) then ret false
    else if negb (readingIsEmpty (reading_ kh)) then
      errorCallback;;; emitInputting;;; ret true
    else
      match state with
      | MarkingState marking =>
          (if Marking.acceptable marking then
             modify (withLanguageModel
                       (WebLanguageModelImpl.addUserPhrase
                          (Marking.reading marking)
                          (Marking.markedText marking)));;;
             emitInputting
           else
             errorCallback;;;
             stateCallback
               (MarkingState
                  (buildMarkingState kh
                     (Marking.markStartGridCursorIndex marking))));;;
          ret true
      | _ =>
          stateCallback
            (Committing (NotEmpty.composingBuffer
                           (Inputting.base (buildInputtingState kh))));;;
          modify reset;;;
          ret true
      end
  (* Punctuation key: backtick or grave accent. *)
  else if bool_decide (simpleAscii = kPunctuationListKey)
          && WebLanguageModelImpl.hasUnigramsForKey kPunctuationListUnigramKey
               (languageModel_ kh) then
    (if readingIsEmpty (reading_ kh) then
       modify (insertReadingAtCursor kPunctuationListUnigramKey);;;
       let* evictedText := popEvictedTextAndWalk in
       let* kh := get in
       let inputtingState :=
         Inputting.setEvictedText evictedText (buildInputtingState kh) in
       let choosingCandidateState :=
         buildChoosingCandidateState kh (Inputting.base inputtingState) in
       stateCallback (InputtingState inputtingState);;;
       stateCallback (ChoosingCandidateState choosingCandidateState)
     else errorCallback);;;
    ret true
  else
    let unhandled : Method bool :=
      (* No key is handled. Refresh and consume the key. *)
      if instanceofNotEmpty state then
        errorCallback;;; emitInputting;;; ret true
      else ret false in
    if bool_decide (Key.ascii k ≠ []) then
      let chrStr := Key.ascii k in
      (* Bopomofo layout-specific punctuation handling. *)
      let* handled :=
        handlePunctuation
          (kPunctuationKeyPrefix
           ++ GetKeyboardLayoutName (keyboardLayout (reading_ kh))
           ++ js "_" ++ chrStr) in
      if handled then ret true
      else
        (* Not handled, try generic punctuations. *)
        let* handled := handlePunctuation (kPunctuationKeyPrefix ++ chrStr) in
        if handled then ret true
        else
          (* Upper case letters. *)
          match simpleAscii with
          | [c] =>
              if (N.leb 65 c && N.leb c 90)%N then
                if putLowercaseLettersToComposingBuffer_ kh then
                  handlePunctuation (kLetterPrefix ++ chrStr);;;
                  ret true
                else if negb (instanceofNotEmpty state) then ret false
                else
                  let* kh := get in
                  stateCallback
                    (Committing
                       (NotEmpty.composingBuffer
                          (Inputting.base (buildInputtingState kh))));;;
                  stateCallback (Committing chrStr);;;
                  modify reset;;;
                  ret true
              else unhandled
          | _ => unhandled
          end
    else unhandled
  end.

(** [handle], from the composition of a reading on. *)
Definition handleComposition (k : Key.t) (state : InputState) (now : Z)
    (keyConsumedByReading : bool) : Method bool :=
  let* kh := get in
  let shouldComposeReading :=
    (hasToneMarker (reading_ kh) && negb (hasToneMarkerOnly (reading_ kh)))
    || (negb (readingIsEmpty (reading_ kh))
        && bool_decide (Key.name k = SPACE)) in
  if shouldComposeReading then
    let syllable := syllableComposedString (reading_ kh) in
    modify (withReading readingClear);;;
    if negb (WebLanguageModelImpl.hasUnigramsForKey syllable
               (languageModel_ kh)) then
      errorCallback;;;
      (if bool_decide (builderLength kh = 0)
       then stateCallback EmptyIgnoringPrevious
       else emitInputting);;;
      ret true
    else
      modify (insertReadingAtCursor syllable);;;
      let* evictedText := popEvictedTextAndWalk in
      let* kh := get in
      (if negb (traditionalMode_ kh) then
         match suggest (userOverrideModel_ kh) (walkedNodes_ kh)
                       (builderCursorIndex kh) now with
         | Some overrideValue =>
             if bool_decide (length overrideValue ≠ 0) then
               let cursorIndex := actualCandidateCursorIndex kh in
               let nodes :=
                 nodesCrossingOrEndingAt (builderGrid kh) cursorIndex in
               let highestScore := FindHighestScore nodes kEpsilon in
               modify (withGrid (overrideNodeScoreForSelectedCandidate
                                   cursorIndex overrideValue highestScore))
             else ret tt
         | None => ret tt
         end
       else ret tt);;;
      fixNodesIfRequired;;;
      let* kh := get in
      let inputtingState :=
        Inputting.setEvictedText evictedText (buildInputtingState kh) in
      stateCallback (InputtingState inputtingState);;;
      (if traditionalMode_ kh then
         let choosingCandidates :=
           buildChoosingCandidateState kh (Inputting.base inputtingState) in
         modify reset;;;
         match ChoosingCandidate.candidates choosingCandidates with
         | [text] =>
             stateCallback (Committing text);;; stateCallback Empty
         | _ => stateCallback (ChoosingCandidateState choosingCandidates)
         end
       else ret tt);;;
      ret true
  else if keyConsumedByReading then
    emitInputting;;; ret true
  else handleOtherKeys k state now.

(** [handle(key, state, stateCallback, errorCallback)]; [now] is what
    [new Date().getTime()] returns during the call. *)
Definition handle (k : Key.t) (state : InputState) (now : Z) : Method bool :=
  let simpleAscii := Key.ascii k in
  if bool_decide (simpleAscii = js "Shift")
     || bool_decide (simpleAscii = js "Meta")
     || bool_decide (simpleAscii = js "Alt") then ret false
  else
    let* kh := get in
    (* See if it's valid BPMF reading. *)
    if isValidKey (reading_ kh) simpleAscii then
      modify (withReading (combineKey simpleAscii));;;
      let* kh := get in
      if negb (hasToneMarker (reading_ kh)) then
        emitInputting;;; ret true
      else handleComposition k state now true
    else handleComposition k state now false.

Definition candidateSelected (now : Z) (candidate : JSString) : Method unit :=
  let* kh := get in
  if traditionalMode_ kh then
    modify reset;;; stateCallback (Committing candidate)
  else
    pinNode now candidate true;;; emitInputting.

Definition candidatePanelCancelled : Method unit :=
  let* kh := get in
  if traditionalMode_ kh then
    modify reset;;; stateCallback EmptyIgnoringPrevious
  else emitInputting.

Definition handlePunctuationKeyInCandidatePanelForTraditionalMode
    (k : Key.t) (defaultCandidate : JSString) (now : Z) : Method bool :=
  let* kh := get in
  let chrStr := Key.ascii k in
  let customPunctuation :=
    kPunctuationKeyPrefix
    ++ GetKeyboardLayoutName (keyboardLayout (reading_ kh))
    ++ js "_" ++ chrStr in
  let punctuation := kPunctuationKeyPrefix ++ chrStr in
  let shouldAutoSelectCandidate :=
    isValidKey (reading_ kh) chrStr
    || WebLanguageModelImpl.hasUnigramsForKey customPunctuation
         (languageModel_ kh)
    || WebLanguageModelImpl.hasUnigramsForKey punctuation
         (languageModel_ kh) in
  let shouldAutoSelectCandidate :=
    if negb shouldAutoSelectCandidate then
      match chrStr with
      | [c] =>
          (N.leb 65 c && N.leb c 90)%N
          && WebLanguageModelImpl.hasUnigramsForKey (kLetterPrefix ++ chrStr)
               (languageModel_ kh)
      | _ => false
      end
    else true in
  if shouldAutoSelectCandidate then
    stateCallback (Committing defaultCandidate);;;
    modify reset;;;
    handle k Empty now;;;
    ret true
  else
    errorCallback;;; ret false.

(** A sequence of calls of [handle], each with its key, the state the
    caller passes and the time of the call; the results are those of the
    calls in order. *)
Fixpoint handleAll (calls : list (Key.t * InputState * Z)) (kh : KH)
  : list (bool * list Event) * KH :=
  match calls with
  | [] => ([], kh)
  | (k, state, now) :: rest =>
      let r := handle k state now kh in
      let rs := handleAll rest (after r) in
      ((result r, events r) :: rs.1, rs.2)
  end.

End KeyHandlerMethods.

(* ===================================================================== *)
(** ** InputController.ts: feeding keys to the handler *)
(* ===================================================================== *)

Section InputController.
Context {R G U : Type}.
Context `{ObjectPrototype} `{Mandarin} `{Numbers} `{Lodash} `{LocalizedStrings}.
Context `{BopomofoReadingBuffer R} `{Gramambular G} `{UserOverrideModel U}.

(** [enterNewState] is the state callback: the controller's state is the
    last state entered. *)
Definition enterNewStates (state : InputState) (evs : list Event)
  : InputState :=
  foldl (λ st e, match e with StateEntered s => s | ErrorSignalled => st end)
        state evs.

(** [mcbopomofoKeyEvent] for a run of keys, as long as the controller's
    state is not [ChoosingCandidate] (those keys go to the candidate
    controller instead): every key is handled with the controller's
    current state.  The result is the handler and the controller's state
    after the last key, with everything the calls returned. *)
Fixpoint mcbopomofoKeyEvents (keys : list (Key.t * Z)) (state : InputState)
    (kh : KeyHandler R G U)
  : list (bool * list Event) * InputState * KeyHandler R G U :=
  match keys with
  | [] => ([], state, kh)
  | (k, now) :: rest =>
      let r := handle k state now kh in
      let rs := mcbopomofoKeyEvents rest (enterNewStates state (events r))
                                    (after r) in
      ((result r, events r) :: rs.1.1, rs.1.2, rs.2)
  end.

End InputController.

(** *** The settings, the candidate keys and the host's user interface *)

(** [String.prototype.toLowerCase] *)
Class StringCase := {
  toLowerCase : JSString → JSString;
}.

(** [CandidateController], as far as [enterNewState] calls it: [update]
    with the candidates and the key caps, and [getCurrentPage]. *)
Class CandidateController (C Cand : Type) := {
  candidatesUpdate : list JSString → list JSString → C → C;
  getCurrentPage : C → list Cand;
}.

(** Modelled from the spec: the classes of [InputUI.ts], whose file is not
    among the sources.  The host's [update(state)] carries the composing
    buffer segments (plain or highlighted), the cursor, the candidate page
    entries and the tooltip.  A [ComposingBufferText] is plain unless the
    style [Highlighted] is passed to its constructor, and [Highlighted] is
    the style that the host reads as ["highlighted"]. *)
Inductive ComposingBufferTextStyle := Normal | Highlighted.

Record ComposingBufferText := mkComposingBufferText {
  cbt_text : JSString;
  cbt_style : ComposingBufferTextStyle;
}.

Record InputUIState (Cand : Type) := mkInputUIState {
  uis_composingBuffer : list ComposingBufferText;
  uis_cursorIndex : nat;
  uis_candidates : list Cand;
  uis_tooltip : JSString;
}.
Arguments mkInputUIState {Cand}.
Arguments uis_composingBuffer {Cand}.
Arguments uis_cursorIndex {Cand}.
Arguments uis_candidates {Cand}.
Arguments uis_tooltip {Cand}.

(** A call of a method of the host's [InputUI].  [update] receives the
    state as JSON; the call is recorded with the state itself. *)
Inductive UICall (Cand : Type) :=
| UIReset
| UICommitString (text : JSString)
| UIUpdate (state : InputUIState Cand).
Arguments UIReset {Cand}.
Arguments UICommitString {Cand}.
Arguments UIUpdate {Cand}.

Module InputUIController.
Section UI.
Context {Cand : Type}.

(** The fields of the controller of the user interface, and the calls it
    made on the host's [InputUI], oldest first. *)
Record t := mk {
  cursorIndex : nat;
  tooltip : JSString;
  candidates : list Cand;
  composingBuffer : list ComposingBufferText;
  calls : list (UICall Cand);
}.

Definition new : t := mk 0 [] [] [] [].

Definition reset (ui : t) : t := mk 0 [] [] [] (calls ui ++ [UIReset]).

Definition resetComposingBuffer (ui : t) : t :=
  mk (cursorIndex ui) (tooltip ui) (candidates ui) [] (calls ui).

Definition commitString (text : JSString) (ui : t) : t :=
  mk (cursorIndex ui) (tooltip ui) (candidates ui) (composingBuffer ui)
     (calls ui ++ [UICommitString text]).

Definition append (text : ComposingBufferText) (ui : t) : t :=
  mk (cursorIndex ui) (tooltip ui) (candidates ui)
     (composingBuffer ui ++ [text]) (calls ui).

Definition setCursorIndex (index : nat) (ui : t) : t :=
  mk index (tooltip ui) (candidates ui) (composingBuffer ui) (calls ui).

Definition setCandidates (cs : list Cand) (ui : t) : t :=
  mk (cursorIndex ui) (tooltip ui) cs (composingBuffer ui) (calls ui).

Definition setTooltip (text : JSString) (ui : t) : t :=
  mk (cursorIndex ui) text (candidates ui) (composingBuffer ui) (calls ui).

Definition update (ui : t) : t :=
  mk (cursorIndex ui) (tooltip ui) (candidates ui) (composingBuffer ui)
     (calls ui
      ++ [UIUpdate (mkInputUIState (composingBuffer ui) (cursorIndex ui)
                                   (candidates ui) (tooltip ui))]).

End UI.
Arguments t Cand : clear implicits.
End InputUIController.

Module InputControllerImpl.

(** The [switch] of [setKeyboardLayout]. *)
Definition keyboardLayoutNamed (layout : JSString) : BopomofoKeyboardLayout :=
  if bool_decide (layout = js "ETen") then ETenLayout
  else if bool_decide (layout = js "Hsu") then HsuLayout
  else if bool_decide (layout = js "ETen26") then ETen26Layout
  else if bool_decide (layout = js "HanyuPinyin") then HanyuPinyinLayout
  else if bool_decide (layout = js "IBM") then IBMLayout
  else StandardLayout.

Section Settings.
Context {R G U : Type}.
Context `{BopomofoReadingBuffer R}.

Definition setKeyboardLayout (layout : JSString) (kh : KeyHandler R G U)
  : KeyHandler R G U :=
  withReading (setKeyboardLayout (keyboardLayoutNamed layout)) kh.

Definition setSelectPhrase (option : JSString) (kh : KeyHandler R G U)
  : KeyHandler R G U :=
  setSelectPhraseAfterCursorAsCandidate
    (bool_decide (option = js "after_cursor")) kh.

Definition setLetterMode (letterCase : JSString) (kh : KeyHandler R G U)
  : KeyHandler R G U :=
  setPutLowercaseLettersToComposingBuffer
    (bool_decide (letterCase = js "lower")) kh.

End Settings.

Section Controller.
Context {C Cand : Type}.
Context `{StringCase} `{CandidateController C Cand}.

(** The fields of the controller that entering a state reads or writes.
    The handler and the language model are passed on their own. *)
Record InputController := mkInputController {
  state_ : InputState;
  candidateController_ : C;
  ui_ : InputUIController.t Cand;
  candidateKeys_ : list JSString;
}.

Definition newInputController (candidateController : C) : InputController :=
  {| state_ := Empty;
     candidateController_ := candidateController;
     ui_ := InputUIController.new;
     candidateKeys_ := (λ c, [c]) <$> js "123456789" |}.

Definition withUI (f : InputUIController.t Cand → InputUIController.t Cand)
    (ic : InputController) : InputController :=
  mkInputController (state_ ic) (candidateController_ ic) (f (ui_ ic))
                    (candidateKeys_ ic).

(** [setCandidateKeys(keys)]; [keys] may be [undefined]. *)
Definition setCandidateKeys (keys : option JSString) (ic : InputController)
  : InputController :=
  let keys := default (js "123456789") keys in
  let list :=
    foldl (λ list ch,
             let c := toLowerCase [ch] in
             if includes list c then list else list ++ [c])
          [] keys in
  if bool_decide (length list < 4) then ic
  else if bool_decide (15 < length list) then ic
  else mkInputController (state_ ic) (candidateController_ ic) (ui_ ic) list.

Definition handleEmpty (prev : InputState) (ic : InputController)
  : InputController :=
  withUI (λ ui,
            let ui := InputUIController.reset ui in
            match asNotEmpty prev with
            | Some s =>
                InputUIController.commitString (NotEmpty.composingBuffer s) ui
            | None => ui
            end) ic.

Definition handleEmptyIgnoringPrevious (prev : InputState)
    (ic : InputController) : InputController :=
  withUI InputUIController.reset ic.

Definition handleCommitting (prev : InputState) (text : JSString)
    (ic : InputController) : InputController :=
  withUI (λ ui,
            let ui := InputUIController.reset ui in
            if bool_decide (0 < length text)
            then InputUIController.commitString text ui
            else ui) ic.

(** [updatePreedit(state)]; the callers pass an [Inputting], a
    [ChoosingCandidate] or a [Marking] state. *)
Definition updatePreedit (state : InputState) (ic : InputController)
  : InputController :=
  match asNotEmpty state with
  | None => ic
  | Some notEmpty =>
      withUI (λ ui,
        let ui := InputUIController.resetComposingBuffer ui in
        let ui :=
          match state with
          | MarkingState marking =>
              let ui :=
                InputUIController.append
                  (mkComposingBufferText (Marking.head marking) Normal) ui in
              let ui :=
                InputUIController.append
                  (mkComposingBufferText (Marking.markedText marking)
                                         Highlighted) ui in
              InputUIController.append
                (mkComposingBufferText (Marking.tail marking) Normal) ui
          | _ =>
              InputUIController.append
                (mkComposingBufferText (NotEmpty.composingBuffer notEmpty)
                                       Normal) ui
          end in
        let ui :=
          InputUIController.setCursorIndex (NotEmpty.cursorIndex notEmpty)
                                           ui in
        let ui := InputUIController.setTooltip (NotEmpty.tooltip notEmpty) ui in
        InputUIController.update ui) ic
  end.

Definition handleInputting (prev : InputState) (state : Inputting.t)
    (ic : InputController) : InputController :=
  let ic :=
    withUI (λ ui,
              let ui := InputUIController.reset ui in
              if bool_decide (0 < length (Inputting.evictedText state))
              then InputUIController.commitString
                     (Inputting.evictedText state) ui
              else ui) ic in
  updatePreedit (InputtingState state) ic.

Definition handleChoosingCandidate (prev : InputState)
    (state : ChoosingCandidate.t) (ic : InputController) : InputController :=
  let cc :=
    candidatesUpdate (ChoosingCandidate.candidates state) (candidateKeys_ ic)
                     (candidateController_ ic) in
  let ic := mkInputController (state_ ic) cc (ui_ ic) (candidateKeys_ ic) in
  let result := getCurrentPage cc in
  let ic := withUI (InputUIController.setCandidates result) ic in
  let ic := updatePreedit (ChoosingCandidateState state) ic in
  withUI InputUIController.update ic.

Definition handleMarking (prev : InputState) (state : Marking.t)
    (ic : InputController) : InputController :=
  let ic := updatePreedit (MarkingState state) ic in
  withUI InputUIController.update ic.

Definition enterNewState (state : InputState) (ic : InputController)
  : InputController :=
  let prev := state_ ic in
  let ic :=
    match state with
    | Empty => handleEmpty prev ic
    | EmptyIgnoringPrevious => handleEmptyIgnoringPrevious prev ic
    | Committing text => handleCommitting prev text ic
    | InputtingState s => handleInputting prev s ic
    | ChoosingCandidateState s => handleChoosingCandidate prev s ic
    | MarkingState s => handleMarking prev s ic
    | NotEmptyState _ => ic
    end in
  mkInputController state (candidateController_ ic) (ui_ ic)
                    (candidateKeys_ ic).

End Controller.
Arguments InputController C Cand : clear implicits.

Section KeyEvents.
Context {R G U C Cand : Type}.
Context `{ObjectPrototype} `{Mandarin} `{Numbers} `{Lodash} `{LocalizedStrings}.
Context `{BopomofoReadingBuffer R} `{Gramambular G} `{UserOverrideModel U}.
Context `{CandidateController C Cand}.

(** The callbacks that [mcbopomofoKeyEvent] passes to [handle]: a state is
    entered, an error does nothing. *)
Definition callbacks (evs : list Event)
    (ic : InputController C Cand)
  : InputController C Cand :=
  foldl (λ ic e,
           match e with
           | StateEntered s => enterNewState s ic
           | ErrorSignalled => ic
           end) ic evs.

(** [mcbopomofoKeyEvent(key)] when the state of the controller is not a
    [ChoosingCandidate]: the key goes to the handler with the state of the
    controller. *)
Definition mcbopomofoKeyEvent (k : Key.t) (now : Z) (kh : KeyHandler R G U)
    (ic : InputController C Cand)
  : bool * KeyHandler R G U * InputController C Cand :=
  let r := handle k (state_ ic) now kh in
  (result r, after r, callbacks (events r) ic).

End KeyEvents.

End InputControllerImpl.

(* ===================================================================== *)
(** ** The Chrome OS extension: what the host is asked to show *)
(* ===================================================================== *)

Module MakeUI.

(** A segment of the composition, as [chrome.input.ime.setComposition]
    takes it. *)
Record Segment := mkSegment {
  seg_start : nat;
  seg_end : nat;
  seg_style : JSString;
}.

(** The variables of the loop of [update] over the composing buffer. *)
Record Loop := mkLoop {
  segments : list Segment;
  text : JSString;
  selectionStart : option nat;
  selectionEnd : option nat;
  index : nat;
}.

(** One round of [for (let item of buffer)]. *)
Definition addItem (st : Loop) (item : ComposingBufferText) : Loop :=
  let text := text st ++ cbt_text item in
  match cbt_style item with
  | Highlighted =>
      mkLoop
        (segments st
         ++ [mkSegment (index st) (index st + length (cbt_text item))
                       (js "doubleUnderline")])
        text (Some (index st)) (Some (index st + length (cbt_text item)))
        (index st + length (cbt_text item))
  | Normal =>
      mkLoop
        (segments st
         ++ [mkSegment (index st) (index st + length (cbt_text item))
                       (js "underline")])
        text (selectionStart st) (selectionEnd st)
        (index st + length (cbt_text item))
  end.

(** The argument of [setComposition] besides the context. *)
Record Composition := mkComposition {
  comp_cursor : nat;
  comp_segments : list Segment;
  comp_text : JSString;
  comp_selectionStart : option nat;
  comp_selectionEnd : option nat;
}.

(** [update(stateString)], up to the call of [setComposition], when the
    extension has its engine and its context; [state] is what
    [JSON.parse] makes of the string. *)
Definition update {Cand} (state : InputUIState Cand) : Composition :=
  let st := foldl addItem (mkLoop [] [] None None 0)
                  (uis_composingBuffer state) in
  mkComposition (uis_cursorIndex state) (segments st) (text st)
                (selectionStart st) (selectionEnd st).

End MakeUI.

(* ===================================================================== *)
(** ** A small concrete system

    A miniature of every collaborator, to run the handler on concrete
    keys: a reading buffer whose syllables are lower-case letters closed by
    a tone digit, a grid whose walk takes the longest phrase of the
    dictionary at each position, and a user override model that never
    suggests. *)
(* ===================================================================== *)

Module Fixture.

Definition mandarin : Mandarin := {| absoluteOrderString := λ s, s |}.

(** The properties of [Object.prototype]. *)
Definition objectPrototype : ObjectPrototype :=
  {| inheritedProperty := λ name,
       bool_decide
         (name ∈ js <$> [ "constructor"; "hasOwnProperty"; "isPrototypeOf";
                          "propertyIsEnumerable"; "toLocaleString";
                          "toString"; "valueOf"; "__proto__";
                          "__defineGetter__"; "__defineSetter__";
                          "__lookupGetter__"; "__lookupSetter__" ]) |}.

(** Digits before and after the point, read as a quotient of two exact
    integers. *)
Fixpoint digits (s : JSString) (seenPoint : bool) (num den : Z) : Z * Z :=
  match s with
  | [] => (num, den)
  | c :: r =>
      if (N.leb 48 c && N.leb c 57)%N then
        digits r seenPoint (10 * num + Z.of_N (c - 48))%Z
               (if seenPoint then (10 * den)%Z else den)
      else if N.eqb c 46 then digits r true num den
      else (num, den)
  end.

Definition numbers : Numbers :=
  {| unigramDefaultScore := 0%float;
     parseFloat := λ o,
       match o with
       | None => nan
       | Some (45%N :: r) =>
           let q := digits r false 0 1 in
           (- (of_uint63 (Uint63.of_Z q.1) / of_uint63 (Uint63.of_Z q.2)))%float
       | Some s =>
           let q := digits s false 0 1 in
           (of_uint63 (Uint63.of_Z q.1) / of_uint63 (Uint63.of_Z q.2))%float
       end |}.

(** The symbols of a string, one per code point. *)
Fixpoint codePoints (s : JSString) : list JSString :=
  match s with
  | [] => []
  | c :: r =>
      match r with
      | d :: r' =>
          if isHighSurrogate c && isLowSurrogate d
          then [c; d] :: codePoints r'
          else [c] :: codePoints r
      | [] => [[c]]
      end
  end.

Definition lodash : Lodash := {| toArray := codePoints |}.

Definition localizedStrings : LocalizedStrings :=
  {| cursorIsBetweenSyllables := λ _ prev next,
       js "Cursor is between syllables " ++ default [] prev
       ++ js " and " ++ default [] next;
     syllablesRequired := λ _ _, js "syllables required";
     syllableMaximum := λ _ _, js "syllables maximum";
     phraseAlreadyExists := λ _, js "phrase already exists";
     pressEnterToAddThePhrase := λ _, js "press Enter to add the phrase";
     markedWithSyllablesAndStatus := λ _ marked readingUiText status,
       js "Marked: " ++ marked ++ js ", syllables: " ++ readingUiText
       ++ js ", " ++ status |}.

Definition isLetter (c : N) : bool := (N.leb 97 c && N.leb c 122)%N.
Definition isTone (c : N) : bool :=
  bool_decide (c ∈ [51; 52; 54; 55]%N).

(** The keys of the syllable typed so far. *)
Definition readingBuffer : BopomofoReadingBuffer JSString :=
  {| keyboardLayout := λ _, StandardLayout;
     setKeyboardLayout := λ _ r, r;
     isValidKey := λ _ k,
       match k with [c] => isLetter c || isTone c | _ => false end;
     combineKey := λ k r, r ++ k;
     hasToneMarker := λ r, existsb isTone r;
     hasToneMarkerOnly := λ r, bool_decide (r ≠ []) && forallb isTone r;
     readingIsEmpty := λ r, bool_decide (r = []);
     syllableComposedString := λ r, r;
     readingComposedString := λ r, r;
     readingClear := λ _, [];
     readingBackspace := λ r, take (length r - 1) r |}.

(** The grid keeps the readings and the language model it was last built
    from. *)
Record Grid := mkGrid {
  gridReadings : list JSString;
  gridModel : option WebLanguageModel;
}.

Section Grid.
Local Existing Instances objectPrototype mandarin numbers.

Definition unigramsAt (g : Grid) (start len : nat) : list Unigram :=
  match gridModel g with
  | Some lm =>
      match WebLanguageModelImpl.unigramsForKey
              (join (slice (gridReadings g) start (start + len))
                    kJoinSeparator) lm with
      | Returned unigrams => unigrams
      | TypeError => []
      end
  | None => []
  end.

Definition nodeOf (k : JSString) (us : list Unigram) : option Node :=
  match us with
  | [] => None
  | u :: _ =>
      Some {| nodeKey := k;
              currentKeyValue := keyValue u;
              nodeScore := score u;
              nodeCandidates := keyValue <$> us;
              highestUnigramScore := score u;
              scoreForCandidate := λ c,
                score <$> List.find
                  (λ u, bool_decide (value (keyValue u) = c)) us |}
  end.

Definition anchorAt (g : Grid) (start len : nat) : option NodeAnchor :=
  if bool_decide (start + len ≤ length (gridReadings g)) then
    let k := join (slice (gridReadings g) start (start + len))
                  kJoinSeparator in
    (λ nd, mkNodeAnchor (Some nd) len) <$> nodeOf k (unigramsAt g start len)
  else None.

(** The longest node that starts at [start], of at most [len] readings. *)
Fixpoint longestAt (g : Grid) (start len : nat) : option NodeAnchor :=
  match len with
  | 0 => None
  | S len' =>
      match anchorAt g start len with
      | Some a => Some a
      | None => longestAt g start len'
      end
  end.

Fixpoint walkFrom (g : Grid) (fuel start : nat) : list NodeAnchor :=
  match fuel with
  | 0 => []
  | S fuel' =>
      if bool_decide (length (gridReadings g) ≤ start) then []
      else
        match longestAt g start 6 with
        | Some a => a :: walkFrom g fuel' (start + spanningLength a)
        | None =>
            let k := default [] (gridReadings g !! start) in
            mkNodeAnchor
              (nodeOf k [mkUnigram (mkKeyValuePair k k) 0%float]) 1
            :: walkFrom g fuel' (start + 1)
        end
  end.

Definition crossingOrEndingAt (g : Grid) (i : nat) : list NodeAnchor :=
  seq 0 i ≫= (λ start,
    seq 1 6 ≫= (λ len,
      if bool_decide (i ≤ start + len) then
        match anchorAt g start len with Some a => [a] | None => [] end
      else [])).

Definition gramambular : Gramambular Grid :=
  {| kSelectedCandidateScore := 99%float;
     gridClear := mkGrid [] None;
     gridInsert := λ lm rs _ _, mkGrid rs (Some lm);
     gridRemove := λ lm rs _ _, mkGrid rs (Some lm);
     nodesCrossingOrEndingAt := crossingOrEndingAt;
     fixNodeSelectedCandidate := λ _ _ g, (emptyNodeAnchor, g);
     overrideNodeScoreForSelectedCandidate := λ _ _ _ g, g;
     walkGrid := λ g, walkFrom g (length (gridReadings g)) 0 |}.

End Grid.

Definition userOverrideModel : UserOverrideModel unit :=
  {| newUserOverrideModel := λ _ _, tt;
     suggest := λ _ _ _ _, None;
     observe := λ _ _ _ _ u, u |}.

(** A dictionary of five syllables, one of them written with a character
    outside the Basic Multilingual Plane, one two-syllable phrase and one
    punctuation mark. *)
Definition dictionary : gmap JSString JSString :=
  list_to_map
    [ (js "a3", [30002%N] ++ js " -1");
      (js "b3", [20057%N] ++ js " -1");
      (js "a3b3", [30002%N; 20057%N] ++ js " -0.5");
      (js "c3", [55360%N; 56320%N] ++ js " -1");
      (js "d3", [19969%N] ++ js " -1 " ++ [21486%N] ++ js " -2");
      (js "e3", [25098%N] ++ js " -1");
      (js "_punctuation_!", [65281%N] ++ js " 0") ].

Definition languageModel : WebLanguageModel :=
  {| map_ := dictionary;
     userPhrases_ := mkUserPhrases (mkPhraseMap ∅ ∅) [];
     converter_ := None;
     addUserPhraseConverter := None |}.

Definition Handler : Type := KeyHandler JSString Grid unit.

Definition keyHandler : Handler :=
  @newKeyHandler _ _ _ gramambular userOverrideModel languageModel [].

(** The key of a printable character, and the keys of a word. *)
Definition asciiKey (c : N) : Key.t :=
  Key.mk [c] (if N.eqb c 32 then SPACE else ASCII) false false.

Definition typed (s : string) : list (Key.t * Z) :=
  (λ c, (asciiKey c, 0%Z)) <$> js s.

Definition namedKey (name : KeyName) (ascii : string) (shift : bool)
  : Key.t := Key.mk (js ascii) name shift false.

(** A candidate controller with all the candidates on one page. *)
Definition candidateController
  : CandidateController (list JSString) JSString :=
  {| candidatesUpdate := λ candidates _ _, candidates;
     getCurrentPage := λ c, c |}.

Section Scenarios.
Local Existing Instances objectPrototype mandarin numbers lodash
  localizedStrings
  readingBuffer gramambular userOverrideModel.
Local Existing Instance candidateController.

(** The handler and the controller's state after the syllable a3 was
    typed. *)
Definition oneSyllableHandler : Handler :=
  (mcbopomofoKeyEvents (typed "a3") Empty keyHandler).2.

Definition oneSyllableState : InputState :=
  (mcbopomofoKeyEvents (typed "a3") Empty keyHandler).1.2.

(** The handler and the controller's state after the four syllables a3 b3
    d3 e3 were typed into a composing buffer of size 4. *)
Definition fullHandler : Handler :=
  (mcbopomofoKeyEvents (typed "a3b3d3e3") Empty
     (setComposingBufferSize 4 keyHandler)).2.

Definition fullState : InputState :=
  (mcbopomofoKeyEvents (typed "a3b3d3e3") Empty
     (setComposingBufferSize 4 keyHandler)).1.2.

(** The handler and the controller's state after the key d was typed
    next: the reading buffer holds it, the grid is as it was. *)
Definition pendingHandler : Handler :=
  (mcbopomofoKeyEvents (typed "d") fullState fullHandler).2.

Definition pendingState : InputState :=
  (mcbopomofoKeyEvents (typed "d") fullState fullHandler).1.2.

(** The keys a3 b3 and then Shift with the left arrow, each with the state
    passed to the call. *)
Definition markingCalls : list (Key.t * InputState * Z) :=
  ((λ c, (asciiKey c, Empty, 0%Z)) <$> js "a3b3")
  ++ [(namedKey LEFT "ArrowLeft" true,
       InputtingState (Inputting.new [30002; 20057]%N 2 []), 0%Z)].

(** The handler after the key a was typed: the reading buffer holds it. *)
Definition readingHandler : Handler :=
  (mcbopomofoKeyEvents (typed "a") Empty keyHandler).2.

(** The keys d3 e3 and then Shift with the left arrow twice, which marks
    both syllables. *)
Definition markedKeys : list (Key.t * Z) :=
  typed "d3e3"
  ++ [(namedKey LEFT "ArrowLeft" true, 0%Z);
      (namedKey LEFT "ArrowLeft" true, 0%Z)].

Definition markedHandler : Handler :=
  (mcbopomofoKeyEvents markedKeys Empty keyHandler).2.

(** The controller once it has entered the state after a3 was typed. *)
Definition oneSyllableController
  : InputControllerImpl.InputController (list JSString) JSString :=
  InputControllerImpl.enterNewState oneSyllableState
    (InputControllerImpl.newInputController []).

End Scenarios.

End Fixture.

(* ===================================================================== *)
(** ** Vocabulary of the properties *)
(* ===================================================================== *)

(** *** The language model, in the words of its description

    The unigrams of a key are the user phrases of the key, each with score
    0, followed by the entries of the dictionary, every value converted,
    and of the unigrams with one value only the first is kept. *)

(** Of the unigrams that carry one value, keep the first. *)
Fixpoint dedupByValue (us : list Unigram) : list Unigram :=
  match us with
  | [] => []
  | u :: r =>
      u :: filter (λ v, value (keyValue v) ≠ value (keyValue u))
                  (dedupByValue r)
  end.

(** The phrases that the user stored for a key, oldest first. *)
Definition userPhrasesOf (lm : WebLanguageModel) (k : JSString)
  : list JSString :=
  default [] (PhraseMapImpl.get k (up_map (userPhrases_ lm))).

(** The map holds one and the same array for both keys. *)
Definition sameArray (m : PhraseMap) (k k' : JSString) : bool :=
  match arrayAt m !! k, arrayAt m !! k' with
  | Some a, Some b => bool_decide (a = b)
  | _, _ => false
  end.

(** The user phrases of a key, converted, with score 0. *)
Definition userEntries (lm : WebLanguageModel) (k : JSString)
  : list Unigram :=
  (λ item, mkUnigram (mkKeyValuePair k (convertWith (converter_ lm) item))
                     0%float)
    <$> userPhrasesOf lm k.

(** The entries "value score value score ..." of a dictionary line. *)
Fixpoint entriesOf `{Numbers} (lm : WebLanguageModel) (k : JSString)
    (values : list JSString) : list Unigram :=
  match values with
  | [] => []
  | v :: rest =>
      mkUnigram (mkKeyValuePair k (convertWith (converter_ lm) v))
                (parseFloat (head rest))
      :: match rest with
         | [] => []
         | _ :: rest' => entriesOf lm k rest'
         end
  end.

Definition dictEntries `{Mandarin} `{Numbers} (lm : WebLanguageModel)
    (k : JSString) : list Unigram :=
  match map_ lm !! WebLanguageModelImpl.maybeAbsoluteOrderKey k with
  | Some entry => entriesOf lm k (split blank entry)
  | None => []
  end.

(** The absolute-order key of [k] names a property that the dictionary
    object inherits and does not have of its own. *)
Definition namesInheritedProperty `{ObjectPrototype} `{Mandarin}
    (lm : WebLanguageModel) (k : JSString) : bool :=
  inheritedProperty (WebLanguageModelImpl.maybeAbsoluteOrderKey k)
  && bool_decide (map_ lm !! WebLanguageModelImpl.maybeAbsoluteOrderKey k
                  = None).

Definition valueOf (u : Unigram) : JSString := value (keyValue u).

(** *** Keys that the absolute-order transform leaves alone *)

Definition underscore : N := 95%N.

(** The two replacements of [maybeAbsoluteOrderKey]. *)
Definition protect : JSString → JSString :=
  replaceAll (js "_-") (js "_______").

Definition restore : JSString → JSString :=
  replaceAll (js "_______") (js "_-").


(** A code unit put in front of the first segment. *)
Definition consHead (c : N) (segs : list JSString) : list JSString :=
  match segs with
  | seg :: segs => (c :: seg) :: segs
  | [] => [[c]]
  end.

(** The segments of a key: the key is cut at the hyphens that do not come
    directly after an underscore.  [prev] tells whether the code unit
    before [s] is an underscore. *)
Fixpoint segments (prev : bool) (s : JSString) : list JSString :=
  match s with
  | [] => [[]]
  | c :: r =>
      if N.eqb c hyphen && negb prev then [] :: segments false r
      else consHead c (segments (N.eqb c underscore) r)
  end.



(** *** Keys and states *)

(** The names of the modifier keys that [handle] leaves to the host. *)
Definition isModifierName (ascii : JSString) : bool :=
  bool_decide (ascii = js "Shift") || bool_decide (ascii = js "Meta")
  || bool_decide (ascii = js "Alt").

(** *** Cursors and buffers *)

(** The cursor of an [Inputting] state lies within its composing buffer,
    counted in UTF-16 code units, and also counted in code points when the
    buffer has no high surrogate. *)
Definition cursorWithinBuffer (s : InputState) : Prop :=
  match s with
  | InputtingState i =>
      let b := Inputting.base i in
      0 ≤ NotEmpty.cursorIndex b ≤ length (NotEmpty.composingBuffer b)
      ∧ (existsb isHighSurrogate (NotEmpty.composingBuffer b) = false →
         NotEmpty.cursorIndex b
         ≤ codePointLength (NotEmpty.composingBuffer b))
  | _ => True
  end.

(** The shorter of two strings, the first when they are equally long. *)
Definition shorter (a b : JSString) : JSString :=
  if bool_decide (length a ≤ length b) then a else b.

Section Reasoning.
Context {R G U : Type}.
Context `{ObjectPrototype} `{Mandarin} `{Numbers} `{Lodash} `{LocalizedStrings}.
Context `{BopomofoReadingBuffer R} `{Gramambular G} `{UserOverrideModel U}.

(** Every result of the method satisfies [P]. *)
Definition Returns {A} (P : A → Prop) (m : M R G U A) : Prop :=
  ∀ kh, P (result (m kh)).

(** Every state the method passes to the state callback satisfies [P]. *)
Definition EmitsOnly {A} (P : InputState → Prop) (m : M R G U A) : Prop :=
  ∀ kh, Forall P (statesEntered (events (m kh))).

(** The states that the handler constructs. *)
Inductive BuiltState : InputState → Prop :=
| built_Empty : BuiltState Empty
| built_EmptyIgnoringPrevious : BuiltState EmptyIgnoringPrevious
| built_Committing text : BuiltState (Committing text)
| built_Inputting (kh : KeyHandler R G U) evictedText :
    BuiltState
      (InputtingState
         (Inputting.setEvictedText evictedText (buildInputtingState kh)))
| built_ChoosingCandidate (kh : KeyHandler R G U) nonEmptyState :
    BuiltState
      (ChoosingCandidateState (buildChoosingCandidateState kh nonEmptyState))
| built_Marking (kh : KeyHandler R G U) beginCursorIndex :
    BuiltState (MarkingState (buildMarkingState kh beginCursorIndex)).

(** A [Marking] state splits its composing buffer into head, marked text
    and tail, and its head is the shorter of the heads of the two composed
    strings it was built from: the one at the mark start and the one at
    the cursor of the builder. *)
Definition markingOf (kh : KeyHandler R G U) (beginCursorIndex : nat)
    (m : Marking.t) : Prop :=
  m = buildMarkingState kh beginCursorIndex
  ∧ NotEmpty.composingBuffer (Marking.base m)
    = Marking.head m ++ Marking.markedText m ++ Marking.tail m
  ∧ Marking.head m
    = shorter (cs_head (getComposedString kh beginCursorIndex))
              (cs_head (getComposedString kh (builderCursorIndex kh))).


(** The state of the loop of [getComposedString] after the last node. *)
Definition composing_at (kh : KeyHandler R G U) (builderCursor : nat)
  : Composing :=
  foldl (composeAnchor (languageCode kh) (builderReadings kh) builderCursor)
        (mkComposing 0 [] 0 []) (walkedNodes_ kh).

(** How the loop at a cursor [c1] relates to the loop at a cursor further
    right: the same text is composed, and the composed cursor of the first
    is behind that of the second. *)
Definition behind (c1 : nat) (st1 st2 : Composing) : Prop :=
  composed st1 = composed st2
  ∧ runningCursor st1 ≤ c1
  ∧ composedCursor st1 ≤ composedCursor st2
  ∧ ((runningCursor st1 = runningCursor st2
      ∧ composedCursor st1 = composedCursor st2)
     ∨ runningCursor st1 = c1).


(** The text that [popEvictedTextAndWalk] evicts with an anchor. *)
Definition evictedTextOf (anchor : NodeAnchor) : JSString :=
  match node anchor with
  | Some nd => value (currentKeyValue nd)
  | None => []
  end.

(** The reading that [handleOtherKeys] inserts into the grid for a key,
    when it inserts one: the blank of Shift+Space, or the key of a
    punctuation mark or of a letter that the language model knows. *)
Definition insertedMark (kh : KeyHandler R G U) (k : Key.t)
    (state : InputState) : option JSString :=
  let known key :=
    WebLanguageModelImpl.hasUnigramsForKey key (languageModel_ kh) in
  if bool_decide (Key.name k = SPACE) && Key.shiftPressed k then
    if putLowercaseLettersToComposingBuffer_ kh then Some (js " ") else None
  else if (bool_decide (Key.name k = SPACE)
           || bool_decide (Key.name k = DOWN))
          && readingIsEmpty (reading_ kh) && instanceofNotEmpty state
  then None
  else if bool_decide (Key.name k ∈ [ESC; TAB; RETURN])
          || Key.isCursorKeys k || Key.isDeleteKeys k then None
  else if negb (readingIsEmpty (reading_ kh)) then None
  else if bool_decide (Key.ascii k = kPunctuationListKey)
          && known kPunctuationListUnigramKey then
    Some kPunctuationListUnigramKey
  else if bool_decide (Key.ascii k = []) then None
  else if known (kPunctuationKeyPrefix
                 ++ GetKeyboardLayoutName (keyboardLayout (reading_ kh))
                 ++ js "_" ++ Key.ascii k) then
    Some (kPunctuationKeyPrefix
          ++ GetKeyboardLayoutName (keyboardLayout (reading_ kh))
          ++ js "_" ++ Key.ascii k)
  else if known (kPunctuationKeyPrefix ++ Key.ascii k) then
    Some (kPunctuationKeyPrefix ++ Key.ascii k)
  else
    match Key.ascii k with
    | [c] =>
        if (N.leb 65 c && N.leb c 90)%N
           && putLowercaseLettersToComposingBuffer_ kh
           && known (kLetterPrefix ++ Key.ascii k)
        then Some (kLetterPrefix ++ Key.ascii k) else None
    | _ => None
    end.

(** The reading buffer once the key had its turn. *)
Definition readingWith (kh : KeyHandler R G U) (k : Key.t) : R :=
  if isValidKey (reading_ kh) (Key.ascii k)
  then combineKey (Key.ascii k) (reading_ kh)
  else reading_ kh.

(** The reading that [handle] inserts into the grid for a key, when it
    inserts one: the syllable that the key completes, or else what
    [handleOtherKeys] inserts for a key that the reading buffer does not
    take. *)
Definition insertedReading (kh : KeyHandler R G U) (k : Key.t)
    (state : InputState) : option JSString :=
  let consumed := isValidKey (reading_ kh) (Key.ascii k) in
  let reading := readingWith kh k in
  if isModifierName (Key.ascii k) then None
  else if consumed && negb (hasToneMarker reading) then None
  else if (hasToneMarker reading && negb (hasToneMarkerOnly reading))
          || (negb (readingIsEmpty reading)
              && bool_decide (Key.name k = SPACE)) then
    if WebLanguageModelImpl.hasUnigramsForKey (syllableComposedString reading)
         (languageModel_ kh)
    then Some (syllableComposedString reading) else None
  else if consumed then None
  else insertedMark kh k state.

End Reasoning.

(** *** Parts of the handler and what a method does to them *)

Section MoreReasoning.
Context {R G U : Type}.
Context `{BopomofoReadingBuffer R}.

(** A method that, when it returns [false], has changed nothing and has
    called no callback. *)
Definition SilentWhenFalse (m : M R G U bool) : Prop :=
  ∀ kh, result (m kh) = false → m kh = (false, kh, []).

(** A method that leaves a part of the handler as it is. *)
Definition Keeps {A X} (part : KeyHandler R G U → X) (m : M R G U A) : Prop :=
  ∀ kh, part (after (m kh)) = part kh.

(** What the host configures: the settings of the handler, the dictionary
    and the converters of the language model. *)
Definition configuration (kh : KeyHandler R G U) :=
  (languageCode kh, selectPhraseAfterCursorAsCandidate_ kh,
   moveCursorAfterSelection_ kh, putLowercaseLettersToComposingBuffer_ kh,
   escKeyClearsEntireComposingBuffer_ kh, composingBufferSize_ kh,
   traditionalMode_ kh, map_ (languageModel_ kh),
   converter_ (languageModel_ kh),
   addUserPhraseConverter (languageModel_ kh)).

(** What was typed: the readings of the grid, the reading that is being
    composed, and the language model with its user phrases. *)
Definition whatWasTyped (kh : KeyHandler R G U) :=
  (BlockReadingBuilder.readings (builder_ kh), reading_ kh, languageModel_ kh).

(** Everything in the handler that the cursor keys have no business
    with: all but the cursor of the builder and the settings. *)
Definition exceptCursor (kh : KeyHandler R G U) :=
  (BlockReadingBuilder.readings (builder_ kh),
   BlockReadingBuilder.grid (builder_ kh), walkedNodes_ kh, reading_ kh,
   languageModel_ kh, userOverrideModel_ kh).

(** The cursor of the builder is at one of the positions 0 to W of a grid
    of width W. *)
Definition cursorInGrid (kh : KeyHandler R G U) : Prop :=
  BlockReadingBuilder.cursorIndex (builder_ kh)
  ≤ BlockReadingBuilder.width (builder_ kh).

(** A method that leaves the grid no wider than it was. *)
Definition NeverWidens {A} (m : M R G U A) : Prop :=
  ∀ kh, BlockReadingBuilder.width (builder_ (after (m kh)))
        ≤ BlockReadingBuilder.width (builder_ kh).

(** A method that keeps the cursor of the builder in the grid. *)
Definition KeepsCursorInGrid {A} (m : M R G U A) : Prop :=
  ∀ kh, cursorInGrid kh → cursorInGrid (after (m kh)).

(** The key is not one of the modifiers, the reading buffer does not take
    it, and no reading is being composed. *)
Definition outsideReading (kh : KeyHandler R G U) (k : Key.t) : bool :=
  negb (isModifierName (Key.ascii k))
  && negb (isValidKey (reading_ kh) (Key.ascii k))
  && negb (hasToneMarker (reading_ kh)
           && negb (hasToneMarkerOnly (reading_ kh)))
  && readingIsEmpty (reading_ kh).

(** The key asks to move or to delete past an end of the readings:
    Backspace or the left arrow with the cursor at the start, Delete or the
    right arrow with the cursor at the end. *)
Definition pastTheEnd (kh : KeyHandler R G U) (k : Key.t) : bool :=
  match Key.name k with
  | BACKSPACE | LEFT =>
      bool_decide (BlockReadingBuilder.cursorIndex (builder_ kh) = 0)
  | DELETE | RIGHT =>
      bool_decide (BlockReadingBuilder.cursorIndex (builder_ kh)
                   = BlockReadingBuilder.length (builder_ kh))
  | _ => false
  end.

End MoreReasoning.

(** *** Walked nodes and candidates *)

(** The current values of walked nodes, one after the other; an anchor
    without a node has none. *)
Definition walkedText (nodes : list NodeAnchor) : JSString :=
  concat (evictedTextOf <$> nodes).

(** Every anchor has a node and spans at least one reading. *)
Definition wholeNodes (nodes : list NodeAnchor) : bool :=
  forallb (λ a, bool_decide (is_Some (node a))
                && bool_decide (0 < spanningLength a)) nodes.

(** The readings that the anchors span. *)
Definition spanOf (nodes : list NodeAnchor) : nat :=
  sum_list (spanningLength <$> nodes).

(** The anchor [a] may stand before [b]: its key is at least as long. *)
Definition keyAtLeastAsLong (a b : NodeAnchor) : Prop :=
  anchorKeyLength b ≤ anchorKeyLength a.

(** The candidates that an anchor offers. *)
Definition candidatesOf (anchor : NodeAnchor) : list JSString :=
  match node anchor with
  | Some nd => value <$> nodeCandidates nd
  | None => []
  end.

(** The anchors whose key has [n] code units. *)
Definition withKeyLength (n : nat) (l : list NodeAnchor) : list NodeAnchor :=
  filter (λ a, anchorKeyLength a = n) l.


(** *** The controller and the host *)

(** The candidate keys that [setCandidateKeys] accepts. *)
Definition validCandidateKeys (l : list JSString) : Prop :=
  NoDup l ∧ 4 ≤ length l ≤ 15.

(** The segments join up: the first starts at [from], each of the others
    where the one before it ends, and the last ends at [to]. *)
Fixpoint contiguous (from : nat) (segs : list MakeUI.Segment) (to : nat)
  : Prop :=
  match segs with
  | [] => from = to
  | seg :: rest =>
      MakeUI.seg_start seg = from
      ∧ MakeUI.seg_start seg ≤ MakeUI.seg_end seg
      ∧ contiguous (MakeUI.seg_end seg) rest to
  end.

(** The segment of a piece of the composing buffer covers its text within
    the whole text, with the underline of its style. *)
Definition segmentShows (text : JSString) (seg : MakeUI.Segment)
    (item : ComposingBufferText) : Prop :=
  substring text (MakeUI.seg_start seg) (MakeUI.seg_end seg) = cbt_text item
  ∧ MakeUI.seg_style seg
    = match cbt_style item with
      | Highlighted => js "doubleUnderline"
      | Normal => js "underline"
      end.

(** The composition that the host was last asked to show. *)
Definition lastComposition {C Cand}
    (ic : InputControllerImpl.InputController C Cand)
  : option MakeUI.Composition :=
  match last (InputUIController.calls (InputControllerImpl.ui_ ic)) with
  | Some (UIUpdate state) => Some (MakeUI.update state)
  | _ => None
  end.

(** The composition shows the state: its text is the composing buffer,
    its cursor the cursor of the state, and the selection is the marked
    text of a [Marking] state, none for another state. *)
Definition shows (c : MakeUI.Composition) (s : InputState) : Prop :=
  match asNotEmpty s with
  | None => True
  | Some notEmpty =>
      MakeUI.comp_text c = NotEmpty.composingBuffer notEmpty
      ∧ MakeUI.comp_cursor c = NotEmpty.cursorIndex notEmpty
      ∧ (MakeUI.comp_selectionStart c, MakeUI.comp_selectionEnd c)
        = match s with
          | MarkingState m =>
              (Some (length (Marking.head m)),
               Some (length (Marking.head m)
                     + length (Marking.markedText m)))
          | _ => (None, None)
          end
  end.

(* ===================================================================== *)
(** * Properties *)
(* ===================================================================== *)

(** ** Strings *)


Lemma includes_true (a : list JSString) (x : JSString) :
  includes a x = true ↔ x ∈ a.
Proof. unfold includes. apply bool_decide_eq_true. Qed.

Lemma includes_false (a : list JSString) (x : JSString) :
  includes a x = false ↔ x ∉ a.
Proof. unfold includes. apply bool_decide_eq_false. Qed.

Lemma join_singleton (x sep : JSString) : join [x] sep = x.
Proof. reflexivity. Qed.

Lemma protect_nil : protect [] = [].
Proof. reflexivity. Qed.


Lemma startsWith_seven (c : N) (t : JSString) :
  startsWith (c :: t) (js "_______") = true →
  c = underscore ∧ match t with d :: _ => d = underscore | [] => False end.
Proof.
  destruct t as [|d t]; cbn.
  - rewrite andb_false_r. done.
  - intros Hs. apply andb_true_iff in Hs as [Hc Hs].
    apply andb_true_iff in Hs as [Hd _].
    apply N.eqb_eq in Hc, Hd. done.
Qed.






Lemma restore_other (c : N) (t : JSString) :
  startsWith (c :: t) (js "_______") = false →
  restore (c :: t) = c :: restore t.
Proof.
  intros Hs. unfold restore, replaceAll. cbn [replaceAll_from].
  by rewrite Hs.
Qed.


Lemma restore_keep_underscore (d : N) (t : JSString) :
  d ≠ underscore →
  restore (underscore :: d :: t) = underscore :: restore (d :: t).
Proof.
  intros Hd. apply restore_other. apply not_true_is_false.
  intros Hs. by apply startsWith_seven in Hs as [_ ->].
Qed.


Lemma join_empty_separator (l : list JSString) : join l [] = concat l.
Proof.
  induction l as [|x [|y l] IH]; [done|cbn; by rewrite app_nil_r|].
  change (join (x :: y :: l) []) with (x ++ [] ++ join (y :: l) []).
  by rewrite IH.
Qed.























Section AbsoluteOrder.
Context `{Mandarin}.




End AbsoluteOrder.

(** ** The language model *)

Lemma filter_valueOf_notin (used : list JSString) (v : JSString)
    (l : list Unigram) :
  filter (λ u, valueOf u ∉ used) (filter (λ u, valueOf u ≠ v) l)
  = filter (λ u, valueOf u ∉ used ++ [v]) l.
Proof.
  rewrite list_filter_filter. apply list_filter_iff. intros u.
  rewrite not_elem_of_app, list_elem_of_singleton. done.
Qed.

Lemma filter_valueOf_notin_nil (l : list Unigram) :
  filter (λ u, valueOf u ∉ []) l = l.
Proof.
  induction l as [|u l IH]; [done|].
  rewrite filter_cons_True by apply not_elem_of_nil. by rewrite IH.
Qed.

Section LanguageModelFacts.
Context `{ObjectPrototype} `{Mandarin} `{Numbers}.

(** Both loops of [unigramsForKey] push onto the result what
    [dedupByValue] keeps of the unigrams whose value is not yet used. *)
Lemma foldl_pushUnlessUsed (us : list Unigram)
    (acc : list Unigram * list JSString) :
  foldl WebLanguageModelImpl.pushUnlessUsed acc us
  = (acc.1 ++ filter (λ u, valueOf u ∉ acc.2) (dedupByValue us),
     acc.2 ++ (valueOf <$> us)).
Proof.
  revert acc. induction us as [|u r IH]; intros [res used].
  - cbn. by rewrite !app_nil_r.
  - cbn [foldl]. rewrite IH. unfold WebLanguageModelImpl.pushUnlessUsed.
    cbn [fst snd dedupByValue fmap list_fmap].
    fold (valueOf u). rewrite <- (assoc_L (++)). f_equal.
    rewrite filter_cons, <- filter_valueOf_notin.
    destruct (includes used (valueOf u)) eqn:Hin.
    + apply includes_true in Hin. by rewrite decide_False by tauto.
    + apply includes_false in Hin. rewrite decide_True by done.
      by rewrite <- (assoc_L (++)).
Qed.

Lemma userLoop_foldl (lm : WebLanguageModel) (k : JSString)
    (acc : list Unigram * list JSString) :
  WebLanguageModelImpl.userLoop lm k
    (UserPhrasesImpl.unigramsForKey k (userPhrases_ lm)) acc
  = foldl WebLanguageModelImpl.pushUnlessUsed acc (userEntries lm k).
Proof.
  unfold WebLanguageModelImpl.userLoop, UserPhrasesImpl.unigramsForKey,
    userEntries, userPhrasesOf.
  generalize (PhraseMapImpl.get k (up_map (userPhrases_ lm))).
  intros [l|]; [|done].
  change (default [] (Some l)) with l.
  revert acc. induction l as [|item l IH]; intros acc; [done|].
  rewrite !fmap_cons. cbn [foldl]. rewrite <- IH. f_equal.
  unfold convertWith. by destruct (converter_ lm).
Qed.

Lemma dictLoop_foldl (lm : WebLanguageModel) (k : JSString)
    (values : list JSString) (acc : list Unigram * list JSString) :
  WebLanguageModelImpl.dictLoop lm k values acc
  = foldl WebLanguageModelImpl.pushUnlessUsed acc (entriesOf lm k values).
Proof.
  remember (length values) as n eqn:Hn. revert values acc Hn.
  induction n as [n IH] using lt_wf_ind. intros values acc ->.
  destruct values as [|v [|sc rest]]; [done|done|].
  cbn [WebLanguageModelImpl.dictLoop entriesOf foldl].
  apply (IH (length rest)); [cbn; lia|done].
Qed.

Lemma NoDup_dedupByValue (us : list Unigram) :
  NoDup (valueOf <$> dedupByValue us).
Proof.
  induction us as [|u r IH]; [constructor|].
  cbn [dedupByValue fmap list_fmap]. constructor.
  - intros Hin. apply list_elem_of_fmap in Hin as (u' & Hv & Hu').
    apply list_elem_of_filter in Hu' as [Hne _]. by apply Hne.
  - refine (sublist_NoDup _ _ IH _). apply fmap_sublist, sublist_filter.
Qed.

Lemma elem_of_dedupByValue (u : Unigram) (us : list Unigram) :
  u ∈ dedupByValue us → u ∈ us.
Proof.
  induction us as [|u' r IH]; [done|]. cbn [dedupByValue].
  intros [->|Hin]%elem_of_cons; [left|right].
  apply IH. by apply list_elem_of_filter in Hin as [_ Hin].
Qed.

Lemma dedupByValue_app (a b : list Unigram) :
  dedupByValue (a ++ b)
  = dedupByValue a
    ++ filter (λ d, valueOf d ∉ valueOf <$> a) (dedupByValue b).
Proof.
  transitivity (foldl WebLanguageModelImpl.pushUnlessUsed ([], [])
                      (a ++ b)).1.
  - rewrite foldl_pushUnlessUsed. cbn [fst snd app].
    symmetry. apply filter_valueOf_notin_nil.
  - rewrite foldl_app, !foldl_pushUnlessUsed. cbn [fst snd app].
    f_equal. apply filter_valueOf_notin_nil.
Qed.

(** What [unigramsForKey] does for a key other than " ": it throws when the
    absolute-order key names an inherited property only, and returns the
    merged entries otherwise. *)
Lemma unigramsForKey_dedup (lm : WebLanguageModel) (k : JSString) :
  k ≠ js " " →
  WebLanguageModelImpl.unigramsForKey k lm
  = if namesInheritedProperty lm k then TypeError
    else Returned (dedupByValue (userEntries lm k ++ dictEntries lm k)).
Proof.
  intros Hk. unfold WebLanguageModelImpl.unigramsForKey.
  rewrite bool_decide_eq_false_2 by done.
  rewrite userLoop_foldl.
  unfold namesInheritedProperty, hasProperty, dictEntries.
  destruct (map_ lm !! _) as [entry|].
  - rewrite bool_decide_eq_true_2 by done. cbn [orb].
    rewrite bool_decide_eq_false_2 by done. rewrite andb_false_r.
    f_equal. rewrite dictLoop_foldl, <- foldl_app, foldl_pushUnlessUsed.
    cbn [fst snd app]. apply filter_valueOf_notin_nil.
  - rewrite bool_decide_eq_false_2 by (by intros [? ?]). cbn [orb].
    rewrite bool_decide_eq_true_2 by done. rewrite andb_true_r.
    destruct (inheritedProperty _); [done|].
    f_equal. rewrite app_nil_r, foldl_pushUnlessUsed.
    cbn [fst snd app]. apply filter_valueOf_notin_nil.
Qed.

(** C2 at the key "__proto__".  Every object inherits a property of that
    name, so unless the dictionary has an entry of its own under it,
    [hasUnigramsForKey] answers that there are unigrams and
    [unigramsForKey] throws instead of returning them, whatever the user
    phrases, the converters and the syllable table are. *)
Theorem unigramsForKey_throws_for_proto (lm : WebLanguageModel) :
  inheritedProperty (js "__proto__") = true →
  map_ lm !! js "__proto__" = None →
  WebLanguageModelImpl.unigramsForKey (js "__proto__") lm = TypeError
  ∧ WebLanguageModelImpl.hasUnigramsForKey (js "__proto__") lm = true.
Proof.
  intros Hin Hown.
  assert (WebLanguageModelImpl.maybeAbsoluteOrderKey (js "__proto__")
          = js "__proto__") as Hkey by reflexivity.
  split.
  - rewrite unigramsForKey_dedup by done.
    unfold namesInheritedProperty. rewrite Hkey, Hin, Hown.
    by rewrite bool_decide_eq_true_2.
  - unfold WebLanguageModelImpl.hasUnigramsForKey, hasProperty.
    rewrite Hkey, Hin, orb_true_r.
    rewrite bool_decide_eq_false_2 by done.
    by destruct (UserPhrasesImpl.hasUnigramsForKey _ _).
Qed.

End LanguageModelFacts.

Lemma newArray_fresh (m : PhraseMap) (k : JSString) :
  arrayAt m !! k ≠ Some (PhraseMapImpl.newArray m).
Proof.
  intros Hk.
  apply (is_fresh (dom (elements m) ∪ (map_img (arrayAt m) : gset nat))).
  apply elem_of_union. right. apply elem_of_map_img. by exists k.
Qed.

Lemma newArray_empty (m : PhraseMap) :
  PhraseMapImpl.elementsOf m (PhraseMapImpl.newArray m) = [].
Proof.
  unfold PhraseMapImpl.elementsOf.
  rewrite (not_elem_of_dom_1 (elements m)); [done|].
  intros Hin.
  apply (is_fresh (dom (elements m) ∪ (map_img (arrayAt m) : gset nat))).
  apply elem_of_union. by left.
Qed.

(** The phrases of every key after [array.push(x); map.set(k, array)]. *)
Lemma get_set_push (m : PhraseMap) (k k' : JSString) (array : nat)
    (x : JSString) :
  PhraseMapImpl.get k'
    (PhraseMapImpl.set k array (PhraseMapImpl.push array x m))
  = if bool_decide (k' = k ∨ arrayAt m !! k' = Some array)
    then Some (PhraseMapImpl.elementsOf m array ++ [x])
    else PhraseMapImpl.get k' m.
Proof.
  unfold PhraseMapImpl.get, PhraseMapImpl.set, PhraseMapImpl.push,
    PhraseMapImpl.elementsOf.
  cbn [arrayAt elements].
  destruct (decide (k' = k)) as [->|Hne].
  - rewrite lookup_insert_eq, bool_decide_eq_true_2 by (by left).
    cbn. by rewrite lookup_insert_eq.
  - rewrite lookup_insert_ne by done.
    destruct (arrayAt m !! k') as [b|] eqn:Hb; cbn.
    + destruct (decide (b = array)) as [->|Hba].
      * rewrite bool_decide_eq_true_2 by (by right).
        by rewrite lookup_insert_eq.
      * rewrite bool_decide_eq_false_2 by (intros [?|?]; congruence).
        by rewrite lookup_insert_ne.
    + by rewrite bool_decide_eq_false_2 by (intros [?|?]; congruence).
Qed.

(** C6, as the code has it.  [addUserPhrase] converts the phrase with the
    input converter when one is set.  When the converted phrase is already
    stored for the key, nothing changes and the change callback is not
    called.  Otherwise the phrase is appended at the end of the list of the
    key, after the phrases stored before, and the change callback is called
    once, with the updated map.  The list is changed in place: a key that
    holds the same array sees the phrase as well, and every other key keeps
    its phrases. *)
Theorem addUserPhrase_appends (lm : WebLanguageModel)
    (k phrase : JSString) :
  let stored := convertWith (addUserPhraseConverter lm) phrase in
  let old := userPhrasesOf lm k in
  let lm' := WebLanguageModelImpl.addUserPhrase k phrase lm in
  if bool_decide (stored ∈ old) then lm' = lm
  else
    (∀ k', PhraseMapImpl.get k' (up_map (userPhrases_ lm'))
           = if bool_decide (k' = k)
                || sameArray (up_map (userPhrases_ lm)) k k'
             then Some (old ++ [stored])
             else PhraseMapImpl.get k' (up_map (userPhrases_ lm)))
    ∧ phraseChanges (userPhrases_ lm')
      = phraseChanges (userPhrases_ lm) ++ [up_map (userPhrases_ lm')]
    ∧ map_ lm' = map_ lm
    ∧ converter_ lm' = converter_ lm
    ∧ addUserPhraseConverter lm' = addUserPhraseConverter lm.
Proof.
  intros stored old lm'. subst lm' old.
  unfold WebLanguageModelImpl.addUserPhrase,
    WebLanguageModelImpl.withUserPhrases, UserPhrasesImpl.addUserPhrase,
    userPhrasesOf, sameArray.
  fold stored. destruct lm as [m [um log] c ac]. cbn [userPhrases_ up_map
    phraseChanges map_ converter_ addUserPhraseConverter] in *.
  assert (PhraseMapImpl.get k um
          = PhraseMapImpl.elementsOf um <$> arrayAt um !! k) as -> by done.
  destruct (arrayAt um !! k) as [list|] eqn:Hk; cbn [fmap option_fmap
    option_map from_option]; unfold id.
  - unfold includes.
    destruct (bool_decide_reflect
                (stored ∈ PhraseMapImpl.elementsOf um list)); [done|].
    cbn [up_map phraseChanges]. repeat split. intros k'.
    rewrite get_set_push. unfold PhraseMapImpl.get.
    destruct (decide (k' = k)) as [->|Hne].
    + by rewrite !bool_decide_eq_true_2 by (by try left).
    + rewrite (bool_decide_eq_false_2 (k' = k)) by done. cbn [orb].
      destruct (arrayAt um !! k') as [b|]; cbn.
      * destruct (decide (list = b)) as [->|Hb].
        -- by rewrite !bool_decide_eq_true_2 by (by try right).
        -- rewrite (bool_decide_eq_false_2 (list = b)) by done.
           by rewrite bool_decide_eq_false_2 by (intros [?|?]; congruence).
      * by rewrite bool_decide_eq_false_2 by (intros [?|?]; congruence).
  - rewrite bool_decide_eq_false_2 by apply not_elem_of_nil.
    cbn [up_map phraseChanges]. repeat split. intros k'.
    rewrite get_set_push, newArray_empty. unfold PhraseMapImpl.get.
    rewrite orb_false_r.
    destruct (decide (k' = k)) as [->|Hne].
    + by rewrite !bool_decide_eq_true_2 by (by try left).
    + rewrite (bool_decide_eq_false_2 (k' = k)) by done.
      rewrite bool_decide_eq_false_2; [done|].
      intros [?|Hnew]; [done|]. by apply newArray_fresh in Hnew.
Qed.


(** ** The configuration of the key handler *)

Section Configuration.
Context {R G U : Type}.

(** C9.  Whatever integer is passed to the setter of the composing buffer
    size, the size stored afterwards is between 4 and 100: a value above
    100 is stored as 100, a value below 4 as 4, any other as it is. *)
Theorem setComposingBufferSize_clamps (v : Z) (kh : KeyHandler R G U) :
  let stored := composingBufferSize (setComposingBufferSize v kh) in
  (4 ≤ stored ≤ 100)%Z
  ∧ stored = (if (100 <? v)%Z then 100 else if (v <? 4)%Z then 4 else v)%Z.
Proof.
  cbn. unfold kMaxComposingBufferSize, kMinComposingBufferSize.
  destruct (Z.ltb_spec 100 v) as [Hhi|Hhi]; cbn.
  - lia.
  - destruct (Z.ltb_spec v 4); lia.
Qed.

End Configuration.

Section Candidates.
Context {R G U : Type} `{Gramambular G}.

(** C5.  The cursor used for looking candidates up is the cursor of the
    grid plus one when the phrase after the cursor is selected and the
    cursor is not at the end, plus one when the phrase before the cursor is
    selected and the cursor is at the beginning of a grid that is not
    empty, and the cursor of the grid itself otherwise. *)
Theorem actualCandidateCursorIndex_cases (kh : KeyHandler R G U) :
  let c := builderCursorIndex kh in
  let W := builderLength kh in
  let selectAfter := selectPhraseAfterCursorAsCandidate_ kh in
  actualCandidateCursorIndex kh
  = if selectAfter && bool_decide (c < W) then c + 1
    else if negb selectAfter && bool_decide (c = 0) && bool_decide (0 < W)
         then c + 1
         else c.
Proof.
  cbn. unfold actualCandidateCursorIndex.
  destruct (selectPhraseAfterCursorAsCandidate_ kh); cbn [andb negb].
  - by case_bool_decide.
  - done.
Qed.

End Candidates.

(** ** Composed strings *)

Lemma slice_from_zero {A} (l : list A) (n : nat) : slice l 0 n = take n l.
Proof. unfold slice. by rewrite Nat.sub_0_r. Qed.

Lemma length_concat_take_mono (l : list JSString) (n m : nat) :
  n ≤ m → length (concat (take n l)) ≤ length (concat (take m l)).
Proof.
  revert n m. induction l as [|x l IH]; intros n m Hnm.
  - by rewrite !take_nil.
  - destruct n as [|n]; [cbn; lia|]. destruct m as [|m]; [lia|].
    cbn [take concat]. rewrite !length_app.
    specialize (IH n m). lia.
Qed.

Lemma length_concat_take_le (l : list JSString) (n : nat) :
  length (concat (take n l)) ≤ length (concat l).
Proof.
  rewrite <- (take_ge l (Nat.max n (length l))) at 2 by lia.
  apply length_concat_take_mono. lia.
Qed.

Lemma substring_prefix (s : JSString) (n : nat) : substring s 0 n = take n s.
Proof.
  unfold substring. by rewrite Nat.max_0_l, Nat.min_0_l, Nat.sub_0_r.
Qed.

Lemma substring_suffix (s : JSString) (n : nat) :
  substring s n (length s) = drop n s.
Proof.
  unfold substring. destruct (Nat.le_gt_cases n (length s)) as [Hle|Hgt].
  - rewrite Nat.max_r, Nat.min_l by done.
    apply take_ge. rewrite length_drop. lia.
  - rewrite Nat.max_l, Nat.min_r by lia.
    rewrite (drop_ge s n) by lia. rewrite drop_all. by rewrite take_nil.
Qed.

Lemma countCodePoints_without_high_surrogate (s : JSString) :
  existsb isHighSurrogate s = false → codePointLength s = length s.
Proof.
  unfold codePointLength. induction s as [|c r IH]; [done|].
  cbn [existsb countCodePoints andb]. intros [Hc Hr]%orb_false_iff.
  rewrite Hc. cbn [length]. f_equal. by apply IH.
Qed.

Section ComposedStrings.
Context {R G U : Type}.
Context `{ObjectPrototype} `{Mandarin} `{Numbers} `{Lodash} `{LocalizedStrings}.
Context `{BopomofoReadingBuffer R} `{Gramambular G} `{UserOverrideModel U}.

Local Abbreviation KH := (KeyHandler R G U).

Lemma getComposedString_head (kh : KH) (c : nat) :
  cs_head (getComposedString kh c)
  = take (composedCursor (composing_at kh c)) (composed (composing_at kh c)).
Proof. unfold getComposedString. cbn. apply substring_prefix. Qed.

Lemma getComposedString_tail (kh : KH) (c : nat) :
  cs_tail (getComposedString kh c)
  = drop (composedCursor (composing_at kh c)) (composed (composing_at kh c)).
Proof. unfold getComposedString. cbn. apply substring_suffix. Qed.

Lemma getComposedString_whole (kh : KH) (c : nat) :
  cs_head (getComposedString kh c) ++ cs_tail (getComposedString kh c)
  = composed (composing_at kh c).
Proof.
  rewrite getComposedString_head, getComposedString_tail.
  apply take_drop.
Qed.

Hypothesis toArray_join : ∀ v : JSString, join (toArray v) [] = v.

Lemma composeAnchor_behind (lang : JSString) (rs : list JSString)
    (c1 c2 : nat) (st1 st2 : Composing) (a : NodeAnchor) :
  c1 ≤ c2 → behind c1 st1 st2 →
  behind c1 (composeAnchor lang rs c1 st1 a) (composeAnchor lang rs c2 st2 a).
Proof using toArray_join.
  intros Hc (Hcomp & Hrun & Hcur & Hrel). unfold composeAnchor.
  destruct (node a) as [nd|]; [|done].
  set (v := value (currentKeyValue nd)).
  pose proof (length_concat_take_le (toArray v)) as Hle.
  pose proof (length_concat_take_mono (toArray v)) as Hmono.
  assert (length (concat (toArray v)) = length v) as Hlen
    by (by rewrite <- join_empty_separator, toArray_join).
  rewrite !slice_from_zero, !join_empty_separator.
  unfold behind. repeat case_bool_decide; cbn [composed runningCursor
    composedCursor]; rewrite Hcomp;
    (split; [done|]);
    try (specialize (Hle (Nat.min (c1 - runningCursor st1)
                                  (length (toArray v)))));
    try (specialize (Hmono (Nat.min (c1 - runningCursor st1)
                                    (length (toArray v)))
                           (Nat.min (c2 - runningCursor st2)
                                    (length (toArray v)))));
    lia.
Qed.

Lemma foldl_composeAnchor_behind (lang : JSString) (rs : list JSString)
    (c1 c2 : nat) (nodes : list NodeAnchor) (st1 st2 : Composing) :
  c1 ≤ c2 → behind c1 st1 st2 →
  behind c1 (foldl (composeAnchor lang rs c1) st1 nodes)
            (foldl (composeAnchor lang rs c2) st2 nodes).
Proof using toArray_join.
  intros Hc. revert st1 st2.
  induction nodes as [|a nodes IH]; intros st1 st2 Hb; [done|].
  cbn [foldl]. by apply IH, composeAnchor_behind.
Qed.

Lemma composing_at_mono (kh : KH) (c1 c2 : nat) :
  c1 ≤ c2 →
  composed (composing_at kh c1) = composed (composing_at kh c2)
  ∧ composedCursor (composing_at kh c1)
    ≤ composedCursor (composing_at kh c2).
Proof using toArray_join.
  intros Hc.
  assert (behind c1 (mkComposing 0 [] 0 []) (mkComposing 0 [] 0 []))
    as Hinit by (unfold behind; cbn; split; [done|lia]).
  by destruct (foldl_composeAnchor_behind (languageCode kh)
                 (builderReadings kh) c1 c2 (walkedNodes_ kh) _ _ Hc Hinit)
    as (Hcomp & _ & Hcur & _).
Qed.

End ComposedStrings.

Section MarkingFacts.
Context {R G U : Type}.
Context `{ObjectPrototype} `{Mandarin} `{Numbers} `{Lodash} `{LocalizedStrings}.
Context `{BopomofoReadingBuffer R} `{Gramambular G} `{UserOverrideModel U}.

Local Abbreviation KH := (KeyHandler R G U).

Local Ltac fields :=
  cbn [Marking.new Marking.base Marking.head Marking.markedText Marking.tail
       Marking.reading Marking.acceptable NotEmpty.composingBuffer
       substring_from andb negb].

(** The fields of the state that [buildMarkingState] returns, with the two
    ends of the marked range in order. *)
Lemma buildMarkingState_fields (kh : KH) (beginCursorIndex : nat) :
  let m := buildMarkingState kh beginCursorIndex in
  let lo := Nat.min beginCursorIndex (builderCursorIndex kh) in
  let hi := Nat.max beginCursorIndex (builderCursorIndex kh) in
  let readings := slice (builderReadings kh) lo hi in
  NotEmpty.composingBuffer (Marking.base m)
  = cs_head (getComposedString kh (builderCursorIndex kh))
    ++ cs_tail (getComposedString kh (builderCursorIndex kh))
  ∧ Marking.head m = cs_head (getComposedString kh lo)
  ∧ Marking.markedText m
    = drop (length (cs_head (getComposedString kh lo)))
           (cs_head (getComposedString kh hi))
  ∧ Marking.tail m = cs_tail (getComposedString kh hi)
  ∧ Marking.reading m = join readings (js "-")
  ∧ Marking.acceptable m
    = bool_decide (2 ≤ length readings) && bool_decide (length readings ≤ 6)
      && negb (MarkedPhraseExists (languageModel_ kh) (join readings (js "-"))
                 (Marking.markedText m)).
Proof.
  cbn zeta. unfold buildMarkingState, substring_from.
  unfold kMinValidMarkingReadingCount, kMaxValidMarkingReadingCount.
  destruct (bool_decide_reflect
              (builderCursorIndex kh < beginCursorIndex)) as [Hlt|Hge].
  - rewrite Nat.min_r, Nat.max_l by lia. cbn [fst snd]. fields.
    repeat split.
    repeat case_bool_decide; try lia; try done.
    by destruct (MarkedPhraseExists _ _ _).
  - rewrite Nat.min_l, Nat.max_r by lia. cbn [fst snd]. fields.
    repeat split.
    repeat case_bool_decide; try lia; try done.
    by destruct (MarkedPhraseExists _ _ _).
Qed.

Lemma MarkedPhraseExists_spec (lm : WebLanguageModel)
    (readingValue marked : JSString) :
  MarkedPhraseExists lm readingValue marked = true
  ↔ ∃ phrases u,
      WebLanguageModelImpl.unigramsForKey readingValue lm = Returned phrases
      ∧ u ∈ phrases ∧ valueOf u = marked.
Proof.
  unfold MarkedPhraseExists.
  destruct (WebLanguageModelImpl.unigramsForKey readingValue lm)
    as [phrases|].
  - rewrite existsb_exists. split.
    + intros (u & Hin & Hv). exists phrases, u.
      apply bool_decide_eq_true in Hv. by rewrite <- list_elem_of_In in Hin.
    + intros (phrases' & u & [= <-] & Hin & Hv). exists u.
      rewrite <- list_elem_of_In. split; [done|].
      by apply bool_decide_eq_true.
  - split; [done|]. by intros (? & ? & ? & _).
Qed.

(** C4.  The state that [buildMarkingState] returns is acceptable exactly
    when the marked range holds between 2 and 6 readings and no unigram
    that the language model returns for the key of these readings, joined
    by hyphens, has the marked text as its value. *)
Theorem buildMarkingState_acceptable (kh : KH) (beginCursorIndex : nat) :
  let m := buildMarkingState kh beginCursorIndex in
  let readings :=
    slice (builderReadings kh)
          (Nat.min beginCursorIndex (builderCursorIndex kh))
          (Nat.max beginCursorIndex (builderCursorIndex kh)) in
  Marking.reading m = join readings (js "-")
  ∧ (Marking.acceptable m = true
     ↔ 2 ≤ length readings ≤ 6
       ∧ ¬ ∃ phrases u,
             WebLanguageModelImpl.unigramsForKey (Marking.reading m)
               (languageModel_ kh) = Returned phrases
             ∧ u ∈ phrases
             ∧ valueOf u = Marking.markedText m).
Proof.
  intros m readings.
  destruct (buildMarkingState_fields kh beginCursorIndex)
    as (_ & _ & _ & _ & Hreading & Hacc).
  fold m readings in Hreading, Hacc. split; [done|].
  rewrite Hacc, Hreading, !andb_true_iff, !bool_decide_eq_true,
    negb_true_iff, <- not_true_iff_false, MarkedPhraseExists_spec.
  tauto.
Qed.

Hypothesis toArray_join : ∀ v : JSString, join (toArray v) [] = v.

Lemma getComposedString_head_mono (kh : KH) (c1 c2 : nat) :
  c1 ≤ c2 →
  cs_head (getComposedString kh c1)
  = take (length (cs_head (getComposedString kh c1)))
         (cs_head (getComposedString kh c2))
  ∧ length (cs_head (getComposedString kh c1))
    ≤ length (cs_head (getComposedString kh c2)).
Proof using toArray_join.
  intros Hc. rewrite !getComposedString_head.
  destruct (composing_at_mono toArray_join kh c1 c2 Hc) as [-> Hcur].
  set (a := composedCursor (composing_at kh c1)) in *.
  set (b := composedCursor (composing_at kh c2)) in *.
  set (C := composed (composing_at kh c2)) in *.
  rewrite !length_take, take_take. split; [|lia].
  destruct (Nat.le_gt_cases a (length C)) as [Hle|Hgt].
  - f_equal. lia.
  - rewrite !take_ge; [done|lia..].
Qed.

(** The state that [buildMarkingState] returns splits the composing buffer
    and has the shorter head. *)
Lemma buildMarkingState_markingOf (kh : KH) (beginCursorIndex : nat) :
  markingOf kh beginCursorIndex (buildMarkingState kh beginCursorIndex).
Proof using toArray_join.
  destruct (buildMarkingState_fields kh beginCursorIndex)
    as (Hbuf & Hhead & Hmarked & Htail & _ & _).
  split; [done|]. split.
  - destruct (getComposedString_head_mono kh
                (Nat.min beginCursorIndex (builderCursorIndex kh))
                (Nat.max beginCursorIndex (builderCursorIndex kh)))
      as [Hpre _].
    { etrans; [apply Nat.le_min_l|apply Nat.le_max_l]. }
    rewrite Hbuf, Hhead, Hmarked, Htail, getComposedString_whole.
    rewrite (assoc_L (++)), Hpre at 1. rewrite take_drop.
    rewrite getComposedString_whole.
    apply (composing_at_mono toArray_join kh), Nat.le_max_r.
  - rewrite Hhead. unfold shorter.
    destruct (Nat.le_gt_cases beginCursorIndex (builderCursorIndex kh))
      as [Hle|Hgt].
    + rewrite Nat.min_l by done. rewrite bool_decide_eq_true_2; [done|].
      by apply getComposedString_head_mono.
    + rewrite Nat.min_r by lia. case_bool_decide as Hsh; [|done].
      destruct (getComposedString_head_mono kh (builderCursorIndex kh)
                  beginCursorIndex) as [Hpre Hlen]; [lia|].
      rewrite Hpre. apply take_ge. lia.
Qed.

End MarkingFacts.

(** ** Methods of the handler: results and callbacks *)

Section Methods.
Context {R G U : Type}.
Context `{ObjectPrototype} `{Mandarin} `{Numbers} `{Lodash} `{LocalizedStrings}.
Context `{BopomofoReadingBuffer R} `{Gramambular G} `{UserOverrideModel U}.

Local Abbreviation KH := (KeyHandler R G U).
Local Abbreviation Method := (M R G U).
Local Abbreviation Enters := (EmitsOnly (R:=R) (G:=G) (U:=U)).

Lemma Returns_ret {A} (P : A → Prop) (a : A) :
  P a → Returns (R:=R) (G:=G) (U:=U) P (ret a).
Proof. by intros Ha kh. Qed.

Lemma Returns_bind {A B} (P : B → Prop) (m : Method A) (f : A → Method B) :
  (∀ a, Returns P (f a)) → Returns P (bind m f).
Proof. intros Hf kh. apply Hf. Qed.

Lemma EmitsOnly_ret {A} (P : InputState → Prop) (a : A) :
  Enters P (ret a).
Proof. intros kh. constructor. Qed.

Lemma EmitsOnly_get (P : InputState → Prop) :
  Enters P get.
Proof. intros kh. constructor. Qed.

Lemma EmitsOnly_modify (P : InputState → Prop) (f : KH → KH) :
  EmitsOnly P (modify f).
Proof. intros kh. constructor. Qed.

Lemma EmitsOnly_errorCallback (P : InputState → Prop) :
  Enters P errorCallback.
Proof. intros kh. constructor. Qed.

Lemma EmitsOnly_stateCallback (P : InputState → Prop) (s : InputState) :
  P s → Enters P (stateCallback s).
Proof. intros Hs kh. by repeat constructor. Qed.

Lemma statesEntered_app (e1 e2 : list Event) :
  statesEntered (e1 ++ e2) = statesEntered e1 ++ statesEntered e2.
Proof. apply omap_app. Qed.

Lemma EmitsOnly_bind {A B} (P : InputState → Prop) (m : Method A)
    (f : A → Method B) :
  EmitsOnly P m → (∀ a, EmitsOnly P (f a)) → EmitsOnly P (bind m f).
Proof.
  intros Hm Hf kh. unfold bind, events. cbn [snd].
  rewrite statesEntered_app. apply Forall_app. split; [apply Hm|apply Hf].
Qed.

End Methods.

(** One step through the code of a method, for a goal about its results. *)
Ltac returns_step :=
  lazymatch goal with
  | |- Returns _ (ret _) => apply Returns_ret; try done
  | |- Returns _ (bind _ _) => apply Returns_bind; intros
  | |- Returns _ (match ?x with _ => _ end) => destruct x eqn:?
  | |- Returns _ _ => progress (lazy beta zeta)
  end.

(** One step through the code of a method, for a goal about the states it
    passes to the state callback. *)
Ltac emits_step :=
  lazymatch goal with
  | |- EmitsOnly _ (ret _) => apply EmitsOnly_ret
  | |- EmitsOnly _ get => apply EmitsOnly_get
  | |- EmitsOnly _ (modify _) => apply EmitsOnly_modify
  | |- EmitsOnly _ errorCallback => apply EmitsOnly_errorCallback
  | |- EmitsOnly _ (stateCallback _) =>
      apply EmitsOnly_stateCallback; try by constructor
  | |- EmitsOnly _ (bind _ _) => apply EmitsOnly_bind; [|intros]
  | |- EmitsOnly _ (match ?x with _ => _ end) => destruct x
  | |- EmitsOnly _ _ => progress (lazy beta zeta)
  end.

Section Handle.
Context {R G U : Type}.
Context `{ObjectPrototype} `{Mandarin} `{Numbers} `{Lodash} `{LocalizedStrings}.
Context `{BopomofoReadingBuffer R} `{Gramambular G} `{UserOverrideModel U}.

Local Abbreviation KH := (KeyHandler R G U).
Local Abbreviation Method := (M R G U).
Local Abbreviation ReturnsTrue :=
  (Returns (R:=R) (G:=G) (U:=U) (λ b : bool, b = true)).
Local Abbreviation Enters := (EmitsOnly (R:=R) (G:=G) (U:=U)).
Local Abbreviation EntersBuiltStates :=
  (EmitsOnly (R:=R) (G:=G) (U:=U) (BuiltState (R:=R) (G:=G) (U:=U))).

(** *** Which calls consume the key *)

Lemma handleTabKey_returns (k : Key.t) (state : InputState) (now : Z) :
  ReturnsTrue (handleTabKey k state now).
Proof. unfold handleTabKey. repeat returns_step. Qed.





Lemma bind_get {A} (f : KH → M R G U A) (kh : KH) :
  bind get f kh = f kh kh.
Proof. unfold bind, get. cbn. by destruct (f kh kh) as [[? ?] ?]. Qed.

Lemma bind_silent {A B} (m : M R G U A) (f : A → M R G U B) (kh : KH)
    (a : A) :
  m kh = (a, kh, []) → bind m f kh = f a kh.
Proof.
  intros Hm. unfold bind. rewrite Hm. cbn.
  by destruct (f a kh) as [[? ?] ?].
Qed.

Lemma handlePunctuation_unknown (kh : KH) (punctuationUnigramKey : JSString) :
  WebLanguageModelImpl.hasUnigramsForKey punctuationUnigramKey
    (languageModel_ kh) = false →
  handlePunctuation punctuationUnigramKey kh = (false, kh, []).
Proof.
  intros Hlm. unfold handlePunctuation. rewrite bind_get.
  by rewrite Hlm.
Qed.




(** *** Which states are entered *)

Lemma BuiltState_Inputting (kh : KH) :
  BuiltState (R:=R) (G:=G) (U:=U) (InputtingState (buildInputtingState kh)).
Proof. exact (built_Inputting kh []). Qed.

Lemma emitInputting_emits :
  EntersBuiltStates emitInputting.
Proof.
  unfold emitInputting. repeat emits_step.
Qed.

Lemma walk_emits (P : InputState → Prop) :
  Enters P walk.
Proof. apply EmitsOnly_modify. Qed.

Lemma popEvictedTextAndWalk_emits (P : InputState → Prop) :
  Enters P popEvictedTextAndWalk.
Proof.
  unfold popEvictedTextAndWalk.
  repeat first [ apply walk_emits | emits_step ].
Qed.

Lemma fixNodesIfRequired_emits (P : InputState → Prop) :
  Enters P fixNodesIfRequired.
Proof. unfold fixNodesIfRequired. repeat emits_step. Qed.

Lemma pinNode_emits (P : InputState → Prop) (now : Z) (candidate : JSString)
    (useMoveCursorAfterSelectionSetting : bool) :
  Enters P
    (pinNode now candidate useMoveCursorAfterSelectionSetting).
Proof. unfold pinNode. repeat first [ apply walk_emits | emits_step ]. Qed.

(** The steps through the code of [handle] and of the methods it calls. *)
Local Ltac handler_emits :=
  repeat
    lazymatch goal with
    | |- EmitsOnly _ emitInputting => apply emitInputting_emits
    | |- EmitsOnly _ walk => apply walk_emits
    | |- EmitsOnly _ popEvictedTextAndWalk => apply popEvictedTextAndWalk_emits
    | |- EmitsOnly _ fixNodesIfRequired => apply fixNodesIfRequired_emits
    | |- EmitsOnly _ (pinNode _ _ _) => apply pinNode_emits
    | |- BuiltState _ => apply BuiltState_Inputting
    | |- _ => emits_step
    end.

Lemma handleTabKey_emits (k : Key.t) (state : InputState) (now : Z) :
  EntersBuiltStates (handleTabKey k state now).
Proof. unfold handleTabKey. handler_emits. Qed.

Lemma handleCursorKeys_emits (k : Key.t) (state : InputState) :
  EntersBuiltStates (handleCursorKeys k state).
Proof. unfold handleCursorKeys. handler_emits. Qed.

Lemma handleDeleteKeys_emits (k : Key.t) (state : InputState) :
  EntersBuiltStates (handleDeleteKeys k state).
Proof. unfold handleDeleteKeys. handler_emits. Qed.

Lemma handlePunctuation_emits (punctuationUnigramKey : JSString) :
  EntersBuiltStates
    (handlePunctuation punctuationUnigramKey).
Proof. unfold handlePunctuation. handler_emits. Qed.

Lemma handleOtherKeys_emits (k : Key.t) (state : InputState) (now : Z) :
  EntersBuiltStates (handleOtherKeys k state now).
Proof.
  unfold handleOtherKeys.
  repeat
    lazymatch goal with
    | |- EmitsOnly _ (handleTabKey _ _ _) => apply handleTabKey_emits
    | |- EmitsOnly _ (handleCursorKeys _ _) => apply handleCursorKeys_emits
    | |- EmitsOnly _ (handleDeleteKeys _ _) => apply handleDeleteKeys_emits
    | |- EmitsOnly _ (handlePunctuation _) => apply handlePunctuation_emits
    | |- _ => progress handler_emits
    end.
Qed.

Lemma handleComposition_emits (k : Key.t) (state : InputState) (now : Z)
    (keyConsumedByReading : bool) :
  EntersBuiltStates
    (handleComposition k state now keyConsumedByReading).
Proof.
  unfold handleComposition.
  repeat
    lazymatch goal with
    | |- EmitsOnly _ (handleOtherKeys _ _ _) => apply handleOtherKeys_emits
    | |- _ => progress handler_emits
    end.
Qed.

(** Every state that [handle] enters is one that the handler constructs
    with its own builders. *)
Lemma handle_emits (k : Key.t) (state : InputState) (now : Z) :
  EntersBuiltStates (handle k state now).
Proof.
  unfold handle.
  repeat
    lazymatch goal with
    | |- EmitsOnly _ (handleComposition _ _ _ _) =>
        apply handleComposition_emits
    | |- _ => progress handler_emits
    end.
Qed.

Lemma handleAll_emits (P : InputState → Prop)
    (calls : list (Key.t * InputState * Z)) (kh : KH) :
  (∀ s, BuiltState (R:=R) (G:=G) (U:=U) s → P s) →
  Forall (λ r, Forall P (statesEntered r.2)) (handleAll calls kh).1.
Proof.
  intros HP. revert kh.
  induction calls as [|[[k state] now] calls IH]; intros kh; [constructor|].
  cbn [handleAll fst snd]. constructor; [|apply IH].
  cbn [snd]. eapply Forall_impl; [apply (handle_emits k state now kh)|done].
Qed.

(** *** The cursor of an [Inputting] state *)

Lemma buildInputtingState_cursor (kh : KH) (evictedText : JSString) :
  cursorWithinBuffer
    (InputtingState
       (Inputting.setEvictedText evictedText (buildInputtingState kh))).
Proof.
  unfold cursorWithinBuffer, buildInputtingState, Inputting.setEvictedText,
    Inputting.new.
  cbn [Inputting.base NotEmpty.cursorIndex NotEmpty.composingBuffer].
  generalize (cs_head (getComposedString kh (builderCursorIndex kh))),
    (cs_tail (getComposedString kh (builderCursorIndex kh))),
    (readingComposedString (reading_ kh)).
  intros head tail reading.
  assert (length head + length reading ≤ length (head ++ reading ++ tail))
    as Hle by (rewrite !length_app; lia).
  split; [lia|]. intros Hbmp.
  by rewrite (countCodePoints_without_high_surrogate _ Hbmp).
Qed.

(** C8, as the code has it.  In every sequence of calls of [handle], the
    cursor index of every [Inputting] state entered is at least 0 and at
    most the length of the composing buffer in UTF-16 code units, which is
    the number of its code points when the buffer has no high
    surrogate. *)
Theorem handle_cursor_within_buffer
    (calls : list (Key.t * InputState * Z)) (kh : KH) :
  Forall (λ r, Forall cursorWithinBuffer (statesEntered r.2))
         (handleAll calls kh).1.
Proof.
  apply handleAll_emits. intros s Hs.
  destruct Hs; try exact I. apply buildInputtingState_cursor.
Qed.

(** *** The split of a [Marking] state *)

Hypothesis toArray_join : ∀ v : JSString, join (toArray v) [] = v.


End Handle.

(** ** Eviction *)

Section Eviction.
Context {G : Type} `{Gramambular G}.

Lemma removeHeadReading_iter (lm : WebLanguageModel) (n : nat)
    (b : BlockReadingBuilder.t G) :
  BlockReadingBuilder.readings
    (Nat.iter n (BlockReadingBuilder.removeHeadReading lm) b)
  = drop n (BlockReadingBuilder.readings b).
Proof.
  induction n as [|n IH]; [done|].
  cbn [Nat.iter nat_rect BlockReadingBuilder.removeHeadReading
       BlockReadingBuilder.readings].
  change (Nat.iter n (BlockReadingBuilder.removeHeadReading lm) b)
    with (nat_rect (λ _, BlockReadingBuilder.t G) b
            (λ _, BlockReadingBuilder.removeHeadReading lm) n) in IH.
  rewrite IH, drop_drop. f_equal. lia.
Qed.

Lemma removeHeadReadings_readings (lm : WebLanguageModel) (count : nat)
    (b : BlockReadingBuilder.t G) :
  count ≤ BlockReadingBuilder.length b →
  BlockReadingBuilder.readings
    (BlockReadingBuilder.removeHeadReadings lm count b)
  = drop count (BlockReadingBuilder.readings b).
Proof.
  intros Hle. unfold BlockReadingBuilder.removeHeadReadings.
  rewrite bool_decide_eq_false_2 by lia. apply removeHeadReading_iter.
Qed.

Lemma insertReadingAtCursor_width (lm : WebLanguageModel) (r : JSString)
    (b : BlockReadingBuilder.t G) :
  BlockReadingBuilder.width (BlockReadingBuilder.insertReadingAtCursor lm r b)
  = BlockReadingBuilder.width b + 1.
Proof.
  unfold BlockReadingBuilder.width, BlockReadingBuilder.insertReadingAtCursor.
  cbn [BlockReadingBuilder.readings].
  pose proof (f_equal length
                (take_drop (BlockReadingBuilder.cursorIndex b)
                           (BlockReadingBuilder.readings b))) as Hlen.
  rewrite length_app in Hlen. rewrite length_app, length_cons. lia.
Qed.

Lemma removeHeadReading_iter_cursor (lm : WebLanguageModel) (n : nat)
    (b : BlockReadingBuilder.t G) :
  BlockReadingBuilder.cursorIndex
    (Nat.iter n (BlockReadingBuilder.removeHeadReading lm) b)
  = BlockReadingBuilder.cursorIndex b - n.
Proof.
  induction n as [|n IH]; [cbn; lia|].
  cbn [Nat.iter nat_rect BlockReadingBuilder.removeHeadReading
       BlockReadingBuilder.cursorIndex].
  change (nat_rect (λ _, BlockReadingBuilder.t G) b
            (λ _, BlockReadingBuilder.removeHeadReading lm) n)
    with (Nat.iter n (BlockReadingBuilder.removeHeadReading lm) b).
  rewrite IH. lia.
Qed.

Lemma removeHeadReadings_cursor (lm : WebLanguageModel) (count : nat)
    (b : BlockReadingBuilder.t G) :
  count ≤ BlockReadingBuilder.length b →
  BlockReadingBuilder.cursorIndex
    (BlockReadingBuilder.removeHeadReadings lm count b)
  = BlockReadingBuilder.cursorIndex b - count.
Proof.
  intros Hle. unfold BlockReadingBuilder.removeHeadReadings.
  rewrite bool_decide_eq_false_2 by lia. apply removeHeadReading_iter_cursor.
Qed.

End Eviction.

Section EvictionInHandler.
Context {R G U : Type}.
Context `{ObjectPrototype} `{Mandarin} `{Numbers} `{Lodash} `{LocalizedStrings}.
Context `{BopomofoReadingBuffer R} `{Gramambular G} `{UserOverrideModel U}.

Local Abbreviation KH := (KeyHandler R G U).

(** What [popEvictedTextAndWalk] does when the grid is wider than the
    composing buffer size and there is a walk. *)
Lemma popEvictedTextAndWalk_evicts (kh : KH) (anchor : NodeAnchor)
    (rest : list NodeAnchor) :
  (composingBufferSize kh < Z.of_nat (gridWidth kh))%Z →
  walkedNodes_ kh = anchor :: rest →
  popEvictedTextAndWalk kh
  = let evicted :=
      withBuilder (BlockReadingBuilder.removeHeadReadings
                     (languageModel_ kh) (spanningLength anchor)) kh in
    (evictedTextOf anchor,
     withWalkedNodes (walkGrid (builderGrid evicted)) evicted, []).
Proof.
  intros Hwide Hwalk. unfold popEvictedTextAndWalk, bind, get.
  cbn [fst snd]. rewrite Hwalk.
  rewrite bool_decide_eq_true_2 by done. cbn [length andb].
  rewrite bool_decide_eq_true_2 by done. reflexivity.
Qed.

(** A reading is inserted into a grid that is as wide as the composing
    buffer size, behind the first walked node: the readings of that node
    leave the head of the grid and the new reading stays. *)
Lemma insert_then_evict_step (kh : KH) (reading : JSString)
    (anchor : NodeAnchor) (rest : list NodeAnchor) :
  Z.of_nat (gridWidth kh) = composingBufferSize kh →
  walkedNodes_ kh = anchor :: rest →
  spanningLength anchor ≤ builderCursorIndex kh ≤ gridWidth kh →
  let r := popEvictedTextAndWalk (insertReadingAtCursor reading kh) in
  result r = evictedTextOf anchor
  ∧ builderReadings (after r)
    = drop (spanningLength anchor)
           (take (builderCursorIndex kh) (builderReadings kh))
      ++ reading :: drop (builderCursorIndex kh) (builderReadings kh)
  ∧ builderCursorIndex (after r)
    = builderCursorIndex kh + 1 - spanningLength anchor
  ∧ gridWidth (after r) = gridWidth kh + 1 - spanningLength anchor.
Proof.
  intros Hfull Hwalk [Hspan Hcursor]. cbv zeta.
  assert (gridWidth (insertReadingAtCursor reading kh) = gridWidth kh + 1)
    as Hwidth by apply insertReadingAtCursor_width.
  rewrite (popEvictedTextAndWalk_evicts _ anchor rest);
    [|change (composingBufferSize (insertReadingAtCursor reading kh))
        with (composingBufferSize kh); lia|done].
  cbv zeta. unfold after, result. cbn [fst snd].
  split; [done|].
  assert (spanningLength anchor
          ≤ BlockReadingBuilder.length
              (builder_ (insertReadingAtCursor reading kh))) as Hle.
  { change (BlockReadingBuilder.length
              (builder_ (insertReadingAtCursor reading kh)))
      with (gridWidth (insertReadingAtCursor reading kh)). lia. }
  assert (builderReadings
            (withBuilder (BlockReadingBuilder.removeHeadReadings
                            (languageModel_
                               (insertReadingAtCursor reading kh))
                            (spanningLength anchor))
                         (insertReadingAtCursor reading kh))
          = drop (spanningLength anchor)
                 (take (builderCursorIndex kh) (builderReadings kh))
            ++ reading :: drop (builderCursorIndex kh) (builderReadings kh))
    as Hreadings.
  { unfold builderReadings at 1. cbn [builder_ withBuilder].
    rewrite removeHeadReadings_readings by done.
    cbn [insertReadingAtCursor withBuilder builder_
         BlockReadingBuilder.insertReadingAtCursor
         BlockReadingBuilder.readings].
    apply drop_app_le. rewrite length_take.
    unfold gridWidth, BlockReadingBuilder.width, builderCursorIndex,
      builderReadings in *. lia. }
  split; [exact Hreadings|]. split.
  - unfold builderCursorIndex at 1. cbn [builder_ withBuilder withWalkedNodes].
    rewrite removeHeadReadings_cursor by done. reflexivity.
  - change (gridWidth (withWalkedNodes ?n ?x)) with (gridWidth x).
    unfold gridWidth at 1, BlockReadingBuilder.width.
    change (BlockReadingBuilder.readings (builder_ ?x))
      with (builderReadings x).
    rewrite Hreadings, length_app, length_drop, length_take. cbn [length].
    rewrite length_drop.
    unfold gridWidth, BlockReadingBuilder.width, builderCursorIndex,
      builderReadings in *. lia.
Qed.

Lemma popEvictedTextAndWalk_keeps (kh : KH) :
  let r := popEvictedTextAndWalk kh in
  traditionalMode_ (after r) = traditionalMode_ kh
  ∧ reading_ (after r) = reading_ kh
  ∧ events r = [].
Proof.
  unfold popEvictedTextAndWalk, bind, get, after, events. cbn [fst snd].
  destruct (bool_decide _ && bool_decide _); [|done].
  by destruct (walkedNodes_ kh !! 0).
Qed.

Lemma bind_modify {A} (f : KH → KH) (g : unit → M R G U A) (kh : KH) :
  bind (modify f) g kh = g tt (f kh).
Proof. unfold bind, modify. cbn. by destruct (g tt (f kh)) as [[? ?] ?]. Qed.

Lemma bind_run {A B} (m : M R G U A) (g : A → M R G U B) (kh : KH) :
  bind m g kh
  = (result (g (result (m kh)) (after (m kh))),
     after (g (result (m kh)) (after (m kh))),
     events (m kh) ++ events (g (result (m kh)) (after (m kh)))).
Proof. reflexivity. Qed.

Lemma bind_stateCallback {A} (s : InputState) (g : unit → M R G U A)
    (kh : KH) :
  bind (stateCallback s) g kh
  = (result (g tt kh), after (g tt kh), StateEntered s :: events (g tt kh)).
Proof. reflexivity. Qed.

(** A punctuation key that the language model knows inserts its reading,
    evicts, and enters the [Inputting] state that carries the evicted
    text. *)
Lemma handlePunctuation_inserts (kh : KH) (punctuationUnigramKey : JSString) :
  WebLanguageModelImpl.hasUnigramsForKey punctuationUnigramKey
    (languageModel_ kh) = true →
  readingIsEmpty (reading_ kh) = true →
  let r := popEvictedTextAndWalk
             (insertReadingAtCursor punctuationUnigramKey kh) in
  ∃ more,
    handlePunctuation punctuationUnigramKey kh
    = (true, (if traditionalMode_ kh then reset (after r) else after r),
       StateEntered
         (InputtingState
            (Inputting.setEvictedText (result r)
               (buildInputtingState (after r)))) :: more).
Proof.
  intros Hlm Hreading.
  destruct (popEvictedTextAndWalk_keeps
              (insertReadingAtCursor punctuationUnigramKey kh))
    as (Hm & Hr & Hev).
  cbv zeta in *.
  unfold handlePunctuation. rewrite bind_get, Hlm, Hreading. cbn [negb].
  rewrite bind_modify, bind_run, Hev, bind_get, bind_stateCallback.
  rewrite Hm, Hr. cbn [traditionalMode_ reading_ withBuilder
                       insertReadingAtCursor].
  rewrite Hreading, andb_true_r.
  destruct (traditionalMode_ kh).
  - rewrite bind_run, bind_modify.
    destruct (ChoosingCandidate.candidates _) as [|text [|? ?]];
      eexists; reflexivity.
  - eexists. reflexivity.
Qed.

Lemma bind_quiet {A B} (m : M R G U A) (g : A → M R G U B) (kh kh' : KH)
    (a : A) :
  m kh = (a, kh', []) → bind m g kh = g a kh'.
Proof.
  intros Hm. unfold bind. rewrite Hm. cbn.
  by destruct (g a kh') as [[? ?] ?].
Qed.

Lemma fixNodesIfRequired_grid (kh : KH) :
  ∃ kh', fixNodesIfRequired kh = (tt, kh', [])
         ∧ builderReadings kh' = builderReadings kh
         ∧ builderCursorIndex kh' = builderCursorIndex kh
         ∧ traditionalMode_ kh' = traditionalMode_ kh.
Proof.
  unfold fixNodesIfRequired. rewrite bind_get.
  destruct (bool_decide _); eexists; (split; [reflexivity|done]).
Qed.

(** The composition of a reading that the language model knows: the
    syllable is inserted, the grid evicts, and the [Inputting] state that
    is entered carries the evicted text.  The handler of that state has
    the readings and the cursor that the eviction left. *)
Lemma handleComposition_inserts (k : Key.t) (state : InputState) (now : Z)
    (keyConsumedByReading : bool) (kh : KH) :
  (hasToneMarker (reading_ kh) && negb (hasToneMarkerOnly (reading_ kh)))
  || (negb (readingIsEmpty (reading_ kh))
      && bool_decide (Key.name k = SPACE)) = true →
  WebLanguageModelImpl.hasUnigramsForKey
    (syllableComposedString (reading_ kh)) (languageModel_ kh) = true →
  let r := popEvictedTextAndWalk
             (insertReadingAtCursor (syllableComposedString (reading_ kh))
                (withReading readingClear kh)) in
  ∃ kh' more,
    handleComposition k state now keyConsumedByReading kh
    = (true, (if traditionalMode_ kh then reset kh' else kh'),
       StateEntered
         (InputtingState
            (Inputting.setEvictedText (result r) (buildInputtingState kh')))
       :: more)
    ∧ builderReadings kh' = builderReadings (after r)
    ∧ builderCursorIndex kh' = builderCursorIndex (after r).
Proof.
  intros Hcompose Hlm.
  destruct (popEvictedTextAndWalk_keeps
              (insertReadingAtCursor (syllableComposedString (reading_ kh))
                 (withReading readingClear kh)))
    as (Hm & Hr & Hev).
  cbv zeta in *.
  unfold handleComposition. rewrite bind_get, Hcompose, bind_modify, Hlm.
  cbn [negb]. rewrite bind_modify, bind_run, Hev, bind_get.
  rewrite Hm. cbn [traditionalMode_ withBuilder withReading
                   insertReadingAtCursor] in Hm |- *.
  set (r := popEvictedTextAndWalk _) in *.
  generalize dependent (after r). intros kh1 Hm _.
  generalize (result r). intros evictedText. clear r Hev.
  assert (∃ kh2,
            (if negb (traditionalMode_ kh) then
               match suggest (userOverrideModel_ kh1) (walkedNodes_ kh1)
                             (builderCursorIndex kh1) now with
               | Some overrideValue =>
                   if bool_decide (length overrideValue ≠ 0) then
                     modify
                       (withGrid
                          (overrideNodeScoreForSelectedCandidate
                             (actualCandidateCursorIndex kh1) overrideValue
                             (FindHighestScore
                                (nodesCrossingOrEndingAt (builderGrid kh1)
                                   (actualCandidateCursorIndex kh1))
                                kEpsilon)))
                   else ret tt
               | None => ret tt
               end
             else ret tt) kh1 = (tt, kh2, [])
            ∧ builderReadings kh2 = builderReadings kh1
            ∧ builderCursorIndex kh2 = builderCursorIndex kh1
            ∧ traditionalMode_ kh2 = traditionalMode_ kh)
    as (kh2 & Hoverride & Hreadings2 & Hcursor2 & Hmode2).
  { destruct (traditionalMode_ kh); cbn [negb];
      [eexists; split; [reflexivity|done]|].
    destruct (suggest _ _ _ _) as [overrideValue|];
      [destruct (bool_decide (length overrideValue ≠ 0))|];
      eexists; (split; [reflexivity|done]). }
  rewrite (bind_quiet _ _ _ _ _ Hoverride).
  destruct (fixNodesIfRequired_grid kh2)
    as (kh3 & Hfix & Hreadings3 & Hcursor3 & Hmode3).
  rewrite (bind_quiet _ _ _ _ _ Hfix).
  rewrite bind_get, bind_stateCallback, Hmode3, Hmode2.
  exists kh3. destruct (traditionalMode_ kh).
  - rewrite bind_run, bind_modify.
    destruct (ChoosingCandidate.candidates _) as [|text [|? ?]];
      eexists; (split; [reflexivity|split; congruence]).
  - eexists. split; [reflexivity|split; congruence].
Qed.

Lemma instanceofNotEmpty_asNotEmpty (state : InputState) :
  instanceofNotEmpty state = false → asNotEmpty state = None.
Proof. unfold instanceofNotEmpty. by destruct (asNotEmpty state). Qed.

(** A key that [handleOtherKeys] inserts a reading for: the reading is
    inserted, the grid evicts, and the [Inputting] state that is entered
    first carries the evicted text. *)
Lemma handleOtherKeys_inserts (k : Key.t) (state : InputState) (now : Z)
    (kh : KH) (reading : JSString) :
  insertedMark kh k state = Some reading →
  let r := popEvictedTextAndWalk (insertReadingAtCursor reading kh) in
  ∃ kh'' more,
    handleOtherKeys k state now kh
    = (true, kh'',
       StateEntered
         (InputtingState
            (Inputting.setEvictedText (result r)
               (buildInputtingState (after r)))) :: more)
    ∧ (kh'' = after r ∨ kh'' = reset (after r))
    ∧ (traditionalMode_ kh = false → kh'' = after r).
Proof.
  intros Hins. cbv zeta.
  assert (∀ key,
            WebLanguageModelImpl.hasUnigramsForKey key (languageModel_ kh)
            = true →
            readingIsEmpty (reading_ kh) = true →
            ∀ f : bool → M R G U bool,
              f true = ret true →
              let r := popEvictedTextAndWalk (insertReadingAtCursor key kh) in
              ∃ kh'' more,
                bind (handlePunctuation key) f kh
                = (true, kh'',
                   StateEntered
                     (InputtingState
                        (Inputting.setEvictedText (result r)
                           (buildInputtingState (after r)))) :: more)
                ∧ (kh'' = after r ∨ kh'' = reset (after r))
                ∧ (traditionalMode_ kh = false → kh'' = after r))
    as Hpunctuation.
  { intros key Hknown Hempty f Hf. cbv zeta.
    destruct (handlePunctuation_inserts kh key Hknown Hempty)
      as (more & Hp).
    rewrite bind_run, Hp. cbn [result after events fst snd]. rewrite Hf.
    cbn [ret fst snd].
    eexists _, _. split; [reflexivity|].
    destruct (traditionalMode_ kh); split; auto; done. }
  unfold insertedMark in Hins. unfold handleOtherKeys. rewrite bind_get.
  destruct (bool_decide (Key.name k = SPACE) && Key.shiftPressed k).
  { destruct (putLowercaseLettersToComposingBuffer_ kh); [|done].
    injection Hins as <-.
    destruct (popEvictedTextAndWalk_keeps (insertReadingAtCursor (js " ") kh))
      as (_ & _ & Hev).
    cbv zeta in Hev. unfold events in Hev.
    unfold bind, modify, get, stateCallback, ret, result, after.
    cbn [fst snd]. rewrite Hev.
    eexists _, _. split; [reflexivity|]. split; auto. }
  set (cond := (bool_decide (Key.name k = SPACE)
                || bool_decide (Key.name k = DOWN))
               && readingIsEmpty (reading_ kh)) in *.
  assert ((if cond then asNotEmpty state else None) = None
          ∧ cond && instanceofNotEmpty state = false) as [Hnone Hnot].
  { destruct cond; [|done]. cbn [andb] in Hins |- *.
    destruct (instanceofNotEmpty state) eqn:Hst; [done|].
    split; [by apply instanceofNotEmpty_asNotEmpty|done]. }
  rewrite Hnone. rewrite Hnot in Hins. clear Hnone Hnot cond.
  destruct (bool_decide (Key.name k ∈ [ESC; TAB; RETURN])) eqn:Hname;
    [done|].
  apply bool_decide_eq_false in Hname.
  assert (Key.name k ≠ ESC ∧ Key.name k ≠ TAB ∧ Key.name k ≠ RETURN)
    as (Hesc & Htab & Hret).
  { repeat split; intros Heq; apply Hname; rewrite Heq;
      repeat constructor. }
  rewrite (bool_decide_eq_false_2 _ Hesc), (bool_decide_eq_false_2 _ Htab),
    (bool_decide_eq_false_2 _ Hret).
  cbn [orb] in Hins.
  destruct (Key.isCursorKeys k); [done|].
  destruct (Key.isDeleteKeys k); [done|]. cbn [orb] in Hins.
  destruct (readingIsEmpty (reading_ kh)) eqn:Hempty; [|done].
  cbn [negb] in Hins.
  destruct (bool_decide (Key.ascii k = kPunctuationListKey)
            && WebLanguageModelImpl.hasUnigramsForKey
                 kPunctuationListUnigramKey (languageModel_ kh)).
  { injection Hins as <-.
    destruct (popEvictedTextAndWalk_keeps
                (insertReadingAtCursor kPunctuationListUnigramKey kh))
      as (_ & _ & Hev).
    cbv zeta in Hev. unfold events in Hev.
    unfold bind, modify, get, stateCallback, ret, result, after.
    cbn [fst snd]. rewrite Hev.
    eexists _, _. split; [reflexivity|]. split; auto. }
  destruct (bool_decide_reflect (Key.ascii k = [])) as [|Hascii]; [done|].
  rewrite (bool_decide_eq_true_2 (Key.ascii k ≠ [])) by done.
  destruct (WebLanguageModelImpl.hasUnigramsForKey
              (kPunctuationKeyPrefix
               ++ GetKeyboardLayoutName (keyboardLayout (reading_ kh))
               ++ js "_" ++ Key.ascii k) (languageModel_ kh)) eqn:Hlayout.
  { injection Hins as <-. by apply Hpunctuation. }
  rewrite (bind_silent _ _ kh false) by (by apply handlePunctuation_unknown).
  destruct (WebLanguageModelImpl.hasUnigramsForKey
              (kPunctuationKeyPrefix ++ Key.ascii k) (languageModel_ kh))
    eqn:Hgeneric.
  { injection Hins as <-. by apply Hpunctuation. }
  rewrite (bind_silent _ _ kh false) by (by apply handlePunctuation_unknown).
  destruct (Key.ascii k) as [|c [|? ?]]; [done| |done].
  destruct (N.leb 65 c && N.leb c 90)%N; [|done].
  destruct (putLowercaseLettersToComposingBuffer_ kh); [|done].
  cbn [andb] in Hins.
  destruct (WebLanguageModelImpl.hasUnigramsForKey (kLetterPrefix ++ [c])
              (languageModel_ kh)) eqn:Hletter; [|done].
  injection Hins as <-.
  by apply (Hpunctuation _ Hletter eq_refl (λ _, ret true)).
Qed.

(** What [handle] does for a key that makes it insert a reading: the
    reading is inserted into the grid, with at most the reading buffer
    changed before, the grid evicts, and the first state entered is the
    [Inputting] state with the evicted text. *)
Lemma handle_inserts (k : Key.t) (state : InputState) (now : Z) (kh : KH)
    (reading : JSString) :
  insertedReading kh k state = Some reading →
  ∃ (kh0 kh' kh'' : KH) more,
    builder_ kh0 = builder_ kh
    ∧ walkedNodes_ kh0 = walkedNodes_ kh
    ∧ composingBufferSize kh0 = composingBufferSize kh
    ∧ handle k state now kh
      = (true, kh'',
         StateEntered
           (InputtingState
              (Inputting.setEvictedText
                 (result (popEvictedTextAndWalk
                            (insertReadingAtCursor reading kh0)))
                 (buildInputtingState kh'))) :: more)
    ∧ builderReadings kh'
      = builderReadings
          (after (popEvictedTextAndWalk (insertReadingAtCursor reading kh0)))
    ∧ builderCursorIndex kh'
      = builderCursorIndex
          (after (popEvictedTextAndWalk (insertReadingAtCursor reading kh0)))
    ∧ (kh'' = kh' ∨ kh'' = reset kh')
    ∧ (traditionalMode_ kh = false → kh'' = kh').
Proof.
  intros Hins. unfold insertedReading, readingWith in Hins. unfold handle.
  change (bool_decide (Key.ascii k = js "Shift")
          || bool_decide (Key.ascii k = js "Meta")
          || bool_decide (Key.ascii k = js "Alt"))
    with (isModifierName (Key.ascii k)).
  destruct (isModifierName (Key.ascii k)); [done|]. rewrite bind_get.
  destruct (isValidKey (reading_ kh) (Key.ascii k)).
  - cbn [andb] in Hins. rewrite bind_modify, bind_get.
    cbn [reading_ withReading].
    destruct (hasToneMarker (combineKey (Key.ascii k) (reading_ kh)))
      eqn:Htone; [|done].
    cbn [negb] in Hins |- *.
    destruct (_ || _) eqn:Hcompose in Hins; [|done].
    destruct (WebLanguageModelImpl.hasUnigramsForKey _ _) eqn:Hknown in Hins;
      [|done].
    injection Hins as <-.
    destruct (handleComposition_inserts k state now true
                (withReading (combineKey (Key.ascii k)) kh))
      as (kh' & more & Heq & Hreadings & Hcursor);
      [cbn [reading_ withReading]; by rewrite Htone|done|].
    eexists _, kh', _, more.
    split; [|split; [|split; [|split; [exact Heq|]]]]; [done..|].
    split; [done|]. split; [done|].
    cbn [traditionalMode_ withReading].
    destruct (traditionalMode_ kh); split; auto; done.
  - cbn [andb] in Hins.
    destruct (_ || _) eqn:Hcompose in Hins.
    + destruct (WebLanguageModelImpl.hasUnigramsForKey _ _) eqn:Hknown
        in Hins; [|done].
      injection Hins as <-.
      destruct (handleComposition_inserts k state now false kh)
        as (kh' & more & Heq & Hreadings & Hcursor); [done..|].
      eexists _, kh', _, more.
      split; [|split; [|split; [|split; [exact Heq|]]]]; [done..|].
      split; [done|]. split; [done|].
      destruct (traditionalMode_ kh); split; auto; done.
    + unfold handleComposition. rewrite bind_get, Hcompose.
      destruct (handleOtherKeys_inserts k state now kh reading Hins)
        as (kh'' & more & Heq & Hafter & Hmode).
      eexists kh, _, kh'', more.
      split; [|split; [|split; [|split; [exact Heq|]]]]; done.
Qed.

(** C1, as the code has it.  [handle] is given a key that makes it insert
    a reading while the grid is as wide as the composing buffer size, W,
    and the first walked node, of L readings, lies before the cursor.  It
    returns true, and the first state it enters is an [Inputting] state
    whose evicted text is the current value of that node, not empty exactly
    when the node has a value that is not empty.  The handler at that
    moment has the readings of before without the first L, which are the
    readings of the node, and with the new reading at the cursor: the width
    is W + 1 - L, which is the composing buffer size again exactly when
    L = 1 and never more than it when L is at least 1.  That handler is the
    one that [handle] leaves, unless the traditional mode resets it. *)
Theorem handle_inserts_then_evicts (k : Key.t) (state : InputState)
    (now : Z) (kh : KH) (reading : JSString) (anchor : NodeAnchor)
    (rest : list NodeAnchor) :
  insertedReading kh k state = Some reading →
  Z.of_nat (gridWidth kh) = composingBufferSize kh →
  walkedNodes_ kh = anchor :: rest →
  spanningLength anchor ≤ builderCursorIndex kh ≤ gridWidth kh →
  let r := handle k state now kh in
  result r = true
  ∧ ∃ (kh' : KH) more,
      events r
      = StateEntered
          (InputtingState
             (Inputting.setEvictedText (evictedTextOf anchor)
                (buildInputtingState kh'))) :: more
      ∧ builderReadings kh'
        = drop (spanningLength anchor)
               (take (builderCursorIndex kh) (builderReadings kh))
          ++ reading :: drop (builderCursorIndex kh) (builderReadings kh)
      ∧ gridWidth kh' = gridWidth kh + 1 - spanningLength anchor
      ∧ (1 ≤ spanningLength anchor →
         (Z.of_nat (gridWidth kh') ≤ composingBufferSize kh)%Z)
      ∧ (gridWidth kh' = gridWidth kh ↔ spanningLength anchor = 1)
      ∧ (evictedTextOf anchor ≠ []
         ↔ ∃ nd, node anchor = Some nd ∧ value (currentKeyValue nd) ≠ [])
      ∧ (after r = kh' ∨ after r = reset kh')
      ∧ (traditionalMode_ kh = false → after r = kh').
Proof.
  intros Hins Hfull Hwalk Hcursor. cbv zeta.
  destruct (handle_inserts k state now kh reading Hins)
    as (kh0 & kh' & kh'' & more & Hbuilder & Hwalked & Hsize & Heq
        & Hreadings & _ & Hafter & Hmode).
  assert (gridWidth kh0 = gridWidth kh
          ∧ builderCursorIndex kh0 = builderCursorIndex kh
          ∧ builderReadings kh0 = builderReadings kh) as (Hw & Hc & Hrs).
  { unfold gridWidth, builderCursorIndex, builderReadings.
    by rewrite Hbuilder. }
  destruct (insert_then_evict_step kh0 reading anchor rest)
    as (Hresult & Hevicted & _ & Hwidth); [congruence..|lia|].
  cbv zeta in *. rewrite Hresult in Heq. rewrite Hevicted in Hreadings.
  rewrite Hc, Hrs in Hreadings.
  assert (gridWidth kh' = gridWidth kh + 1 - spanningLength anchor)
    as Hwidth'.
  { unfold gridWidth at 1, BlockReadingBuilder.width.
    change (BlockReadingBuilder.readings (builder_ kh'))
      with (builderReadings kh').
    rewrite Hreadings, length_app, length_drop, length_take. cbn [length].
    rewrite length_drop.
    unfold gridWidth, BlockReadingBuilder.width, builderCursorIndex,
      builderReadings in *. lia. }
  rewrite Heq. unfold result, events, after. cbn [fst snd].
  split; [done|]. exists kh', more.
  split; [done|]. split; [done|]. split; [done|].
  split; [lia|]. split; [lia|]. split; [|done].
  unfold evictedTextOf. destruct (node anchor) as [nd|].
  - split; [intros Hne; by exists nd|by intros (? & [= <-] & ?)].
  - split; [done|by intros (? & ? & _)].
Qed.

End EvictionInHandler.

(* ===================================================================== *)
(** * The concrete system at work *)
(* ===================================================================== *)

Lemma codePoints_cons (c d : N) (r : JSString) :
  Fixture.codePoints (c :: d :: r)
  = if isHighSurrogate c && isLowSurrogate d
    then [c; d] :: Fixture.codePoints r
    else [c] :: Fixture.codePoints (d :: r).
Proof. reflexivity. Qed.

Lemma codePoints_concat (v : JSString) : concat (Fixture.codePoints v) = v.
Proof.
  remember (length v) as n eqn:Hn. revert v Hn.
  induction n as [n IH] using lt_wf_ind. intros v ->.
  destruct v as [|c [|d r]]; [done|done|].
  rewrite codePoints_cons.
  destruct (isHighSurrogate c && isLowSurrogate d).
  - cbn [concat app]. do 2 f_equal. apply (IH (length r)); [cbn; lia|done].
  - cbn [concat app]. f_equal. apply (IH (length (d :: r))); [cbn; lia|done].
Qed.

(** Joining the code points of a string gives the string back. *)
Lemma codePoints_join (v : JSString) :
  join (toArray (Lodash := Fixture.lodash) v) [] = v.
Proof. rewrite join_empty_separator. apply codePoints_concat. Qed.

Section Runs.
Local Existing Instances Fixture.objectPrototype Fixture.mandarin
  Fixture.numbers Fixture.lodash
  Fixture.localizedStrings Fixture.readingBuffer Fixture.gramambular
  Fixture.userOverrideModel.

(** *** The absolute-order transform *)



(** *** User phrases *)

(** A second phrase for a key is stored after the first one, and the
    unigrams of the key come in that order. *)
Lemma addUserPhrase_does_not_prepend :
  let k := js "a3-b3" in
  let lm :=
    WebLanguageModelImpl.setUserPhrases
      (mkPhraseMap {[ k := 0 ]} {[ 0 := [[30002%N; 20057%N]] ]})
      Fixture.languageModel in
  let lm' := WebLanguageModelImpl.addUserPhrase k [19969%N; 25098%N] lm in
  PhraseMapImpl.get k (up_map (userPhrases_ lm'))
  = Some [[30002%N; 20057%N]; [19969%N; 25098%N]]
  ∧ PhraseMapImpl.get k (up_map (userPhrases_ lm'))
    ≠ Some [[19969%N; 25098%N]; [30002%N; 20057%N]]
  ∧ ∃ unigrams,
      WebLanguageModelImpl.unigramsForKey k lm' = Returned unigrams
      ∧ valueOf <$> unigrams = [[30002%N; 20057%N]; [19969%N; 25098%N]].
Proof.
  vm_compute. split; [done|]. split; [discriminate|].
  eexists. split; reflexivity.
Qed.

(** *** A key that names an inherited property *)

(** The dictionary of the concrete system has no entry "__proto__", and
    the lookup of that key throws. *)
Lemma unigramsForKey_throws_for_proto_run :
  WebLanguageModelImpl.unigramsForKey (js "__proto__") Fixture.languageModel
  = TypeError
  ∧ WebLanguageModelImpl.hasUnigramsForKey (js "__proto__")
      Fixture.languageModel = true.
Proof. apply unigramsForKey_throws_for_proto; reflexivity. Defined.

(** *** Keys that are not consumed *)

Example oneSyllableState_inputting :
  Fixture.oneSyllableState
  = InputtingState (Inputting.new [30002%N] 1 []).
Proof. vm_compute. reflexivity. Qed.



(** *** The cursor and the code points of the buffer *)

(** The syllable c3 is written with one character outside the Basic
    Multilingual Plane: the cursor after it is 2, the buffer has one code
    point. *)
Lemma inputting_cursor_exceeds_code_points :
  let typed :=
    mcbopomofoKeyEvents (Fixture.typed "c3") Empty Fixture.keyHandler in
  fst <$> typed.1.1 = [true; true]
  ∧ typed.1.2 = InputtingState (Inputting.new [55360; 56320]%N 2 [])
  ∧ codePointLength [55360; 56320]%N = 1
  ∧ ¬ 2 ≤ codePointLength [55360; 56320]%N.
Proof. vm_compute. repeat split. lia. Qed.

(** *** Marking *)

Example markingCalls_mark :
  (λ r, statesEntered r.2)
    <$> (handleAll Fixture.markingCalls Fixture.keyHandler).1 !! 4
  = Some [MarkingState
            (Marking.new [30002; 20057]%N 1
               (js "Marked: " ++ [20057%N] ++ js ", syllables: b3, "
                ++ js "syllables required")
               2 [30002%N] [20057%N] [] (js "b3") false)].
Proof. vm_compute. reflexivity. Qed.


(** *** Eviction *)

Example fullHandler_walk :
  builderReadings Fixture.fullHandler = [js "a3"; js "b3"; js "d3"; js "e3"]
  ∧ spanningLength <$> walkedNodes_ Fixture.fullHandler = [2; 1; 1]
  ∧ evictedTextOf <$> walkedNodes_ Fixture.fullHandler
    = [[30002; 20057]; [19969]; [25098]]%N.
Proof. vm_compute. done. Qed.

(** The grid holds a3 b3 d3 e3, as wide as the composing buffer size, and
    the key d was typed; the key 3 completes the syllable d3, a fifth
    reading, and the two readings of the first phrase are evicted. *)
Lemma handle_inserts_then_evicts_full_buffer :
  let kh := Fixture.pendingHandler in
  let anchor := default emptyNodeAnchor (walkedNodes_ kh !! 0) in
  let r := handle (Fixture.asciiKey 51) Fixture.pendingState 0 kh in
  (insertedReading kh (Fixture.asciiKey 51) Fixture.pendingState
   = Some (js "d3")
   ∧ builderReadings kh = [js "a3"; js "b3"; js "d3"; js "e3"]
   ∧ builderCursorIndex kh = 4
   ∧ spanningLength anchor = 2
   ∧ evictedTextOf anchor = [30002; 20057]%N
   ∧ builderReadings (after r) = [js "d3"; js "e3"; js "d3"])
  ∧ result r = true
  ∧ ∃ (kh' : Fixture.Handler) more,
      events r
      = StateEntered
          (InputtingState
             (Inputting.setEvictedText (evictedTextOf anchor)
                (buildInputtingState kh'))) :: more
      ∧ builderReadings kh'
        = drop (spanningLength anchor)
               (take (builderCursorIndex kh) (builderReadings kh))
          ++ js "d3" :: drop (builderCursorIndex kh) (builderReadings kh)
      ∧ gridWidth kh' = gridWidth kh + 1 - spanningLength anchor
      ∧ (1 ≤ spanningLength anchor →
         (Z.of_nat (gridWidth kh') ≤ composingBufferSize kh)%Z)
      ∧ (gridWidth kh' = gridWidth kh ↔ spanningLength anchor = 1)
      ∧ (evictedTextOf anchor ≠ []
         ↔ ∃ nd, node anchor = Some nd ∧ value (currentKeyValue nd) ≠ [])
      ∧ (after r = kh' ∨ after r = reset kh')
      ∧ (traditionalMode_ kh = false → after r = kh').
Proof.
  split; [vm_compute; by repeat split|].
  apply (handle_inserts_then_evicts (Fixture.asciiKey 51)
           Fixture.pendingState 0 Fixture.pendingHandler (js "d3")
           (default emptyNodeAnchor
                    (walkedNodes_ Fixture.pendingHandler !! 0))
           (drop 1 (walkedNodes_ Fixture.pendingHandler))).
  - vm_compute. reflexivity.
  - vm_compute. reflexivity.
  - vm_compute. reflexivity.
  - vm_compute. lia.
Defined.

(** The grid is as wide as the composing buffer size, 4; the syllable d3
    is typed and accepted; the grid is then 3 wide, not 4. *)
Lemma eviction_shrinks_full_buffer :
  let next :=
    mcbopomofoKeyEvents (Fixture.typed "d3") Fixture.fullState
                        Fixture.fullHandler in
  Z.of_nat (gridWidth Fixture.fullHandler)
  = composingBufferSize Fixture.fullHandler
  ∧ composingBufferSize Fixture.fullHandler = 4%Z
  ∧ fst <$> next.1.1 = [true; true]
  ∧ builderReadings next.2 = [js "d3"; js "e3"; js "d3"]
  ∧ gridWidth next.2 = 3
  ∧ Z.of_nat (gridWidth next.2) ≠ composingBufferSize next.2
  ∧ next.1.2
    = InputtingState
        (Inputting.mk (NotEmpty.mk [19969; 25098; 19969]%N 3 [])
                      [30002; 20057]%N).
Proof. vm_compute. repeat split. discriminate. Qed.

End Runs.

(* ===================================================================== *)
(** * More of the code *)
(* ===================================================================== *)

(** ** The language model: asking and adding *)

Section MoreLanguageModelFacts.
Context `{ObjectPrototype} `{Mandarin} `{Numbers}.

Lemma dedupByValue_keeps_value (v : JSString) (us : list Unigram) :
  v ∈ valueOf <$> us → ∃ u, u ∈ dedupByValue us ∧ valueOf u = v.
Proof.
  induction us as [|u0 r IH]; [by intros ?%elem_of_nil|].
  rewrite fmap_cons. cbn [dedupByValue].
  destruct (decide (valueOf u0 = v)) as [Heq|Hne].
  - intros _. exists u0. split; [left|done].
  - intros [Hv|Hv]%elem_of_cons; [done|].
    destruct (IH Hv) as (u & Hu & Huv). exists u. split; [|done].
    right. apply list_elem_of_filter. split; [|done].
    fold (valueOf u) (valueOf u0). congruence.
Qed.

Lemma split_not_nil (sep : N) (s : JSString) : split sep s ≠ [].
Proof.
  induction s as [|c r IH]; [done|]. cbn [split].
  destruct (N.eqb c sep); [done|]. by destruct (split sep r).
Qed.

Lemma entriesOf_not_nil (lm : WebLanguageModel) (k : JSString)
    (values : list JSString) :
  values ≠ [] → entriesOf lm k values ≠ [].
Proof. by destruct values. Qed.

Lemma entriesOf_key (lm : WebLanguageModel) (k : JSString)
    (values : list JSString) (u : Unigram) :
  u ∈ entriesOf lm k values → key (keyValue u) = k.
Proof.
  remember (length values) as n eqn:Hn. revert values Hn.
  induction n as [n IH] using lt_wf_ind. intros values ->.
  destruct values as [|v [|sc rest]].
  - by intros ?%elem_of_nil.
  - cbn [entriesOf]. by intros ->%list_elem_of_singleton.
  - cbn [entriesOf]. intros [->|Hu]%elem_of_cons; [done|].
    apply (IH (length rest)) with rest; [cbn; lia|done|done].
Qed.

Lemma entriesOf_ext (lm lm' : WebLanguageModel) (k : JSString)
    (values : list JSString) :
  converter_ lm = converter_ lm' →
  entriesOf lm k values = entriesOf lm' k values.
Proof.
  intros Hc.
  remember (length values) as n eqn:Hn. revert values Hn.
  induction n as [n IH] using lt_wf_ind. intros values ->.
  destruct values as [|v [|sc rest]]; [done| |].
  - cbn [entriesOf]. by rewrite Hc.
  - cbn [entriesOf]. rewrite Hc. f_equal.
    apply (IH (length rest)); [cbn; lia|done].
Qed.

(** The unigrams of a key depend on the dictionary, on the output
    converter and on the user phrases of that key only. *)
Lemma unigramsForKey_ext (lm lm' : WebLanguageModel) (k : JSString) :
  map_ lm = map_ lm' →
  converter_ lm = converter_ lm' →
  userPhrasesOf lm k = userPhrasesOf lm' k →
  WebLanguageModelImpl.unigramsForKey k lm
  = WebLanguageModelImpl.unigramsForKey k lm'.
Proof.
  intros Hm Hc Hu.
  destruct (decide (k = js " ")) as [->|Hk].
  { unfold WebLanguageModelImpl.unigramsForKey.
    by rewrite !bool_decide_eq_true_2 by done. }
  rewrite !unigramsForKey_dedup by done.
  unfold namesInheritedProperty. rewrite Hm.
  destruct (_ && _); [done|]. do 3 f_equal.
  - unfold userEntries. by rewrite Hu, Hc.
  - unfold dictEntries. rewrite Hm.
    destruct (map_ lm' !! _); [|done]. by apply entriesOf_ext.
Qed.

(** The phrases of every key after [UserPhrases.addUserPhrase]. *)
Lemma addUserPhrase_get (up : UserPhrases) (k stored k' : JSString) :
  let old := default [] (PhraseMapImpl.get k (up_map up)) in
  PhraseMapImpl.get k' (up_map (UserPhrasesImpl.addUserPhrase k stored up))
  = if bool_decide (k' = k) || sameArray (up_map up) k k'
    then Some (if bool_decide (stored ∈ old) then old else old ++ [stored])
    else PhraseMapImpl.get k' (up_map up).
Proof.
  intros old. subst old.
  unfold UserPhrasesImpl.addUserPhrase, sameArray.
  destruct up as [um log]. cbn [up_map phraseChanges].
  assert (PhraseMapImpl.get k um
          = PhraseMapImpl.elementsOf um <$> arrayAt um !! k) as -> by done.
  destruct (arrayAt um !! k) as [list|] eqn:Hk; cbn [fmap option_fmap
    option_map from_option]; unfold id.
  - unfold includes.
    destruct (bool_decide_reflect
                (stored ∈ PhraseMapImpl.elementsOf um list)).
    + cbn [up_map]. unfold PhraseMapImpl.get.
      destruct (decide (k' = k)) as [->|Hne].
      * by rewrite Hk, bool_decide_eq_true_2.
      * rewrite (bool_decide_eq_false_2 (k' = k)) by done. cbn [orb].
        destruct (arrayAt um !! k') as [b|]; [|done]. cbn.
        case_bool_decide; by subst.
    + cbn [up_map]. rewrite get_set_push. unfold PhraseMapImpl.get.
      destruct (decide (k' = k)) as [->|Hne].
      * by rewrite !bool_decide_eq_true_2 by (by try left).
      * rewrite (bool_decide_eq_false_2 (k' = k)) by done. cbn [orb].
        destruct (arrayAt um !! k') as [b|]; cbn.
        -- destruct (decide (list = b)) as [->|Hb].
           ++ by rewrite !bool_decide_eq_true_2 by (by try right).
           ++ rewrite (bool_decide_eq_false_2 (list = b)) by done.
              by rewrite bool_decide_eq_false_2
                by (intros [?|?]; congruence).
        -- by rewrite bool_decide_eq_false_2 by (intros [?|?]; congruence).
  - rewrite (bool_decide_eq_false_2 (stored ∈ [])) by apply not_elem_of_nil.
    cbn [up_map]. rewrite get_set_push, newArray_empty.
    unfold PhraseMapImpl.get. rewrite orb_false_r.
    destruct (decide (k' = k)) as [->|Hne].
    + by rewrite !bool_decide_eq_true_2 by (by try left).
    + rewrite (bool_decide_eq_false_2 (k' = k)) by done.
      rewrite bool_decide_eq_false_2; [done|].
      intros [?|Hnew]; [done|]. by apply newArray_fresh in Hnew.
Qed.

(** The phrase that [addUserPhrase] stores is among the user phrases of
    the key afterwards, whether it was there before or not. *)
Lemma addUserPhrase_stored (lm : WebLanguageModel) (k phrase : JSString) :
  convertWith (addUserPhraseConverter lm) phrase
  ∈ userPhrasesOf (WebLanguageModelImpl.addUserPhrase k phrase lm) k.
Proof.
  unfold userPhrasesOf, WebLanguageModelImpl.addUserPhrase,
    WebLanguageModelImpl.withUserPhrases.
  cbn [userPhrases_]. rewrite addUserPhrase_get.
  rewrite (bool_decide_eq_true_2 (k = k)) by done. cbn [orb from_option].
  unfold id. case_bool_decide as Hin; [done|].
  apply elem_of_app. right. by left.
Qed.

Lemma addUserPhrase_keeps_dictionary (lm : WebLanguageModel)
    (k phrase : JSString) :
  let lm' := WebLanguageModelImpl.addUserPhrase k phrase lm in
  map_ lm' = map_ lm ∧ converter_ lm' = converter_ lm
  ∧ addUserPhraseConverter lm' = addUserPhraseConverter lm.
Proof. done. Qed.

Lemma addUserPhrase_found (lm : WebLanguageModel) (k phrase : JSString) :
  k ≠ js " " →
  namesInheritedProperty lm k = false →
  ∃ unigrams u,
    WebLanguageModelImpl.unigramsForKey k
      (WebLanguageModelImpl.addUserPhrase k phrase lm) = Returned unigrams
    ∧ u ∈ unigrams
    ∧ valueOf u
      = convertWith (converter_ lm)
          (convertWith (addUserPhraseConverter lm) phrase)
    ∧ score u = 0%float
    ∧ key (keyValue u) = k.
Proof.
  intros Hk Hown. rewrite unigramsForKey_dedup by done.
  set (lm' := WebLanguageModelImpl.addUserPhrase k phrase lm).
  assert (namesInheritedProperty lm' k = false) as -> by done.
  rewrite dedupByValue_app.
  set (stored := convertWith (addUserPhraseConverter lm) phrase).
  destruct (dedupByValue_keeps_value (convertWith (converter_ lm) stored)
              (userEntries lm' k)) as (u & Hu & Hv).
  { unfold userEntries. rewrite <- list_fmap_compose.
    apply list_elem_of_fmap. exists stored. split; [done|].
    apply addUserPhrase_stored. }
  eexists _, u. split; [done|].
  split; [apply elem_of_app; by left|]. split; [done|].
  apply elem_of_dedupByValue in Hu. unfold userEntries in Hu.
  by apply list_elem_of_fmap in Hu as (item & -> & _).
Qed.

Lemma MarkedPhraseExists_after_add (lm : WebLanguageModel)
    (k phrase : JSString) :
  k ≠ js " " →
  namesInheritedProperty lm k = false →
  convertWith (converter_ lm)
    (convertWith (addUserPhraseConverter lm) phrase) = phrase →
  MarkedPhraseExists (WebLanguageModelImpl.addUserPhrase k phrase lm)
                     k phrase = true.
Proof.
  intros Hk Hown Hround. unfold MarkedPhraseExists.
  destruct (addUserPhrase_found lm k phrase Hk Hown)
    as (unigrams & u & -> & Hu & Hv & _).
  apply existsb_exists. exists u. split.
  - by apply list_elem_of_In.
  - apply bool_decide_eq_true_2. unfold valueOf in Hv. congruence.
Qed.

(** X1.  [hasUnigramsForKey] and [unigramsForKey] agree where the lookup
    returns: the language model says that it has unigrams for a key exactly
    when the list of unigrams it returns for that key is not empty.  Where
    the lookup throws, which it does exactly for a key other than " " whose
    absolute-order key names a property that the dictionary object inherits
    and does not have of its own, [hasUnigramsForKey] is true. *)
Theorem hasUnigramsForKey_iff_unigrams (lm : WebLanguageModel)
    (k : JSString) :
  match WebLanguageModelImpl.unigramsForKey k lm with
  | Returned unigrams =>
      WebLanguageModelImpl.hasUnigramsForKey k lm
      = bool_decide (0 < length unigrams)
      ∧ (bool_decide (k = js " ") || negb (namesInheritedProperty lm k)
         = true)
  | TypeError =>
      WebLanguageModelImpl.hasUnigramsForKey k lm = true
      ∧ k ≠ js " " ∧ namesInheritedProperty lm k = true
  end.
Proof.
  destruct (decide (k = js " ")) as [->|Hk].
  { unfold WebLanguageModelImpl.hasUnigramsForKey,
      WebLanguageModelImpl.unigramsForKey.
    by rewrite !bool_decide_eq_true_2 by done. }
  rewrite unigramsForKey_dedup by done.
  rewrite (bool_decide_eq_false_2 (k = js " ")) by done. cbn [orb].
  unfold WebLanguageModelImpl.hasUnigramsForKey,
    UserPhrasesImpl.hasUnigramsForKey, userEntries, dictEntries,
    namesInheritedProperty, hasProperty, userPhrasesOf.
  rewrite (bool_decide_eq_false_2 (k = js " ")) by done.
  destruct (map_ lm !! _) as [entry|] eqn:Hentry.
  - rewrite (bool_decide_eq_false_2 (Some entry = None)) by done.
    rewrite andb_false_r. split; [|done].
    rewrite (bool_decide_eq_true_2 (is_Some (Some entry))) by done.
    cbn [orb].
    pose proof (split_not_nil blank entry) as Hs.
    destruct (split blank entry) as [|v rest]; [done|].
    transitivity true.
    + by destruct (PhraseMapImpl.get _ _) as [[|? ?]|];
        try destruct (bool_decide _).
    + symmetry. apply bool_decide_eq_true_2.
      destruct (PhraseMapImpl.get _ _) as [[|? ?]|]; cbn; lia.
  - rewrite (bool_decide_eq_false_2 (is_Some None)) by (by intros [? ?]).
    rewrite (bool_decide_eq_true_2 (None = None)) by done.
    rewrite andb_true_r. cbn [orb].
    destruct (inheritedProperty _).
    + split; [|done]. by destruct (PhraseMapImpl.get _ _) as [[|? ?]|];
        try destruct (bool_decide _).
    + split; [|done]. rewrite app_nil_r.
      destruct (PhraseMapImpl.get _ _) as [[|item l]|];
        cbn [from_option fmap list_fmap dedupByValue length]; unfold id.
      * by rewrite !bool_decide_eq_false_2 by (cbn; lia).
      * rewrite (bool_decide_eq_true_2 (0 < length (item :: l)))
          by (cbn; lia).
        symmetry. apply bool_decide_eq_true_2. cbn. lia.
      * by rewrite bool_decide_eq_false_2 by (cbn; lia).
Qed.

(** X2.  Adding a user phrase a second time changes nothing: the map is
    the same and the change callback is not called again. *)
Theorem addUserPhrase_idempotent (lm : WebLanguageModel)
    (k phrase : JSString) :
  WebLanguageModelImpl.addUserPhrase k phrase
    (WebLanguageModelImpl.addUserPhrase k phrase lm)
  = WebLanguageModelImpl.addUserPhrase k phrase lm.
Proof.
  pose proof (addUserPhrase_stored lm k phrase) as Hin.
  set (lm' := WebLanguageModelImpl.addUserPhrase k phrase lm) in *.
  assert (addUserPhraseConverter lm' = addUserPhraseConverter lm) as Hac
    by done.
  unfold WebLanguageModelImpl.addUserPhrase at 1. rewrite Hac.
  set (stored := convertWith (addUserPhraseConverter lm) phrase) in *.
  unfold userPhrasesOf, PhraseMapImpl.get in Hin.
  unfold UserPhrasesImpl.addUserPhrase.
  destruct (arrayAt (up_map (userPhrases_ lm')) !! k) as [list|].
  - cbn in Hin. unfold includes. rewrite bool_decide_eq_true_2 by done.
    by destruct lm' as [? [? ?] ? ?].
  - by apply elem_of_nil in Hin.
Qed.

(** X3.  After a phrase was added for a key other than " ", the language
    model has unigrams for the key, and the lookup of the key, when it
    returns, returns a unigram that carries the phrase (through the input
    converter when it was stored and through the output converter when it
    is returned), with score 0 and with the key that was asked for.  The
    lookup throws instead when the absolute-order key names a property that
    the dictionary object inherits and does not have of its own. *)
Theorem addUserPhrase_then_unigramsForKey (lm : WebLanguageModel)
    (k phrase : JSString) :
  k ≠ js " " →
  let lm' := WebLanguageModelImpl.addUserPhrase k phrase lm in
  WebLanguageModelImpl.hasUnigramsForKey k lm' = true
  ∧ match WebLanguageModelImpl.unigramsForKey k lm' with
    | Returned unigrams =>
        namesInheritedProperty lm k = false
        ∧ ∃ u, u ∈ unigrams
               ∧ value (keyValue u)
                 = convertWith (converter_ lm)
                     (convertWith (addUserPhraseConverter lm) phrase)
               ∧ score u = 0%float
               ∧ key (keyValue u) = k
    | TypeError => namesInheritedProperty lm k = true
    end.
Proof.
  intros Hk lm'. split.
  - unfold WebLanguageModelImpl.hasUnigramsForKey,
      UserPhrasesImpl.hasUnigramsForKey.
    rewrite bool_decide_eq_false_2 by done.
    pose proof (addUserPhrase_stored lm k phrase) as Hin. fold lm' in Hin.
    unfold userPhrasesOf in Hin.
    destruct (PhraseMapImpl.get k (up_map (userPhrases_ lm')))
      as [[|x l]|].
    + by apply elem_of_nil in Hin.
    + by rewrite bool_decide_eq_true_2 by (cbn; lia).
    + by apply elem_of_nil in Hin.
  - destruct (namesInheritedProperty lm k) eqn:Hown.
    + rewrite unigramsForKey_dedup by done.
      by assert (namesInheritedProperty lm' k = true) as -> by done.
    + destruct (addUserPhrase_found lm k phrase Hk Hown)
        as (unigrams & u & Hres & Hu & Hv & Hs & Hkey).
      fold lm' in Hres. rewrite Hres. split; [done|]. by exists u.
Qed.

(** X4.  [addUserPhrase] pushes onto the array that the map holds for the
    key, in place.  Another key that holds the same array has the stored
    phrase among its own phrases afterwards; every other key keeps its
    unigrams as they were. *)
Theorem addUserPhrase_other_key (lm : WebLanguageModel)
    (k phrase k' : JSString) :
  k' ≠ k →
  let lm' := WebLanguageModelImpl.addUserPhrase k phrase lm in
  let stored := convertWith (addUserPhraseConverter lm) phrase in
  if sameArray (up_map (userPhrases_ lm)) k k'
  then userPhrasesOf lm k' = userPhrasesOf lm k
       ∧ userPhrasesOf lm' k'
         = if bool_decide (stored ∈ userPhrasesOf lm k)
           then userPhrasesOf lm k
           else userPhrasesOf lm k ++ [stored]
  else WebLanguageModelImpl.unigramsForKey k' lm'
       = WebLanguageModelImpl.unigramsForKey k' lm
       ∧ WebLanguageModelImpl.hasUnigramsForKey k' lm'
         = WebLanguageModelImpl.hasUnigramsForKey k' lm.
Proof.
  intros Hne lm' stored.
  assert (PhraseMapImpl.get k' (up_map (userPhrases_ lm'))
          = if sameArray (up_map (userPhrases_ lm)) k k'
            then Some (if bool_decide (stored ∈ userPhrasesOf lm k)
                       then userPhrasesOf lm k
                       else userPhrasesOf lm k ++ [stored])
            else PhraseMapImpl.get k' (up_map (userPhrases_ lm))) as Hget.
  { subst lm'. unfold WebLanguageModelImpl.addUserPhrase,
      WebLanguageModelImpl.withUserPhrases. cbn [userPhrases_].
    rewrite addUserPhrase_get.
    by rewrite (bool_decide_eq_false_2 (k' = k)) by done. }
  destruct (sameArray (up_map (userPhrases_ lm)) k k') eqn:Hsame.
  - split.
    + unfold sameArray in Hsame. unfold userPhrasesOf, PhraseMapImpl.get.
      destruct (arrayAt _ !! k) as [a|]; [|done].
      destruct (arrayAt _ !! k') as [b|]; [|done].
      by apply bool_decide_eq_true in Hsame as ->.
    + unfold userPhrasesOf at 1. by rewrite Hget.
  - split.
    + apply unigramsForKey_ext; [done|done|].
      unfold userPhrasesOf. by rewrite Hget.
    + unfold WebLanguageModelImpl.hasUnigramsForKey,
        UserPhrasesImpl.hasUnigramsForKey.
      by rewrite Hget.
Qed.

(** X5.  Every unigram returned for a key carries that key, not the
    absolute-order key under which the dictionary stores its entry. *)
Theorem unigramsForKey_keys (lm : WebLanguageModel) (k : JSString) :
  match WebLanguageModelImpl.unigramsForKey k lm with
  | Returned unigrams => Forall (λ u, key (keyValue u) = k) unigrams
  | TypeError => True
  end.
Proof.
  destruct (decide (k = js " ")) as [->|Hk].
  { unfold WebLanguageModelImpl.unigramsForKey.
    rewrite bool_decide_eq_true_2 by done. by repeat constructor. }
  rewrite unigramsForKey_dedup by done.
  destruct (namesInheritedProperty lm k); [done|].
  apply Forall_forall. intros u.
  intros [Hu|Hu]%elem_of_dedupByValue%elem_of_app.
  - unfold userEntries in Hu.
    by apply list_elem_of_fmap in Hu as (item & -> & _).
  - unfold dictEntries in Hu.
    destruct (map_ lm !! _); [|by apply elem_of_nil in Hu].
    by apply entriesOf_key in Hu.
Qed.

(** X25.  What [unigramsForKey] does for every key.  For the key " " it
    returns exactly one unigram, of key " " and value " ".  For another key
    whose absolute-order key names a property that the dictionary object
    inherits and does not have of its own, it throws.  For every other key
    it returns the user phrases of the key, each with score 0, followed by
    the entries of the static dictionary whose value no user phrase has;
    values are converted by the output converter when one is set, and no
    value is returned twice (of the unigrams with one value the first is
    kept, so a user phrase wins). *)
Theorem unigramsForKey_merges (lm : WebLanguageModel) (k : JSString) :
  let user := userEntries lm k in
  let dict := dictEntries lm k in
  let merged :=
    dedupByValue user
    ++ filter (λ d, valueOf d ∉ valueOf <$> user) (dedupByValue dict) in
  WebLanguageModelImpl.unigramsForKey k lm
  = (if bool_decide (k = js " ")
     then Returned [mkUnigram (mkKeyValuePair (js " ") (js " "))
                              unigramDefaultScore]
     else if namesInheritedProperty lm k then TypeError
     else Returned merged)
  ∧ merged = dedupByValue (user ++ dict)
  ∧ Forall (λ u, score u = 0%float ∧ key (keyValue u) = k
                 ∧ ∃ phrase,
                     phrase ∈ userPhrasesOf lm k
                     ∧ valueOf u = convertWith (converter_ lm) phrase)
           (dedupByValue user)
  ∧ NoDup (valueOf <$> merged).
Proof.
  intros user dict merged.
  assert (merged = dedupByValue (user ++ dict)) as Hmerged
    by (symmetry; apply dedupByValue_app).
  split; [|split; [done|split]].
  - case_bool_decide as Hk.
    + subst k. unfold WebLanguageModelImpl.unigramsForKey.
      by rewrite bool_decide_eq_true_2.
    + rewrite unigramsForKey_dedup by done. by rewrite Hmerged.
  - apply Forall_forall. intros u Hu%elem_of_dedupByValue.
    subst user. unfold userEntries in Hu.
    apply list_elem_of_fmap in Hu as (item & -> & Hitem).
    repeat split. by exists item.
  - rewrite Hmerged. apply NoDup_dedupByValue.
Qed.

End MoreLanguageModelFacts.

(** ** The order of key-value pairs *)

Lemma lessThan_irrefl (a : JSString) : lessThan a a = false.
Proof.
  induction a as [|x a IH]; [done|]. cbn [lessThan].
  by rewrite N.ltb_irrefl, N.eqb_refl, IH.
Qed.

Lemma lessThan_asym (a b : JSString) :
  lessThan a b = true → lessThan b a = false.
Proof.
  revert b. induction a as [|x a IH]; intros [|y b]; try done.
  cbn [lessThan].
  destruct (N.ltb_spec x y), (N.ltb_spec y x), (N.eqb_spec x y),
    (N.eqb_spec y x); try lia; cbn; try done.
  apply IH.
Qed.

Lemma lessThan_trans (a b c : JSString) :
  lessThan a b = true → lessThan b c = true → lessThan a c = true.
Proof.
  revert b c. induction a as [|x a IH]; intros [|y b] [|z c]; try done.
  cbn [lessThan].
  destruct (N.ltb_spec x y), (N.ltb_spec y z), (N.ltb_spec x z),
    (N.eqb_spec x y), (N.eqb_spec y z), (N.eqb_spec x z);
    try lia; cbn; try done.
  apply IH.
Qed.

Lemma lessThan_total (a b : JSString) :
  lessThan a b = false → lessThan b a = false → a = b.
Proof.
  revert b. induction a as [|x a IH]; intros [|y b]; try done.
  cbn [lessThan].
  destruct (N.ltb_spec x y), (N.ltb_spec y x), (N.eqb_spec x y),
    (N.eqb_spec y x); try lia; cbn; try done.
  intros Hab Hba. subst. f_equal. by apply IH.
Qed.

(** X6.  [isGreaterThan] is [isLessThan] with the arguments swapped, [equals]
    holds exactly for equal pairs, and of two pairs exactly one is the
    case: the first is less than, equal to or greater than the second. *)
Theorem KeyValuePair_order (a b : KeyValuePair) :
  KeyValuePair_isGreaterThan a b = KeyValuePair_isLessThan b a
  ∧ (KeyValuePair_equals a b = true ↔ a = b)
  ∧ (KeyValuePair_isLessThan a b = true ∧ a ≠ b
       ∧ KeyValuePair_isGreaterThan a b = false
     ∨ KeyValuePair_isLessThan a b = false ∧ a = b
       ∧ KeyValuePair_isGreaterThan a b = false
     ∨ KeyValuePair_isLessThan a b = false ∧ a ≠ b
       ∧ KeyValuePair_isGreaterThan a b = true).
Proof.
  destruct a as [ka va], b as [kb vb].
  unfold KeyValuePair_isGreaterThan, KeyValuePair_isLessThan,
    KeyValuePair_equals. cbn [key value].
  split; [|split].
  - destruct (lessThan kb ka); [done|].
    by rewrite (bool_decide_ext (ka = kb) (kb = ka)) by done.
  - rewrite andb_true_iff, !bool_decide_eq_true. split.
    + by intros [-> ->].
    + by intros [= -> ->].
  - destruct (lessThan ka kb) eqn:Hk.
    + left. rewrite (lessThan_asym _ _ Hk).
      case_bool_decide as Heq.
      * subst. by rewrite lessThan_irrefl in Hk.
      * split; [done|]. split; [|done]. by intros [= ? ?].
    + destruct (lessThan kb ka) eqn:Hk'.
      * right. right. split; [|split; [|done]].
        -- case_bool_decide as Heq; [|done]. subst.
           by rewrite lessThan_irrefl in Hk'.
        -- intros [= -> ->]. by rewrite lessThan_irrefl in Hk'.
      * pose proof (lessThan_total _ _ Hk Hk') as ->.
        rewrite bool_decide_eq_true_2 by done.
        destruct (lessThan va vb) eqn:Hv.
        -- left. rewrite (lessThan_asym _ _ Hv). split; [done|].
           split; [|done]. intros [= ->]. by rewrite lessThan_irrefl in Hv.
        -- destruct (lessThan vb va) eqn:Hv'.
           ++ right. right. split; [done|]. split; [|done].
              intros [= ->]. by rewrite lessThan_irrefl in Hv'.
           ++ right. left. by rewrite (lessThan_total _ _ Hv Hv').
Qed.

(** X7.  [isLessThan] is transitive. *)
Theorem KeyValuePair_isLessThan_transitive (a b c : KeyValuePair) :
  KeyValuePair_isLessThan a b = true →
  KeyValuePair_isLessThan b c = true →
  KeyValuePair_isLessThan a c = true.
Proof.
  destruct a as [ka va], b as [kb vb], c as [kc vc].
  unfold KeyValuePair_isLessThan. cbn [key value].
  destruct (lessThan ka kb) eqn:Hab.
  - intros _. destruct (lessThan kb kc) eqn:Hbc.
    + intros _. by rewrite (lessThan_trans _ _ _ Hab Hbc).
    + case_bool_decide as Heq; [|done]. subst. by rewrite Hab.
  - case_bool_decide as Heq; [|done]. subst kb. intros Hv.
    destruct (lessThan ka kc); [done|].
    case_bool_decide; [|done]. apply (lessThan_trans _ _ _ Hv).
Qed.

(** ** Keys that are not consumed *)

Section Silent.
Context {R G U : Type}.
Context `{ObjectPrototype} `{Mandarin} `{Numbers} `{Lodash} `{LocalizedStrings}.
Context `{BopomofoReadingBuffer R} `{Gramambular G} `{UserOverrideModel U}.

Local Abbreviation KH := (KeyHandler R G U).
Local Abbreviation Method := (M R G U).
Local Abbreviation ReturnsTrue :=
  (Returns (R:=R) (G:=G) (U:=U) (λ b : bool, b = true)).
Local Abbreviation Silent := (SilentWhenFalse (R:=R) (G:=G) (U:=U)).

Lemma Silent_ret (b : bool) : Silent (ret b).
Proof. intros kh. unfold ret, result. cbn. by intros ->. Qed.

Lemma Silent_ReturnsTrue (m : Method bool) : ReturnsTrue m → Silent m.
Proof. intros Hm kh Hf. specialize (Hm kh). cbv beta in Hm. congruence. Qed.

Lemma Silent_bind_get (f : KH → Method bool) :
  (∀ kh, Silent (f kh)) → Silent (bind get f).
Proof. intros Hf kh. rewrite bind_get. apply Hf. Qed.

Lemma Silent_bind_bool (m : Method bool) (f : bool → Method bool) :
  Silent m → Silent (f false) → ReturnsTrue (f true) → Silent (bind m f).
Proof.
  intros Hm Hf Ht kh.
  destruct (result (m kh)) eqn:Hr.
  - intros Hfalse. exfalso. specialize (Ht (after (m kh))).
    cbv beta in Ht. unfold bind, result, after in *. cbn in Hfalse.
    rewrite Hr in Hfalse. congruence.
  - rewrite (bind_silent _ _ kh false) by by apply Hm. apply Hf.
Qed.

Lemma handlePunctuation_silent (punctuationUnigramKey : JSString) :
  Silent (handlePunctuation punctuationUnigramKey).
Proof.
  unfold handlePunctuation. apply Silent_bind_get. intros kh.
  destruct (negb _); [apply Silent_ret|].
  apply Silent_ReturnsTrue. repeat returns_step.
Qed.

Lemma handleCursorKeys_silent (k : Key.t) (state : InputState) :
  Silent (handleCursorKeys k state).
Proof.
  unfold handleCursorKeys. destruct (_ && _); [apply Silent_ret|].
  apply Silent_ReturnsTrue. repeat returns_step.
Qed.

Lemma handleDeleteKeys_silent (k : Key.t) (state : InputState) :
  Silent (handleDeleteKeys k state).
Proof.
  unfold handleDeleteKeys. destruct (negb _); [apply Silent_ret|].
  apply Silent_ReturnsTrue. repeat returns_step.
Qed.

Local Ltac silent_step :=
  lazymatch goal with
  | |- SilentWhenFalse (ret _) => apply Silent_ret
  | |- SilentWhenFalse (bind get _) => apply Silent_bind_get; intros
  | |- SilentWhenFalse (bind (handlePunctuation _) (λ _, ret true)) =>
      apply Silent_ReturnsTrue; repeat returns_step
  | |- SilentWhenFalse (bind (handlePunctuation _) _) =>
      apply Silent_bind_bool;
      [ apply handlePunctuation_silent
      | lazy beta iota
      | lazy beta iota; apply Returns_ret; reflexivity ]
  | |- SilentWhenFalse (bind _ _) =>
      apply Silent_ReturnsTrue; repeat returns_step
  | |- SilentWhenFalse (handleTabKey _ _ _) =>
      apply Silent_ReturnsTrue, handleTabKey_returns
  | |- SilentWhenFalse (handleCursorKeys _ _) => apply handleCursorKeys_silent
  | |- SilentWhenFalse (handleDeleteKeys _ _) => apply handleDeleteKeys_silent
  | |- SilentWhenFalse (match ?x with _ => _ end) => destruct x eqn:?
  | |- SilentWhenFalse _ => progress (lazy beta zeta)
  end.

Lemma handleOtherKeys_silent (k : Key.t) (state : InputState) (now : Z) :
  Silent (handleOtherKeys k state now).
Proof. unfold handleOtherKeys. repeat silent_step. Qed.

Lemma handleComposition_consumed (k : Key.t) (state : InputState) (now : Z) :
  ReturnsTrue (handleComposition k state now true).
Proof.
  unfold handleComposition. apply Returns_bind. intros kh.
  destruct (_ || _); repeat returns_step.
Qed.

Lemma handleComposition_silent (k : Key.t) (state : InputState) (now : Z)
    (keyConsumedByReading : bool) :
  Silent (handleComposition k state now keyConsumedByReading).
Proof.
  unfold handleComposition. apply Silent_bind_get. intros kh.
  destruct (_ || _).
  - apply Silent_ReturnsTrue. repeat returns_step.
  - destruct keyConsumedByReading.
    + apply Silent_ReturnsTrue. repeat returns_step.
    + apply handleOtherKeys_silent.
Qed.

(** X8.  A key that [handle] does not consume leaves no trace: when the call
    returns false the handler is as it was before and neither callback was
    called. *)
Theorem handle_unconsumed_key_is_silent (k : Key.t) (state : InputState)
    (now : Z) (kh : KH) :
  result (handle k state now kh) = false →
  after (handle k state now kh) = kh ∧ events (handle k state now kh) = [].
Proof.
  intros Hf.
  assert (Silent (handle k state now)) as Hs.
  { unfold handle. destruct (_ || _); [apply Silent_ret|].
    apply Silent_bind_get. intros kh'.
    destruct (isValidKey _ _).
    - apply Silent_ReturnsTrue. apply Returns_bind. intros _.
      apply Returns_bind. intros kh''.
      destruct (negb _); [repeat returns_step|].
      apply handleComposition_consumed.
    - apply handleComposition_silent. }
  by rewrite (Hs kh Hf).
Qed.

End Silent.

(** ** What the handler leaves alone *)

Section KeepsFacts.
Context {R G U : Type}.
Context `{ObjectPrototype} `{Mandarin} `{Numbers} `{Lodash} `{LocalizedStrings}.
Context `{BopomofoReadingBuffer R} `{Gramambular G} `{UserOverrideModel U}.

Local Abbreviation KH := (KeyHandler R G U).
Local Abbreviation Method := (M R G U).

Lemma Keeps_ret {A X} (part : KH → X) (a : A) : Keeps part (ret a).
Proof. by intros kh. Qed.

Lemma Keeps_get {X} (part : KH → X) : Keeps part get.
Proof. by intros kh. Qed.

Lemma Keeps_modify {X} (part : KH → X) (f : KH → KH) :
  (∀ kh, part (f kh) = part kh) → Keeps part (modify f).
Proof. intros Hf kh. apply Hf. Qed.

Lemma Keeps_errorCallback {X} (part : KH → X) : Keeps part errorCallback.
Proof. by intros kh. Qed.

Lemma Keeps_stateCallback {X} (part : KH → X) (s : InputState) :
  Keeps part (stateCallback s).
Proof. by intros kh. Qed.

Lemma Keeps_bind {A B X} (part : KH → X) (m : Method A) (f : A → Method B) :
  Keeps part m → (∀ a, Keeps part (f a)) → Keeps part (bind m f).
Proof.
  intros Hm Hf kh. unfold bind, after. cbn [fst snd].
  specialize (Hf (m kh).1.1 (m kh).1.2). specialize (Hm kh).
  unfold after in *. congruence.
Qed.

End KeepsFacts.

(** One step through the code of a method, for a goal about a part of the
    handler that it leaves alone. *)
Ltac keeps_step :=
  lazymatch goal with
  | |- Keeps _ (ret _) => apply Keeps_ret
  | |- Keeps _ get => apply Keeps_get
  | |- Keeps _ (modify _) => apply Keeps_modify; intros; reflexivity
  | |- Keeps _ errorCallback => apply Keeps_errorCallback
  | |- Keeps _ (stateCallback _) => apply Keeps_stateCallback
  | |- Keeps _ emitInputting => unfold emitInputting
  | |- Keeps _ walk => unfold walk
  | |- Keeps _ (bind _ _) => apply Keeps_bind; [|intros]
  | |- Keeps _ (match ?x with _ => _ end) => destruct x
  | |- Keeps _ _ => progress (lazy beta zeta)
  end.

Section ConfigurationKept.
Context {R G U : Type}.
Context `{ObjectPrototype} `{Mandarin} `{Numbers} `{Lodash} `{LocalizedStrings}.
Context `{BopomofoReadingBuffer R} `{Gramambular G} `{UserOverrideModel U}.

Local Abbreviation KH := (KeyHandler R G U).
Local Abbreviation Method := (M R G U).
Local Abbreviation KeepsConfiguration :=
  (Keeps (R:=R) (G:=G) (U:=U) (configuration (R:=R) (G:=G) (U:=U))).

Lemma walk_keeps_configuration : KeepsConfiguration walk.
Proof. unfold walk. repeat keeps_step. Qed.

Lemma emitInputting_keeps_configuration : KeepsConfiguration emitInputting.
Proof. unfold emitInputting. repeat keeps_step. Qed.

Lemma popEvictedTextAndWalk_keeps_configuration :
  KeepsConfiguration popEvictedTextAndWalk.
Proof.
  unfold popEvictedTextAndWalk.
  repeat lazymatch goal with
         | |- Keeps _ walk => apply walk_keeps_configuration
         | |- _ => keeps_step
         end.
Qed.

Lemma fixNodesIfRequired_keeps_configuration :
  KeepsConfiguration fixNodesIfRequired.
Proof. unfold fixNodesIfRequired. repeat keeps_step. Qed.

Lemma pinNode_keeps_configuration (now : Z) (candidate : JSString)
    (useMoveCursorAfterSelectionSetting : bool) :
  KeepsConfiguration (pinNode now candidate useMoveCursorAfterSelectionSetting).
Proof.
  unfold pinNode.
  repeat lazymatch goal with
         | |- Keeps _ walk => apply walk_keeps_configuration
         | |- _ => keeps_step
         end.
Qed.

Local Ltac keeps_configuration :=
  repeat
    lazymatch goal with
    | |- Keeps _ emitInputting => apply emitInputting_keeps_configuration
    | |- Keeps _ walk => apply walk_keeps_configuration
    | |- Keeps _ popEvictedTextAndWalk =>
        apply popEvictedTextAndWalk_keeps_configuration
    | |- Keeps _ fixNodesIfRequired =>
        apply fixNodesIfRequired_keeps_configuration
    | |- Keeps _ (pinNode _ _ _) => apply pinNode_keeps_configuration
    | |- _ => keeps_step
    end.

Lemma handleTabKey_keeps_configuration (k : Key.t) (state : InputState)
    (now : Z) :
  KeepsConfiguration (handleTabKey k state now).
Proof. unfold handleTabKey. keeps_configuration. Qed.

Lemma handleCursorKeys_keeps_configuration (k : Key.t) (state : InputState) :
  KeepsConfiguration (handleCursorKeys k state).
Proof. unfold handleCursorKeys. keeps_configuration. Qed.

Lemma handleDeleteKeys_keeps_configuration (k : Key.t) (state : InputState) :
  KeepsConfiguration (handleDeleteKeys k state).
Proof. unfold handleDeleteKeys. keeps_configuration. Qed.

Lemma handlePunctuation_keeps_configuration
    (punctuationUnigramKey : JSString) :
  KeepsConfiguration (handlePunctuation punctuationUnigramKey).
Proof. unfold handlePunctuation. keeps_configuration. Qed.

Lemma handleOtherKeys_keeps_configuration (k : Key.t) (state : InputState)
    (now : Z) :
  KeepsConfiguration (handleOtherKeys k state now).
Proof.
  unfold handleOtherKeys.
  repeat
    lazymatch goal with
    | |- Keeps _ (handleTabKey _ _ _) => apply handleTabKey_keeps_configuration
    | |- Keeps _ (handleCursorKeys _ _) =>
        apply handleCursorKeys_keeps_configuration
    | |- Keeps _ (handleDeleteKeys _ _) =>
        apply handleDeleteKeys_keeps_configuration
    | |- Keeps _ (handlePunctuation _) =>
        apply handlePunctuation_keeps_configuration
    | |- _ => progress keeps_configuration
    end.
Qed.

Lemma handleComposition_keeps_configuration (k : Key.t) (state : InputState)
    (now : Z) (keyConsumedByReading : bool) :
  KeepsConfiguration (handleComposition k state now keyConsumedByReading).
Proof.
  unfold handleComposition.
  repeat
    lazymatch goal with
    | |- Keeps _ (handleOtherKeys _ _ _) =>
        apply handleOtherKeys_keeps_configuration
    | |- _ => progress keeps_configuration
    end.
Qed.

Lemma handle_keeps_configuration (k : Key.t) (state : InputState) (now : Z) :
  KeepsConfiguration (handle k state now).
Proof.
  unfold handle.
  repeat
    lazymatch goal with
    | |- Keeps _ (handleComposition _ _ _ _) =>
        apply handleComposition_keeps_configuration
    | |- _ => progress keeps_configuration
    end.
Qed.

Lemma handleAll_keeps_configuration
    (calls : list (Key.t * InputState * Z)) (kh : KH) :
  configuration (handleAll calls kh).2 = configuration kh.
Proof.
  revert kh.
  induction calls as [|[[k state] now] calls IH]; intros kh; [done|].
  cbn [handleAll snd]. rewrite IH. apply handle_keeps_configuration.
Qed.

(** X9.  No call of [handle], [candidateSelected], [candidatePanelCancelled],
    [handlePunctuationKeyInCandidatePanelForTraditionalMode] or [reset]
    changes what the host configures: the settings of the handler, the
    dictionary and the converters.  So the composing buffer size, once set,
    is between 4 and 100 after any calls of [handle]. *)
Theorem configuration_is_kept (k : Key.t) (state : InputState) (now : Z)
    (candidate : JSString) :
  KeepsConfiguration (handle k state now)
  ∧ KeepsConfiguration (candidateSelected now candidate)
  ∧ KeepsConfiguration candidatePanelCancelled
  ∧ KeepsConfiguration
      (handlePunctuationKeyInCandidatePanelForTraditionalMode
         k candidate now)
  ∧ (∀ kh : KH, configuration (reset kh) = configuration kh)
  ∧ ∀ (calls : list (Key.t * InputState * Z)) (v : Z) (kh : KH),
      (kMinComposingBufferSize
       ≤ composingBufferSize
           (handleAll calls (setComposingBufferSize v kh)).2
       ≤ kMaxComposingBufferSize)%Z.
Proof.
  split; [apply handle_keeps_configuration|].
  split; [unfold candidateSelected; keeps_configuration|].
  split; [unfold candidatePanelCancelled; keeps_configuration|].
  split.
  { unfold handlePunctuationKeyInCandidatePanelForTraditionalMode.
    repeat
      lazymatch goal with
      | |- Keeps _ (handle _ _ _) => apply handle_keeps_configuration
      | |- _ => progress keeps_configuration
      end. }
  split; [done|]. intros calls v kh.
  pose proof (handleAll_keeps_configuration calls
                (setComposingBufferSize v kh)) as Hkeep.
  unfold configuration in Hkeep.
  assert (composingBufferSize_
            (handleAll calls (setComposingBufferSize v kh)).2
          = composingBufferSize_ (setComposingBufferSize v kh)) as Hsize
    by congruence.
  unfold composingBufferSize. rewrite Hsize.
  unfold setComposingBufferSize, kMinComposingBufferSize,
    kMaxComposingBufferSize. cbn [composingBufferSize_].
  destruct (Z.ltb_spec 100 v) as [Hhi|Hhi].
  - change (100 <? 4)%Z with false. cbv iota. lia.
  - destruct (Z.ltb_spec v 4); lia.
Qed.

End ConfigurationKept.

(** ** The text of the walked nodes *)

Section ComposedText.
Context {R G U : Type}.
Context `{ObjectPrototype} `{Mandarin} `{Numbers} `{Lodash} `{LocalizedStrings}.
Context `{BopomofoReadingBuffer R} `{Gramambular G} `{UserOverrideModel U}.

Local Abbreviation KH := (KeyHandler R G U).

Lemma composeAnchor_composed (lang : JSString) (rs : list JSString)
    (c : nat) (st : Composing) (a : NodeAnchor) :
  composed (composeAnchor lang rs c st a) = composed st ++ evictedTextOf a.
Proof.
  unfold composeAnchor, evictedTextOf.
  destruct (node a) as [nd|]; [|by rewrite app_nil_r].
  by repeat case_bool_decide.
Qed.

Lemma foldl_composeAnchor_composed (lang : JSString) (rs : list JSString)
    (c : nat) (nodes : list NodeAnchor) (st : Composing) :
  composed (foldl (composeAnchor lang rs c) st nodes)
  = composed st ++ walkedText nodes.
Proof.
  revert st. induction nodes as [|a nodes IH]; intros st.
  - by rewrite app_nil_r.
  - cbn [foldl]. rewrite IH, composeAnchor_composed.
    unfold walkedText. rewrite fmap_cons. cbn [concat].
    by rewrite <- (assoc_L (++)).
Qed.

(** The composed string at any cursor puts together the text of the
    walked nodes. *)
Lemma getComposedString_walkedText (kh : KH) (c : nat) :
  cs_head (getComposedString kh c) ++ cs_tail (getComposedString kh c)
  = walkedText (walkedNodes_ kh).
Proof.
  rewrite getComposedString_whole. unfold composing_at.
  by rewrite foldl_composeAnchor_composed.
Qed.

(** X10.  Whatever the cursor, the head and the tail of the composed string
    put together are the values of the walked nodes, in order.  The
    composing buffer of an [Inputting] state is that text with the reading
    being composed inserted at one place, and the cursor of the state is
    right after the reading. *)
Theorem buildInputtingState_text (kh : KH) :
  let buffer :=
    NotEmpty.composingBuffer (Inputting.base (buildInputtingState kh)) in
  let text := walkedText (walkedNodes_ kh) in
  let reading := readingComposedString (reading_ kh) in
  (∀ c, cs_head (getComposedString kh c) ++ cs_tail (getComposedString kh c)
        = text)
  ∧ ∃ n, n ≤ length text
         ∧ buffer = take n text ++ reading ++ drop n text
         ∧ NotEmpty.cursorIndex (Inputting.base (buildInputtingState kh))
           = n + length reading.
Proof.
  intros buffer text reading.
  split; [intros c; apply getComposedString_walkedText|].
  pose proof (getComposedString_walkedText kh (builderCursorIndex kh))
    as Hwhole. fold text in Hwhole.
  exists (length (cs_head (getComposedString kh (builderCursorIndex kh)))).
  rewrite <- Hwhole. split; [rewrite length_app; lia|].
  rewrite take_app_length, drop_app_length. done.
Qed.

(** While the running cursor is before the cursor of the builder, whole
    nodes are composed with all of their text. *)
Lemma foldl_composeAnchor_before (lang : JSString) (rs : list JSString)
    (c : nat) (pre : list NodeAnchor) (st : Composing) :
  wholeNodes pre = true →
  runningCursor st + spanOf pre = c →
  let st' := foldl (composeAnchor lang rs c) st pre in
  runningCursor st' = c
  ∧ composed st' = composed st ++ walkedText pre
  ∧ composedCursor st' = composedCursor st + length (walkedText pre)
  ∧ composingTooltip st' = composingTooltip st.
Proof.
  revert st. induction pre as [|a pre IH]; intros st Hwhole Hc st'.
  - subst st'. unfold spanOf, walkedText in *. cbn in *.
    rewrite app_nil_r. repeat split; lia.
  - subst st'. cbn [foldl].
    cbn [wholeNodes forallb] in Hwhole.
    apply andb_true_iff in Hwhole as [Ha Hpre].
    apply andb_true_iff in Ha as [Hnode Hspan].
    apply bool_decide_eq_true in Hnode as [nd Hnd].
    apply bool_decide_eq_true in Hspan.
    change (spanOf (a :: pre)) with (spanningLength a + spanOf pre) in Hc.
    set (st1 := composeAnchor lang rs c st a).
    assert (runningCursor st1 = runningCursor st + spanningLength a
            ∧ composed st1 = composed st ++ evictedTextOf a
            ∧ composedCursor st1
              = composedCursor st + length (evictedTextOf a)
            ∧ composingTooltip st1 = composingTooltip st)
      as (Hrun & Hcomp & Hcur & Htip).
    { subst st1. unfold composeAnchor, evictedTextOf. rewrite Hnd.
      rewrite bool_decide_eq_false_2 by lia.
      by rewrite bool_decide_eq_true_2 by lia. }
    destruct (IH st1 Hpre) as (Hrun' & Hcomp' & Hcur' & Htip'); [lia|].
    rewrite Hrun', Hcomp', Hcur', Htip', Hcomp, Hcur, Htip.
    unfold walkedText. rewrite fmap_cons. cbn [concat].
    rewrite length_app, <- (assoc_L (++)). repeat split; lia.
Qed.

(** Once the running cursor is at the cursor of the builder, the composed
    cursor stays where it is. *)
Lemma foldl_composeAnchor_after (lang : JSString) (rs : list JSString)
    (c : nat) (post : list NodeAnchor) (st : Composing) :
  runningCursor st = c →
  let st' := foldl (composeAnchor lang rs c) st post in
  composed st' = composed st ++ walkedText post
  ∧ composedCursor st' = composedCursor st
  ∧ composingTooltip st' = composingTooltip st.
Proof.
  revert st. induction post as [|a post IH]; intros st Hc st'.
  - subst st'. cbn. by rewrite app_nil_r.
  - subst st'. cbn [foldl].
    set (st1 := composeAnchor lang rs c st a).
    assert (runningCursor st1 = c
            ∧ composed st1 = composed st ++ evictedTextOf a
            ∧ composedCursor st1 = composedCursor st
            ∧ composingTooltip st1 = composingTooltip st)
      as (Hrun & Hcomp & Hcur & Htip).
    { subst st1. unfold composeAnchor, evictedTextOf.
      destruct (node a) as [nd|]; [|by rewrite app_nil_r].
      by rewrite bool_decide_eq_true_2 by done. }
    destruct (IH st1 Hrun) as (Hcomp' & Hcur' & Htip').
    rewrite Hcomp', Hcur', Htip', Hcomp, Hcur, Htip.
    unfold walkedText. rewrite fmap_cons. cbn [concat].
    by rewrite <- (assoc_L (++)).
Qed.

(** X11.  With the cursor where one walked node ends and the next begins,
    the head of the composed string is the text of the nodes before the
    cursor, the tail is the text of the nodes after it, and there is no
    tooltip. *)
Theorem getComposedString_between_nodes (kh : KH)
    (pre post : list NodeAnchor) :
  walkedNodes_ kh = pre ++ post →
  wholeNodes pre = true →
  getComposedString kh (spanOf pre)
  = mkComposedString (walkedText pre) (walkedText post) [].
Proof.
  intros Hnodes Hwhole.
  pose proof (getComposedString_head kh (spanOf pre)) as Hhead.
  pose proof (getComposedString_tail kh (spanOf pre)) as Htail.
  assert (cs_tooltip (getComposedString kh (spanOf pre))
          = composingTooltip (composing_at kh (spanOf pre))) as Htip
    by done.
  unfold composing_at in *. rewrite Hnodes, foldl_app in *.
  destruct (foldl_composeAnchor_before (languageCode kh) (builderReadings kh)
              (spanOf pre) pre (mkComposing 0 [] 0 []) Hwhole eq_refl)
    as (Hrun & Hcomp & Hcur & Htip1).
  destruct (foldl_composeAnchor_after (languageCode kh) (builderReadings kh)
              (spanOf pre) post _ Hrun) as (Hcomp' & Hcur' & Htip').
  rewrite Hcomp', Hcur', Hcomp, Hcur in Hhead, Htail.
  rewrite Htip', Htip1 in Htip.
  cbn [composed composedCursor composingTooltip app Nat.add] in *.
  rewrite take_app_length in Hhead. rewrite drop_app_length in Htail.
  destruct (getComposedString kh (spanOf pre)) as [h t tip].
  cbn [cs_head cs_tail cs_tooltip] in *. by subst.
Qed.

End ComposedText.

(** ** The Enter key *)

Lemma join_hyphen_not_blank (l : list JSString) :
  2 ≤ length l → join l (js "-") ≠ js " ".
Proof.
  destruct l as [|a [|b r]]; cbn [length]; [lia|lia|]. intros _ Heq.
  assert (hyphen ∈ join (a :: b :: r) (js "-")) as Hin.
  { cbn [join]. apply elem_of_app. right. by left. }
  rewrite Heq in Hin. apply list_elem_of_singleton in Hin. done.
Qed.

Section Enter.
Context {R G U : Type}.
Context `{ObjectPrototype} `{Mandarin} `{Numbers} `{Lodash} `{LocalizedStrings}.
Context `{BopomofoReadingBuffer R} `{Gramambular G} `{UserOverrideModel U}.

Local Abbreviation KH := (KeyHandler R G U).

Lemma outsideReading_spec (kh : KH) (k : Key.t) :
  outsideReading kh k = true →
  isModifierName (Key.ascii k) = false
  ∧ isValidKey (reading_ kh) (Key.ascii k) = false
  ∧ hasToneMarker (reading_ kh) && negb (hasToneMarkerOnly (reading_ kh))
    = false
  ∧ readingIsEmpty (reading_ kh) = true.
Proof.
  unfold outsideReading. rewrite !andb_true_iff, !negb_true_iff. tauto.
Qed.

(** Such a key goes past the reading buffer to the other rules. *)
Lemma handle_outsideReading (k : Key.t) (state : InputState) (now : Z)
    (kh : KH) :
  outsideReading kh k = true →
  handle k state now kh = handleOtherKeys k state now kh.
Proof.
  intros (Hmod & Hvalid & Htone & Hempty)%outsideReading_spec.
  unfold handle. unfold isModifierName in Hmod. rewrite Hmod, bind_get.
  rewrite Hvalid. unfold handleComposition. rewrite bind_get.
  by rewrite Htone, Hempty.
Qed.

Lemma handleOtherKeys_enter (k : Key.t) (state : InputState) (now : Z)
    (kh : KH) :
  Key.name k = RETURN →
  readingIsEmpty (reading_ kh) = true →
  instanceofNotEmpty state = true →
  handleOtherKeys k state now kh
  = match state with
    | MarkingState marking =>
        if Marking.acceptable marking then
          let kh' :=
            withLanguageModel
              (WebLanguageModelImpl.addUserPhrase
                 (Marking.reading marking) (Marking.markedText marking)) kh in
          (true, kh', [StateEntered (InputtingState (buildInputtingState kh'))])
        else
          (true, kh,
           [ErrorSignalled;
            StateEntered
              (MarkingState
                 (buildMarkingState kh
                    (Marking.markStartGridCursorIndex marking)))])
    | _ =>
        (true, reset kh,
         [StateEntered
            (Committing (NotEmpty.composingBuffer
                           (Inputting.base (buildInputtingState kh))))])
    end.
Proof.
  intros Hname Hempty Hst. unfold handleOtherKeys. rewrite bind_get.
  unfold Key.isCursorKeys, Key.isDeleteKeys. rewrite Hname, Hempty, Hst.
  rewrite !(bool_decide_eq_false_2 (RETURN = _)) by done.
  rewrite (bool_decide_eq_true_2 (RETURN = RETURN)) by done.
  cbn [andb orb negb].
  destruct state as [| | |s|s|s|marking]; try done.
  by destruct (Marking.acceptable marking).
Qed.

(** X12.  Enter on an acceptable [Marking] state built by the handler, while
    no reading is being composed: the marked text is added to the user
    phrases under the marked readings, the handler is otherwise unchanged,
    and the [Inputting] state is entered with the same composing buffer.
    When, moreover, the converters give the marked text back and the lookup
    of the marked readings returns, the phrase then exists in the language
    model, so that marking the same range again is not acceptable any
    more. *)
Theorem enter_adds_marked_phrase (k : Key.t) (now : Z) (kh : KH)
    (beginCursorIndex : nat) :
  let m := buildMarkingState kh beginCursorIndex in
  let lm := languageModel_ kh in
  let kh' :=
    withLanguageModel
      (WebLanguageModelImpl.addUserPhrase (Marking.reading m)
                                          (Marking.markedText m)) kh in
  outsideReading kh k = true →
  Key.name k = RETURN →
  Marking.acceptable m = true →
  handle k (MarkingState m) now kh
  = (true, kh', [StateEntered (InputtingState (buildInputtingState kh'))])
  ∧ buildInputtingState kh' = buildInputtingState kh
  ∧ (convertWith (converter_ lm)
       (convertWith (addUserPhraseConverter lm) (Marking.markedText m))
     = Marking.markedText m →
     namesInheritedProperty lm (Marking.reading m) = false →
     MarkedPhraseExists (languageModel_ kh') (Marking.reading m)
                        (Marking.markedText m) = true
     ∧ Marking.acceptable (buildMarkingState kh' beginCursorIndex) = false).
Proof.
  intros m lm kh' Hout Hname Hacc.
  split; [|split; [done|]].
  - rewrite handle_outsideReading by done.
    apply outsideReading_spec in Hout as (_ & _ & _ & Hempty).
    rewrite handleOtherKeys_enter by done. by rewrite Hacc.
  - intros Hround Hown.
    pose proof (buildMarkingState_fields kh beginCursorIndex) as Hm.
    cbv zeta in Hm. fold m in Hm.
    destruct Hm as (_ & _ & Hmarked & _ & Hreading & Hok).
    pose proof (buildMarkingState_fields kh' beginCursorIndex) as Hm'.
    cbv zeta in Hm'.
    destruct Hm' as (_ & _ & Hmarked' & _ & _ & Hok').
    change (builderCursorIndex kh') with (builderCursorIndex kh) in *.
    change (builderReadings kh') with (builderReadings kh) in *.
    assert (∀ c, getComposedString kh' c = getComposedString kh c) as Hcs
      by done.
    rewrite !Hcs in Hmarked'. rewrite <- Hmarked in Hmarked'.
    rewrite Hmarked', <- Hreading in Hok'.
    rewrite Hacc in Hok. symmetry in Hok.
    apply andb_true_iff in Hok as [Hlen _].
    apply andb_true_iff in Hlen as [Hlo%bool_decide_eq_true _].
    assert (MarkedPhraseExists (languageModel_ kh') (Marking.reading m)
              (Marking.markedText m) = true) as Hexists.
    { apply MarkedPhraseExists_after_add; [|done|done].
      rewrite Hreading. by apply join_hyphen_not_blank. }
    split; [done|].
    rewrite Hok', Hexists. by rewrite andb_false_r.
Qed.

End Enter.

Section EnterInController.
Context {R G U C Cand : Type}.
Context `{ObjectPrototype} `{Mandarin} `{Numbers} `{Lodash} `{LocalizedStrings}.
Context `{BopomofoReadingBuffer R} `{Gramambular G} `{UserOverrideModel U}.
Context `{CandidateController C Cand}.

(** X13.  Enter in an [Inputting] state, while no reading is being composed:
    the key is consumed, the handler is reset, the controller is in the
    [Committing] state of the composing buffer, and the host was asked to
    reset and then, unless the buffer is empty, to commit the buffer,
    once. *)
Theorem enter_commits_composing_buffer (k : Key.t) (now : Z)
    (kh : KeyHandler R G U)
    (ic : InputControllerImpl.InputController C Cand) :
  let buffer :=
    NotEmpty.composingBuffer (Inputting.base (buildInputtingState kh)) in
  let r := InputControllerImpl.mcbopomofoKeyEvent k now kh ic in
  outsideReading kh k = true →
  Key.name k = RETURN →
  instanceofInputting (InputControllerImpl.state_ ic) = true →
  r.1.1 = true
  ∧ r.1.2 = reset kh
  ∧ InputControllerImpl.state_ r.2 = Committing buffer
  ∧ InputUIController.calls (InputControllerImpl.ui_ r.2)
    = InputUIController.calls (InputControllerImpl.ui_ ic)
      ++ UIReset :: (if bool_decide (0 < length buffer)
                     then [UICommitString buffer] else []).
Proof.
  intros buffer r Hout Hname Hst. subst r.
  unfold InputControllerImpl.mcbopomofoKeyEvent.
  rewrite handle_outsideReading by done.
  apply outsideReading_spec in Hout as (_ & _ & _ & Hempty).
  destruct (InputControllerImpl.state_ ic) as [| | |s|s|s|s] eqn:Hstate;
    try done.
  rewrite handleOtherKeys_enter by done.
  cbn [fst snd result after events InputControllerImpl.callbacks foldl].
  fold buffer.
  unfold InputControllerImpl.enterNewState,
    InputControllerImpl.handleCommitting, InputControllerImpl.withUI.
  cbn [InputControllerImpl.state_ InputControllerImpl.ui_].
  repeat split.
  case_bool_decide; cbn [InputUIController.calls InputUIController.reset
    InputUIController.commitString]; [|done].
  by rewrite <- (assoc_L (++)).
Qed.

End EnterInController.

(** ** Keys that choose, move and delete *)

Section KeysThatMove.
Context {R G U : Type}.
Context `{ObjectPrototype} `{Mandarin} `{Numbers} `{Lodash} `{LocalizedStrings}.
Context `{BopomofoReadingBuffer R} `{Gramambular G} `{UserOverrideModel U}.

Local Abbreviation KH := (KeyHandler R G U).
Local Abbreviation KeepsTyped :=
  (Keeps (R:=R) (G:=G) (U:=U) (whatWasTyped (R:=R) (G:=G) (U:=U))).

Lemma walk_keeps_typed : KeepsTyped walk.
Proof. unfold walk. repeat keeps_step. Qed.

Lemma emitInputting_keeps_typed : KeepsTyped emitInputting.
Proof. unfold emitInputting. repeat keeps_step. Qed.

Lemma pinNode_keeps_typed (now : Z) (candidate : JSString)
    (useMoveCursorAfterSelectionSetting : bool) :
  KeepsTyped (pinNode now candidate useMoveCursorAfterSelectionSetting).
Proof.
  unfold pinNode.
  repeat lazymatch goal with
         | |- Keeps _ walk => apply walk_keeps_typed
         | |- _ => keeps_step
         end.
Qed.

Local Ltac keeps_typed :=
  repeat
    lazymatch goal with
    | |- Keeps _ emitInputting => apply emitInputting_keeps_typed
    | |- Keeps _ walk => apply walk_keeps_typed
    | |- Keeps _ (pinNode _ _ _) => apply pinNode_keeps_typed
    | |- _ => keeps_step
    end.

(** X14.  Pinning a candidate, and the Tab key that pins the next one, change
    neither the readings of the grid, nor the reading being composed, nor
    the language model. *)
Theorem choosing_a_candidate_keeps_what_was_typed (k : Key.t)
    (state : InputState) (now : Z) (candidate : JSString)
    (useMoveCursorAfterSelectionSetting : bool) (kh : KH) :
  whatWasTyped
    (after (pinNode now candidate useMoveCursorAfterSelectionSetting kh))
  = whatWasTyped kh
  ∧ whatWasTyped (after (handleTabKey k state now kh)) = whatWasTyped kh.
Proof.
  split; [apply pinNode_keeps_typed|].
  revert kh. change (KeepsTyped (handleTabKey k state now)).
  unfold handleTabKey. keeps_typed.
Qed.

Lemma after_bind {A B} (m : M R G U A) (f : A → M R G U B) (kh : KH) :
  after (bind m f kh) = after (f (result (m kh)) (after (m kh))).
Proof. reflexivity. Qed.

(** X15.  The cursor keys change nothing in the handler but the cursor of the
    builder: readings, grid, walked nodes, reading buffer, language model
    and user override model are as before. *)
Theorem handleCursorKeys_moves_the_cursor_only (k : Key.t)
    (state : InputState) (kh : KH) :
  exceptCursor (after (handleCursorKeys k state kh)) = exceptCursor kh.
Proof.
  revert kh.
  change (Keeps (exceptCursor (R:=R) (G:=G) (U:=U))
                (handleCursorKeys k state)).
  unfold handleCursorKeys. repeat keeps_step.
Qed.

(** X16.  While a reading is being composed, Backspace and Delete leave the
    builder, the walked nodes and the language model alone.  The reading
    is cleared when it is a tone marker only; otherwise Backspace takes its
    last key away and Delete leaves it as it is. *)
Theorem handleDeleteKeys_edits_the_reading_first (k : Key.t)
    (state : InputState) (kh : KH) :
  readingIsEmpty (reading_ kh) = false →
  instanceofNotEmpty state = true →
  let kh' := after (handleDeleteKeys k state kh) in
  builder_ kh' = builder_ kh
  ∧ walkedNodes_ kh' = walkedNodes_ kh
  ∧ languageModel_ kh' = languageModel_ kh
  ∧ reading_ kh'
    = if hasToneMarkerOnly (reading_ kh) then readingClear (reading_ kh)
      else if bool_decide (Key.name k = BACKSPACE)
           then readingBackspace (reading_ kh)
           else reading_ kh.
Proof.
  intros Hempty Hst kh'. subst kh'. unfold handleDeleteKeys.
  rewrite Hst. cbn [negb].
  rewrite bind_get, Hempty.
  set (finish := bind get _).
  assert (∀ X (part : KH → X), Keeps part finish) as Hfinish.
  { intros X part. subst finish. repeat keeps_step. }
  destruct (hasToneMarkerOnly (reading_ kh)).
  - rewrite after_bind.
    rewrite (Hfinish _ builder_), (Hfinish _ walkedNodes_),
      (Hfinish _ languageModel_), (Hfinish _ reading_). done.
  - rewrite after_bind.
    rewrite (Hfinish _ builder_), (Hfinish _ walkedNodes_),
      (Hfinish _ languageModel_), (Hfinish _ reading_).
    by destruct (bool_decide (Key.name k = BACKSPACE)).
Qed.

End KeysThatMove.

(** ** Tab, and the keys at the ends of the readings *)




Section Ends.
Context {R G U : Type}.
Context `{ObjectPrototype} `{Mandarin} `{Numbers} `{Lodash} `{LocalizedStrings}.
Context `{BopomofoReadingBuffer R} `{Gramambular G} `{UserOverrideModel U}.

Local Abbreviation KH := (KeyHandler R G U).

(** X18.  Backspace or the left arrow with the cursor at the start, Delete or
    the right arrow with the cursor at the end, in an [Inputting] state
    with no reading being composed: the key is consumed, the error
    callback is called, the [Inputting] state is entered again, and the
    handler is unchanged. *)
Theorem handle_past_the_end (k : Key.t) (state : InputState) (now : Z)
    (kh : KH) :
  outsideReading kh k = true →
  hasToneMarkerOnly (reading_ kh) = false →
  instanceofInputting state = true →
  pastTheEnd kh k = true →
  handle k state now kh
  = (true, kh,
     [ErrorSignalled; StateEntered (InputtingState (buildInputtingState kh))]).
Proof.
  intros Hout Honly Hst Hpast.
  rewrite handle_outsideReading by done.
  apply outsideReading_spec in Hout as (_ & _ & _ & Hempty).
  destruct state as [| | | |s| |]; try done.
  unfold pastTheEnd in Hpast.
  unfold handleOtherKeys. rewrite bind_get.
  unfold Key.isCursorKeys, Key.isDeleteKeys.
  destruct (Key.name k) eqn:Hname; try done;
    rewrite ?(bool_decide_eq_false_2 (LEFT = _)),
            ?(bool_decide_eq_false_2 (RIGHT = _)),
            ?(bool_decide_eq_false_2 (BACKSPACE = _)),
            ?(bool_decide_eq_false_2 (DELETE = _)) by done;
    cbn [andb orb negb];
    apply bool_decide_eq_true in Hpast.
  - (* LEFT *)
    unfold handleCursorKeys. cbn [instanceofInputting negb andb].
    rewrite bind_get, Hempty, Hname. cbn [negb]. cbv beta iota.
    unfold builderCursorIndex. rewrite Hpast.
    rewrite (bool_decide_eq_false_2 (0 < 0)) by lia.
    rewrite (bind_silent _ _ kh false) by done. cbn [negb].
    unfold bind at 1. cbn [errorCallback fst snd].
    rewrite bind_get. unfold builderCursorIndex. rewrite Hpast.
    rewrite (bool_decide_eq_false_2 (0 ≠ 0)) by (by intros ?).
    rewrite andb_false_r. reflexivity.
  - (* RIGHT *)
    unfold handleCursorKeys. cbn [instanceofInputting negb andb].
    rewrite bind_get, Hempty, Hname. cbn [negb]. cbv beta iota.
    unfold builderCursorIndex, builderLength. rewrite Hpast.
    rewrite (bool_decide_eq_false_2 (_ < _)) by lia.
    rewrite (bind_silent _ _ kh false) by done. cbn [negb].
    unfold bind at 1. cbn [errorCallback fst snd].
    rewrite bind_get. unfold builderCursorIndex. rewrite Hpast.
    rewrite (bool_decide_eq_false_2 (_ ≠ _)) by (by intros ?).
    rewrite andb_false_r. reflexivity.
  - (* BACKSPACE *)
    unfold handleDeleteKeys. cbn [instanceofNotEmpty asNotEmpty negb].
    rewrite bind_get, Honly, Hempty, Hname.
    unfold builderCursorIndex. rewrite Hpast.
    rewrite (bool_decide_eq_false_2 (0 < 0)) by lia.
    rewrite (bool_decide_eq_false_2 (BACKSPACE = DELETE)) by done.
    rewrite andb_false_r. reflexivity.
  - (* DELETE *)
    unfold handleDeleteKeys. cbn [instanceofNotEmpty asNotEmpty negb].
    rewrite bind_get, Honly, Hempty, Hname.
    unfold builderCursorIndex, builderLength. rewrite Hpast.
    rewrite (bool_decide_eq_false_2 (DELETE = BACKSPACE)) by done.
    cbn [andb].
    rewrite (bool_decide_eq_false_2 (_ < _)) by lia.
    rewrite andb_false_r. reflexivity.
Qed.

End Ends.

(** ** The candidates of a [ChoosingCandidate] state *)

Lemma insertByKeyLength_Permutation (a : NodeAnchor) (l : list NodeAnchor) :
  insertByKeyLength a l ≡ₚ a :: l.
Proof.
  induction l as [|b r IH]; [done|]. cbn [insertByKeyLength].
  case_bool_decide; [done|]. rewrite IH. apply Permutation_swap.
Qed.

Lemma insertByKeyLength_sorted (a : NodeAnchor) (l : list NodeAnchor) :
  StronglySorted keyAtLeastAsLong l →
  StronglySorted keyAtLeastAsLong (insertByKeyLength a l).
Proof.
  induction 1 as [|b r Hr IH Hb]; cbn [insertByKeyLength].
  - repeat constructor.
  - case_bool_decide as Hle.
    + constructor; [by constructor|]. constructor; [done|].
      eapply Forall_impl; [exact Hb|]. unfold keyAtLeastAsLong. intros; lia.
    + constructor; [done|].
      rewrite insertByKeyLength_Permutation. constructor; [|done].
      unfold keyAtLeastAsLong. lia.
Qed.

Lemma insertByKeyLength_withKeyLength (n : nat) (a : NodeAnchor)
    (l : list NodeAnchor) :
  StronglySorted keyAtLeastAsLong l →
  withKeyLength n (insertByKeyLength a l) = withKeyLength n (a :: l).
Proof.
  unfold withKeyLength.
  induction 1 as [|b r Hr IH Hb]; cbn [insertByKeyLength]; [done|].
  case_bool_decide as Hle; [done|].
  rewrite filter_cons, IH, !filter_cons.
  destruct (decide (anchorKeyLength b = n)), (decide (anchorKeyLength a = n));
    try done.
  lia.
Qed.

Lemma sortByKeyLength_sorted (l : list NodeAnchor) :
  StronglySorted keyAtLeastAsLong (sortByKeyLength l).
Proof.
  induction l as [|a l IH]; [constructor|].
  by apply insertByKeyLength_sorted.
Qed.

Section ChoosingCandidates.
Context {R G U : Type}.
Context `{ObjectPrototype} `{Mandarin} `{Numbers} `{Lodash} `{LocalizedStrings}.
Context `{BopomofoReadingBuffer R} `{Gramambular G} `{UserOverrideModel U}.

(** X24.  The [ChoosingCandidate] state that the handler builds has the
    composing buffer and the cursor of the state it is given and no
    tooltip.  Its candidates are those of the nodes that cross or end at
    the candidate cursor, each node's candidates together and in the
    node's order, the nodes with longer keys first and nodes with keys of
    one length in the order in which the grid gives them. *)
Theorem buildChoosingCandidateState_candidates (kh : KeyHandler R G U)
    (nonEmptyState : NotEmpty.t) :
  let state := buildChoosingCandidateState kh nonEmptyState in
  let anchors :=
    nodesCrossingOrEndingAt (builderGrid kh) (actualCandidateCursorIndex kh) in
  ChoosingCandidate.base state
  = NotEmpty.mk (NotEmpty.composingBuffer nonEmptyState)
                (NotEmpty.cursorIndex nonEmptyState) []
  ∧ ∃ sorted,
      ChoosingCandidate.candidates state = sorted ≫= candidatesOf
      ∧ sorted ≡ₚ anchors
      ∧ StronglySorted keyAtLeastAsLong sorted
      ∧ ∀ n, withKeyLength n sorted = withKeyLength n anchors.
Proof.
  intros state anchors. split; [done|].
  exists (sortByKeyLength anchors). split; [done|].
  split; [|split; [apply sortByKeyLength_sorted|]].
  - clear. induction anchors as [|a l IH]; [done|].
    cbn [sortByKeyLength foldr]. fold (sortByKeyLength l).
    by rewrite insertByKeyLength_Permutation, IH.
  - intros n. clear. induction anchors as [|a l IH]; [done|].
    cbn [sortByKeyLength foldr]. fold (sortByKeyLength l).
    rewrite insertByKeyLength_withKeyLength by apply sortByKeyLength_sorted.
    unfold withKeyLength in *. by rewrite !filter_cons, IH.
Qed.

End ChoosingCandidates.

(** ** The cursor of the builder *)

Section CursorInGrid.
Context {R G U : Type}.
Context `{ObjectPrototype} `{Mandarin} `{Numbers} `{Lodash} `{LocalizedStrings}.
Context `{BopomofoReadingBuffer R} `{Gramambular G} `{UserOverrideModel U}.

Local Abbreviation KH := (KeyHandler R G U).
Local Abbreviation Method := (M R G U).
Local Abbreviation InGrid := (KeepsCursorInGrid (R:=R) (G:=G) (U:=U)).

Lemma InGrid_ret {A} (a : A) : InGrid (ret a).
Proof. by intros kh. Qed.

Lemma InGrid_get : InGrid get.
Proof. by intros kh. Qed.

Lemma InGrid_errorCallback : InGrid errorCallback.
Proof. by intros kh. Qed.

Lemma InGrid_stateCallback (s : InputState) : InGrid (stateCallback s).
Proof. by intros kh. Qed.

Lemma InGrid_modify (f : KH → KH) :
  (∀ kh, cursorInGrid kh → cursorInGrid (f kh)) → InGrid (modify f).
Proof. intros Hf kh. apply Hf. Qed.

Lemma InGrid_bind {A B} (m : Method A) (f : A → Method B) :
  InGrid m → (∀ a, InGrid (f a)) → InGrid (bind m f).
Proof. intros Hm Hf kh Hkh. apply Hf, Hm, Hkh. Qed.

Lemma reset_cursorInGrid (kh : KH) : cursorInGrid (reset kh).
Proof. unfold cursorInGrid. cbn. lia. Qed.

Lemma insertReadingAtCursor_cursorInGrid (reading : JSString) (kh : KH) :
  cursorInGrid kh → cursorInGrid (insertReadingAtCursor reading kh).
Proof.
  unfold cursorInGrid, insertReadingAtCursor, BlockReadingBuilder.width,
    BlockReadingBuilder.insertReadingAtCursor.
  cbn [builder_ withBuilder BlockReadingBuilder.cursorIndex
       BlockReadingBuilder.readings].
  rewrite length_app, length_take. cbn [length]. rewrite length_drop. lia.
Qed.

Lemma removeHeadReadings_cursorInGrid (lm : WebLanguageModel) (count : nat)
    (kh : KH) :
  cursorInGrid kh →
  cursorInGrid
    (withBuilder (BlockReadingBuilder.removeHeadReadings lm count) kh).
Proof.
  unfold cursorInGrid, BlockReadingBuilder.width,
    BlockReadingBuilder.removeHeadReadings.
  cbn [builder_ withBuilder]. case_bool_decide; [done|].
  generalize (builder_ kh). clear. intros b Hb.
  induction count as [|n IH]; [done|]. rewrite Nat.iter_succ.
  revert IH.
  generalize (Nat.iter n (BlockReadingBuilder.removeHeadReading lm) b).
  intros b' IH. unfold BlockReadingBuilder.removeHeadReading.
  cbn [BlockReadingBuilder.cursorIndex BlockReadingBuilder.readings].
  rewrite length_drop. lia.
Qed.

Lemma deleteReadingBeforeCursor_cursorInGrid (lm : WebLanguageModel)
    (kh : KH) :
  cursorInGrid kh →
  cursorInGrid
    (withBuilder (BlockReadingBuilder.deleteReadingBeforeCursor lm) kh).
Proof.
  unfold cursorInGrid, BlockReadingBuilder.width,
    BlockReadingBuilder.deleteReadingBeforeCursor.
  cbn [builder_ withBuilder]. case_bool_decide; [done|].
  cbn [BlockReadingBuilder.cursorIndex BlockReadingBuilder.readings].
  rewrite length_app, length_take, length_drop. lia.
Qed.

Lemma deleteReadingAfterCursor_cursorInGrid (lm : WebLanguageModel)
    (kh : KH) :
  cursorInGrid kh →
  cursorInGrid
    (withBuilder (BlockReadingBuilder.deleteReadingAfterCursor lm) kh).
Proof.
  unfold cursorInGrid, BlockReadingBuilder.width,
    BlockReadingBuilder.deleteReadingAfterCursor,
    BlockReadingBuilder.length.
  cbn [builder_ withBuilder]. case_bool_decide; [done|].
  cbn [BlockReadingBuilder.cursorIndex BlockReadingBuilder.readings].
  rewrite length_app, length_take, length_drop. lia.
Qed.

Lemma setCursorIndex_cursorInGrid (v : nat) (kh : KH) :
  cursorInGrid (withBuilder (BlockReadingBuilder.setCursorIndex v) kh).
Proof.
  unfold cursorInGrid, BlockReadingBuilder.width,
    BlockReadingBuilder.setCursorIndex, BlockReadingBuilder.length.
  cbn [builder_ withBuilder BlockReadingBuilder.cursorIndex
       BlockReadingBuilder.readings]. lia.
Qed.

End CursorInGrid.

(** One step through the code of a method, for a goal about the cursor of
    the builder. *)
Ltac in_grid_step :=
  lazymatch goal with
  | |- KeepsCursorInGrid (ret _) => apply InGrid_ret
  | |- KeepsCursorInGrid get => apply InGrid_get
  | |- KeepsCursorInGrid errorCallback => apply InGrid_errorCallback
  | |- KeepsCursorInGrid (stateCallback _) => apply InGrid_stateCallback
  | |- KeepsCursorInGrid emitInputting => unfold emitInputting
  | |- KeepsCursorInGrid walk => unfold walk
  | |- KeepsCursorInGrid (modify _) =>
      apply InGrid_modify;
      first [ intros ? ?; apply reset_cursorInGrid
            | intros ? ?; apply setCursorIndex_cursorInGrid
            | intros ?; apply insertReadingAtCursor_cursorInGrid
            | intros ?; apply removeHeadReadings_cursorInGrid
            | intros ?; apply deleteReadingBeforeCursor_cursorInGrid
            | intros ?; apply deleteReadingAfterCursor_cursorInGrid
            | intros ? Hin; exact Hin ]
  | |- KeepsCursorInGrid (bind _ _) => apply InGrid_bind; [|intros]
  | |- KeepsCursorInGrid (match ?x with _ => _ end) => destruct x
  | |- KeepsCursorInGrid _ => progress (lazy beta zeta)
  end.

Section CursorInGridOfHandler.
Context {R G U : Type}.
Context `{ObjectPrototype} `{Mandarin} `{Numbers} `{Lodash} `{LocalizedStrings}.
Context `{BopomofoReadingBuffer R} `{Gramambular G} `{UserOverrideModel U}.

Local Abbreviation KH := (KeyHandler R G U).
Local Abbreviation InGrid := (KeepsCursorInGrid (R:=R) (G:=G) (U:=U)).

Lemma popEvictedTextAndWalk_in_grid : InGrid popEvictedTextAndWalk.
Proof. unfold popEvictedTextAndWalk. repeat in_grid_step. Qed.

Lemma fixNodesIfRequired_in_grid : InGrid fixNodesIfRequired.
Proof. unfold fixNodesIfRequired. repeat in_grid_step. Qed.

Lemma pinNode_in_grid (now : Z) (candidate : JSString)
    (useMoveCursorAfterSelectionSetting : bool) :
  InGrid (pinNode now candidate useMoveCursorAfterSelectionSetting).
Proof. unfold pinNode. repeat in_grid_step. Qed.

Local Ltac in_grid :=
  repeat
    lazymatch goal with
    | |- KeepsCursorInGrid popEvictedTextAndWalk =>
        apply popEvictedTextAndWalk_in_grid
    | |- KeepsCursorInGrid fixNodesIfRequired =>
        apply fixNodesIfRequired_in_grid
    | |- KeepsCursorInGrid (pinNode _ _ _) => apply pinNode_in_grid
    | |- _ => in_grid_step
    end.

Lemma handleTabKey_in_grid (k : Key.t) (state : InputState) (now : Z) :
  InGrid (handleTabKey k state now).
Proof. unfold handleTabKey. in_grid. Qed.

Lemma handleCursorKeys_in_grid (k : Key.t) (state : InputState) :
  InGrid (handleCursorKeys k state).
Proof. unfold handleCursorKeys. in_grid. Qed.

Lemma handleDeleteKeys_in_grid (k : Key.t) (state : InputState) :
  InGrid (handleDeleteKeys k state).
Proof. unfold handleDeleteKeys. in_grid. Qed.

Lemma handlePunctuation_in_grid (punctuationUnigramKey : JSString) :
  InGrid (handlePunctuation punctuationUnigramKey).
Proof. unfold handlePunctuation. in_grid. Qed.

Lemma handleOtherKeys_in_grid (k : Key.t) (state : InputState) (now : Z) :
  InGrid (handleOtherKeys k state now).
Proof.
  unfold handleOtherKeys.
  repeat
    lazymatch goal with
    | |- KeepsCursorInGrid (handleTabKey _ _ _) => apply handleTabKey_in_grid
    | |- KeepsCursorInGrid (handleCursorKeys _ _) =>
        apply handleCursorKeys_in_grid
    | |- KeepsCursorInGrid (handleDeleteKeys _ _) =>
        apply handleDeleteKeys_in_grid
    | |- KeepsCursorInGrid (handlePunctuation _) =>
        apply handlePunctuation_in_grid
    | |- _ => progress in_grid
    end.
Qed.

Lemma handleComposition_in_grid (k : Key.t) (state : InputState) (now : Z)
    (keyConsumedByReading : bool) :
  InGrid (handleComposition k state now keyConsumedByReading).
Proof.
  unfold handleComposition.
  repeat
    lazymatch goal with
    | |- KeepsCursorInGrid (handleOtherKeys _ _ _) =>
        apply handleOtherKeys_in_grid
    | |- _ => progress in_grid
    end.
Qed.

Lemma handle_in_grid (k : Key.t) (state : InputState) (now : Z) :
  InGrid (handle k state now).
Proof.
  unfold handle.
  repeat
    lazymatch goal with
    | |- KeepsCursorInGrid (handleComposition _ _ _ _) =>
        apply handleComposition_in_grid
    | |- _ => progress in_grid
    end.
Qed.

(** X19.  The cursor of the builder is in the grid, from 0 to the width, in a
    new handler and after [reset], and every call of [handle],
    [candidateSelected], [candidatePanelCancelled] and
    [handlePunctuationKeyInCandidatePanelForTraditionalMode] keeps it
    there. *)
Theorem cursor_stays_in_grid (languageModel : WebLanguageModel) (reading : R)
    (k : Key.t) (state : InputState) (now : Z)
    (candidate : JSString) :
  cursorInGrid (newKeyHandler (G:=G) (U:=U) languageModel reading)
  ∧ (∀ kh : KH, cursorInGrid (reset kh))
  ∧ InGrid (handle k state now)
  ∧ InGrid (candidateSelected now candidate)
  ∧ InGrid candidatePanelCancelled
  ∧ InGrid (handlePunctuationKeyInCandidatePanelForTraditionalMode
              k candidate now).
Proof.
  split; [unfold cursorInGrid; cbn; lia|].
  split; [apply reset_cursorInGrid|].
  split; [apply handle_in_grid|].
  split; [unfold candidateSelected; in_grid|].
  split; [unfold candidatePanelCancelled; in_grid|].
  unfold handlePunctuationKeyInCandidatePanelForTraditionalMode.
  repeat
    lazymatch goal with
    | |- KeepsCursorInGrid (handle _ _ _) => apply handle_in_grid
    | |- _ => progress in_grid
    end.
Qed.

End CursorInGridOfHandler.

(** ** The width of the grid *)

Section NeverWidensFacts.
Context {R G U : Type}.
Context `{ObjectPrototype} `{Mandarin} `{Numbers} `{Lodash} `{LocalizedStrings}.
Context `{BopomofoReadingBuffer R} `{Gramambular G} `{UserOverrideModel U}.

Local Abbreviation KH := (KeyHandler R G U).
Local Abbreviation Method := (M R G U).

Lemma NeverWidens_ret {A} (a : A) : NeverWidens (R:=R) (G:=G) (U:=U) (ret a).
Proof. by intros kh. Qed.

Lemma NeverWidens_get : NeverWidens (R:=R) (G:=G) (U:=U) get.
Proof. by intros kh. Qed.

Lemma NeverWidens_errorCallback :
  NeverWidens (R:=R) (G:=G) (U:=U) errorCallback.
Proof. by intros kh. Qed.

Lemma NeverWidens_stateCallback (s : InputState) :
  NeverWidens (R:=R) (G:=G) (U:=U) (stateCallback s).
Proof. by intros kh. Qed.

Lemma NeverWidens_modify (f : KH → KH) :
  (∀ kh, BlockReadingBuilder.width (builder_ (f kh))
         ≤ BlockReadingBuilder.width (builder_ kh)) →
  NeverWidens (modify f).
Proof. intros Hf kh. apply Hf. Qed.

Lemma NeverWidens_bind {A B} (m : Method A) (f : A → Method B) :
  NeverWidens m → (∀ a, NeverWidens (f a)) → NeverWidens (bind m f).
Proof.
  intros Hm Hf kh. unfold bind, after. cbn [fst snd].
  specialize (Hf (m kh).1.1 (m kh).1.2). specialize (Hm kh).
  unfold after in *. lia.
Qed.

Lemma deleteReadingBeforeCursor_width (lm : WebLanguageModel)
    (b : BlockReadingBuilder.t G) :
  BlockReadingBuilder.width (BlockReadingBuilder.deleteReadingBeforeCursor lm b)
  ≤ BlockReadingBuilder.width b.
Proof.
  unfold BlockReadingBuilder.deleteReadingBeforeCursor,
    BlockReadingBuilder.width.
  case_bool_decide; [done|]. cbn [BlockReadingBuilder.readings].
  rewrite length_app, length_take, length_drop. lia.
Qed.

Lemma deleteReadingAfterCursor_width (lm : WebLanguageModel)
    (b : BlockReadingBuilder.t G) :
  BlockReadingBuilder.width (BlockReadingBuilder.deleteReadingAfterCursor lm b)
  ≤ BlockReadingBuilder.width b.
Proof.
  unfold BlockReadingBuilder.deleteReadingAfterCursor,
    BlockReadingBuilder.width.
  case_bool_decide; [done|]. cbn [BlockReadingBuilder.readings].
  rewrite length_app, length_take, length_drop. lia.
Qed.

End NeverWidensFacts.

(** One step through the code of a method, for a goal about the width of
    the grid. *)
Ltac never_widens_step :=
  lazymatch goal with
  | |- NeverWidens (ret _) => apply NeverWidens_ret
  | |- NeverWidens get => apply NeverWidens_get
  | |- NeverWidens (modify (withBuilder
                              (BlockReadingBuilder.deleteReadingBeforeCursor
                                 _))) =>
      apply NeverWidens_modify; intros;
      apply deleteReadingBeforeCursor_width
  | |- NeverWidens (modify (withBuilder
                              (BlockReadingBuilder.deleteReadingAfterCursor
                                 _))) =>
      apply NeverWidens_modify; intros;
      apply deleteReadingAfterCursor_width
  | |- NeverWidens (modify reset) =>
      apply NeverWidens_modify; intros; apply Nat.le_0_l
  | |- NeverWidens (modify (insertReadingAtCursor _)) => fail
  | |- NeverWidens (modify _) =>
      apply NeverWidens_modify; intros; reflexivity
  | |- NeverWidens errorCallback => apply NeverWidens_errorCallback
  | |- NeverWidens (stateCallback _) => apply NeverWidens_stateCallback
  | |- NeverWidens emitInputting => unfold emitInputting
  | |- NeverWidens walk => unfold walk
  | |- NeverWidens (bind _ _) => apply NeverWidens_bind; [|intros]
  | |- NeverWidens (match ?x with _ => _ end) => destruct x
  | |- NeverWidens _ => progress (lazy beta zeta)
  end.

Section NeverWidensMethods.
Context {R G U : Type}.
Context `{ObjectPrototype} `{Mandarin} `{Numbers} `{Lodash} `{LocalizedStrings}.
Context `{BopomofoReadingBuffer R} `{Gramambular G} `{UserOverrideModel U}.

Local Abbreviation KH := (KeyHandler R G U).
Local Abbreviation Method := (M R G U).
Local Abbreviation Narrow := (NeverWidens (R:=R) (G:=G) (U:=U)).

Lemma pinNode_never_widens (now : Z) (candidate : JSString)
    (useMoveCursorAfterSelectionSetting : bool) :
  Narrow (pinNode now candidate useMoveCursorAfterSelectionSetting).
Proof. unfold pinNode. repeat never_widens_step. Qed.

Lemma handleTabKey_never_widens (k : Key.t) (state : InputState) (now : Z) :
  Narrow (handleTabKey k state now).
Proof.
  unfold handleTabKey.
  repeat lazymatch goal with
         | |- NeverWidens (pinNode _ _ _) => apply pinNode_never_widens
         | |- _ => never_widens_step
         end.
Qed.

Lemma handleCursorKeys_never_widens (k : Key.t) (state : InputState) :
  Narrow (handleCursorKeys k state).
Proof. unfold handleCursorKeys. repeat never_widens_step. Qed.

Lemma handleDeleteKeys_never_widens (k : Key.t) (state : InputState) :
  Narrow (handleDeleteKeys k state).
Proof. unfold handleDeleteKeys. repeat never_widens_step. Qed.

(** While a reading is being composed, [handlePunctuation] leaves the
    handler as it is. *)
Lemma handlePunctuation_busy (kh : KH) (punctuationUnigramKey : JSString) :
  readingIsEmpty (reading_ kh) = false →
  ∃ handled evs,
    handlePunctuation punctuationUnigramKey kh = (handled, kh, evs).
Proof.
  intros Hbusy. unfold handlePunctuation. rewrite bind_get, Hbusy.
  destruct (negb _); eexists _, _; reflexivity.
Qed.

Local Ltac leaf :=
  lazymatch goal with
  | |- BlockReadingBuilder.width (builder_ (after (?m ?kh))) ≤ _ =>
      refine ((_ : Narrow m) kh);
      repeat lazymatch goal with
             | |- NeverWidens (handleTabKey _ _ _) =>
                 apply handleTabKey_never_widens
             | |- NeverWidens (handleCursorKeys _ _) =>
                 apply handleCursorKeys_never_widens
             | |- NeverWidens (handleDeleteKeys _ _) =>
                 apply handleDeleteKeys_never_widens
             | |- _ => never_widens_step
             end
  end.

Lemma handleOtherKeys_without_insertion (k : Key.t) (state : InputState)
    (now : Z) (kh : KH) :
  insertedMark kh k state = None →
  gridWidth (after (handleOtherKeys k state now kh)) ≤ gridWidth kh.
Proof.
  intros Hins. unfold gridWidth. unfold insertedMark in Hins.
  unfold handleOtherKeys. rewrite bind_get.
  destruct (bool_decide (Key.name k = SPACE) && Key.shiftPressed k).
  { destruct (putLowercaseLettersToComposingBuffer_ kh); [done|]. leaf. }
  set (cond := (bool_decide (Key.name k = SPACE)
                || bool_decide (Key.name k = DOWN))
               && readingIsEmpty (reading_ kh)) in *.
  destruct (if cond then asNotEmpty state else None) as [notEmpty|]
    eqn:Hcandidates; [leaf|].
  assert (cond && instanceofNotEmpty state = false) as Hnot.
  { destruct cond; [|done]. cbn [andb]. unfold instanceofNotEmpty.
    by rewrite Hcandidates. }
  rewrite Hnot in Hins. clear Hnot Hcandidates cond.
  destruct (bool_decide_reflect (Key.name k = ESC)) as [|Hesc]; [leaf|].
  destruct (bool_decide_reflect (Key.name k = TAB)) as [|Htab]; [leaf|].
  destruct (Key.isCursorKeys k); [leaf|].
  destruct (Key.isDeleteKeys k); [leaf|].
  destruct (bool_decide_reflect (Key.name k = RETURN)) as [|Hret]; [leaf|].
  rewrite (bool_decide_eq_false_2 (Key.name k ∈ [ESC; TAB; RETURN])) in Hins
    by (intros Hin; repeat (apply elem_of_cons in Hin as [?|Hin]; [done|]);
        by apply elem_of_nil in Hin).
  cbn [orb] in Hins.
  destruct (readingIsEmpty (reading_ kh)) eqn:Hempty; cbn [negb] in Hins.
  - destruct (bool_decide (Key.ascii k = kPunctuationListKey)
              && WebLanguageModelImpl.hasUnigramsForKey
                   kPunctuationListUnigramKey (languageModel_ kh)); [done|].
    destruct (bool_decide_reflect (Key.ascii k = [])) as [Hascii|Hascii].
    { rewrite (bool_decide_eq_false_2 (Key.ascii k ≠ [])) by tauto. leaf. }
    rewrite (bool_decide_eq_true_2 (Key.ascii k ≠ [])) by done.
    destruct (WebLanguageModelImpl.hasUnigramsForKey
                (kPunctuationKeyPrefix
                 ++ GetKeyboardLayoutName (keyboardLayout (reading_ kh))
                 ++ js "_" ++ Key.ascii k) (languageModel_ kh)) eqn:Hlayout;
      [done|].
    rewrite (bind_silent _ _ kh false)
      by (by apply handlePunctuation_unknown).
    destruct (WebLanguageModelImpl.hasUnigramsForKey
                (kPunctuationKeyPrefix ++ Key.ascii k) (languageModel_ kh))
      eqn:Hgeneric; [done|].
    rewrite (bind_silent _ _ kh false)
      by (by apply handlePunctuation_unknown).
    destruct (Key.ascii k) as [|c [|? ?]]; [leaf| |leaf].
    destruct (N.leb 65 c && N.leb c 90)%N; [|leaf].
    destruct (putLowercaseLettersToComposingBuffer_ kh); [|leaf].
    cbn [andb] in Hins.
    destruct (WebLanguageModelImpl.hasUnigramsForKey (kLetterPrefix ++ [c])
                (languageModel_ kh)) eqn:Hletter; [done|].
    rewrite (bind_silent _ _ kh false)
      by (by apply handlePunctuation_unknown).
    done.
  - destruct (bool_decide (Key.ascii k = kPunctuationListKey)
              && WebLanguageModelImpl.hasUnigramsForKey
                   kPunctuationListUnigramKey (languageModel_ kh)); [leaf|].
    destruct (bool_decide (Key.ascii k ≠ [])); [|leaf].
    destruct (handlePunctuation_busy kh
                (kPunctuationKeyPrefix
                 ++ GetKeyboardLayoutName (keyboardLayout (reading_ kh))
                 ++ js "_" ++ Key.ascii k) Hempty) as (b1 & e1 & Hp1).
    rewrite bind_run, Hp1. cbn [result after events fst snd].
    destruct b1; [done|].
    destruct (handlePunctuation_busy kh
                (kPunctuationKeyPrefix ++ Key.ascii k) Hempty)
      as (b2 & e2 & Hp2).
    rewrite bind_run, Hp2. cbn [result after events fst snd].
    destruct b2; [done|].
    destruct (Key.ascii k) as [|c [|? ?]]; [leaf| |leaf].
    destruct (N.leb 65 c && N.leb c 90)%N; [|leaf].
    destruct (putLowercaseLettersToComposingBuffer_ kh); [|leaf].
    destruct (handlePunctuation_busy kh (kLetterPrefix ++ [c]) Hempty)
      as (b3 & e3 & Hp3).
    rewrite bind_run, Hp3. by cbn [result after events fst snd].
Qed.

(** X26.  [handle] widens the grid only by the reading that
    [insertedReading] names: for every other key and state, the grid is no
    wider after the call than before. *)
Theorem handle_widens_only_by_insertion (k : Key.t) (state : InputState)
    (now : Z) (kh : KH) :
  insertedReading kh k state = None →
  gridWidth (after (handle k state now kh)) ≤ gridWidth kh.
Proof.
  intros Hins. unfold insertedReading, readingWith in Hins. unfold handle.
  change (bool_decide (Key.ascii k = js "Shift")
          || bool_decide (Key.ascii k = js "Meta")
          || bool_decide (Key.ascii k = js "Alt"))
    with (isModifierName (Key.ascii k)).
  destruct (isModifierName (Key.ascii k)); [done|]. rewrite bind_get.
  destruct (isValidKey (reading_ kh) (Key.ascii k)).
  - cbn [andb] in Hins. rewrite bind_modify, bind_get.
    cbn [reading_ withReading].
    destruct (hasToneMarker (combineKey (Key.ascii k) (reading_ kh)))
      eqn:Htone; cbn [negb] in Hins |- *; [|unfold gridWidth; leaf].
    unfold handleComposition. rewrite bind_get. cbn [reading_ withReading].
    rewrite Htone.
    destruct (_ || _) eqn:Hcompose in Hins |- *;
      [|unfold gridWidth; leaf].
    rewrite bind_modify. cbn [languageModel_ withReading].
    destruct (WebLanguageModelImpl.hasUnigramsForKey _ _); [done|].
    cbn [negb]. unfold gridWidth. leaf.
  - cbn [andb] in Hins. unfold handleComposition. rewrite bind_get.
    destruct (_ || _) eqn:Hcompose in Hins |- *.
    + rewrite bind_modify. cbn [languageModel_ withReading].
      destruct (WebLanguageModelImpl.hasUnigramsForKey _ _); [done|].
      cbn [negb]. unfold gridWidth. leaf.
    + by apply handleOtherKeys_without_insertion.
Qed.

End NeverWidensMethods.

(** ** The controller and the host *)

Lemma substring_middle (a b c : JSString) :
  substring (a ++ b ++ c) (length a) (length a + length b) = b.
Proof.
  unfold substring.
  rewrite Nat.min_l, Nat.max_r by lia.
  rewrite drop_app_length.
  replace (length a + length b - length a) with (length b) by lia.
  by rewrite take_app_length.
Qed.

Lemma foldl_addItem (st : MakeUI.Loop) (items : list ComposingBufferText) :
  MakeUI.index st = length (MakeUI.text st) →
  let final := foldl MakeUI.addItem st items in
  ∃ new,
    MakeUI.segments final = MakeUI.segments st ++ new
    ∧ MakeUI.text final = MakeUI.text st ++ concat (cbt_text <$> items)
    ∧ MakeUI.index final = length (MakeUI.text final)
    ∧ contiguous (MakeUI.index st) new (MakeUI.index final)
    ∧ (∀ tail, Forall2 (segmentShows (MakeUI.text final ++ tail)) new items)
    ∧ (MakeUI.selectionStart final, MakeUI.selectionEnd final)
      = match last (filter (λ seg, MakeUI.seg_style seg
                                   = js "doubleUnderline") new) with
        | Some seg => (Some (MakeUI.seg_start seg), Some (MakeUI.seg_end seg))
        | None => (MakeUI.selectionStart st, MakeUI.selectionEnd st)
        end.
Proof.
  revert st. induction items as [|item rest IH]; intros st Hidx final.
  - exists []. subst final. cbn [foldl fmap list_fmap concat].
    rewrite !app_nil_r. repeat split; try done.
  - subst final. cbn [foldl].
    set (st1 := MakeUI.addItem st item).
    assert (MakeUI.index st1 = length (MakeUI.text st1)
            ∧ MakeUI.text st1 = MakeUI.text st ++ cbt_text item
            ∧ MakeUI.index st1 = MakeUI.index st + length (cbt_text item))
      as (Hidx1 & Htext1 & Hnext).
    { subst st1. unfold MakeUI.addItem.
      destruct (cbt_style item); cbn [MakeUI.index MakeUI.text];
        rewrite ?length_app; repeat split; lia. }
    destruct (IH st1 Hidx1) as (new & Hsegs & Htext & Hi & Hcont & Hshow
                                & Hsel).
    set (seg := MakeUI.mkSegment (MakeUI.index st)
                  (MakeUI.index st + length (cbt_text item))
                  (match cbt_style item with
                   | Highlighted => js "doubleUnderline"
                   | Normal => js "underline"
                   end)).
    assert (MakeUI.segments st1 = MakeUI.segments st ++ [seg]) as Hseg1.
    { subst st1 seg. unfold MakeUI.addItem. by destruct (cbt_style item). }
    exists (seg :: new). split; [|split; [|split; [|split; [|split]]]].
    + rewrite Hsegs, Hseg1. by rewrite <- (assoc_L (++)).
    + rewrite Htext, Htext1. rewrite fmap_cons. cbn [concat].
      by rewrite <- (assoc_L (++)).
    + done.
    + cbn [contiguous MakeUI.seg_start MakeUI.seg_end seg].
      split; [done|]. split; [lia|]. by rewrite <- Hnext.
    + intros tail. constructor; [|apply Hshow].
      split; [|done]. cbn [MakeUI.seg_start MakeUI.seg_end seg].
      rewrite Htext, Htext1, Hidx, <- !(assoc_L (++)).
      apply substring_middle.
    + rewrite Hsel. rewrite filter_cons.
      destruct (cbt_style item) eqn:Hstyle.
      * rewrite decide_False by (subst seg; cbn; discriminate).
        destruct (last _); [done|].
        subst st1. unfold MakeUI.addItem. by rewrite Hstyle.
      * rewrite decide_True by done. rewrite last_cons.
        destruct (last _); [done|].
        subst st1. unfold MakeUI.addItem. by rewrite Hstyle.
Qed.

(** X20.  What [update] passes to [setComposition]: the text is the texts of
    the pieces of the composing buffer put together; there is one segment
    for each piece, in order, that covers the text of its piece and is
    doubly underlined when the piece is highlighted; the segments join up
    from 0 to the length of the text; and the selection is the last
    highlighted segment, or undefined when there is none. *)
Theorem update_segments_cover_text {Cand} (state : InputUIState Cand) :
  let c := MakeUI.update state in
  MakeUI.comp_text c = concat (cbt_text <$> uis_composingBuffer state)
  ∧ MakeUI.comp_cursor c = uis_cursorIndex state
  ∧ contiguous 0 (MakeUI.comp_segments c) (length (MakeUI.comp_text c))
  ∧ Forall2 (segmentShows (MakeUI.comp_text c)) (MakeUI.comp_segments c)
            (uis_composingBuffer state)
  ∧ (MakeUI.comp_selectionStart c, MakeUI.comp_selectionEnd c)
    = match last (filter (λ seg, MakeUI.seg_style seg = js "doubleUnderline")
                         (MakeUI.comp_segments c)) with
      | Some seg => (Some (MakeUI.seg_start seg), Some (MakeUI.seg_end seg))
      | None => (None, None)
      end.
Proof.
  intros c. subst c. unfold MakeUI.update.
  cbn [MakeUI.comp_text MakeUI.comp_cursor MakeUI.comp_segments
       MakeUI.comp_selectionStart MakeUI.comp_selectionEnd].
  destruct (foldl_addItem (MakeUI.mkLoop [] [] None None 0)
              (uis_composingBuffer state) eq_refl)
    as (new & Hsegs & Htext & Hi & Hcont & Hshow & Hsel).
  cbn [MakeUI.segments MakeUI.text MakeUI.index MakeUI.selectionStart
       MakeUI.selectionEnd app] in Hsegs, Htext, Hcont, Hsel.
  rewrite Hsegs. repeat split; try done.
  - by rewrite <- Hi.
  - specialize (Hshow []). by rewrite app_nil_r in Hshow.
Qed.

Section CandidateKeys.
Context {C Cand : Type}.
Context `{StringCase} `{CandidateController C Cand}.

Lemma candidateKeys_loop_NoDup (keys : JSString) (acc : list JSString) :
  NoDup acc →
  NoDup (foldl (λ list ch,
                  let c := toLowerCase [ch] in
                  if includes list c then list else list ++ [c])
               acc keys).
Proof.
  revert acc. induction keys as [|ch keys IH]; intros acc Hacc; [done|].
  cbn [foldl]. apply IH. cbv zeta.
  destruct (includes acc (toLowerCase [ch])) eqn:Hin; [done|].
  apply includes_false in Hin. apply NoDup_app. split; [done|].
  split; [|apply NoDup_singleton].
  intros x Hx ->%list_elem_of_singleton. done.
Qed.

(** X21.  After any calls of [setCandidateKeys] on a new controller the
    candidate keys are between 4 and 15 keys without a duplicate. *)
Theorem setCandidateKeys_valid (calls : list (option JSString)) (cc : C) :
  validCandidateKeys
    (InputControllerImpl.candidateKeys_
       (foldl (λ ic keys, InputControllerImpl.setCandidateKeys keys ic)
              (InputControllerImpl.newInputController (Cand:=Cand) cc) calls)).
Proof.
  assert (validCandidateKeys
            (InputControllerImpl.candidateKeys_
               (InputControllerImpl.newInputController (Cand:=Cand) cc)))
    as Hinit.
  { split; [|cbn; lia]. apply (bool_decide_unpack _). by vm_compute. }
  revert Hinit.
  generalize (InputControllerImpl.newInputController (Cand:=Cand) cc).
  induction calls as [|keys calls IH]; intros ic Hic; [done|].
  cbn [foldl]. apply IH.
  unfold InputControllerImpl.setCandidateKeys.
  case_bool_decide as Hlo; [done|]. case_bool_decide as Hhi; [done|].
  cbn [InputControllerImpl.candidateKeys_]. split; [|lia].
  apply candidateKeys_loop_NoDup. constructor.
Qed.

End CandidateKeys.

(** X22.  [setKeyboardLayout] reads the names that [GetKeyboardLayoutName]
    gives: the layout selected by the name of a layout is that layout. *)
Theorem keyboardLayoutNamed_GetKeyboardLayoutName
    (layout : BopomofoKeyboardLayout) :
  InputControllerImpl.keyboardLayoutNamed (GetKeyboardLayoutName layout)
  = layout.
Proof. by destruct layout. Qed.

Section Shown.
Context {R G U C Cand : Type}.
Context `{ObjectPrototype} `{Mandarin} `{Numbers} `{Lodash} `{LocalizedStrings}.
Context `{BopomofoReadingBuffer R} `{Gramambular G} `{UserOverrideModel U}.
Context `{CandidateController C Cand}.

Local Abbreviation IC := (InputControllerImpl.InputController C Cand).

Lemma lastComposition_update (ui : InputUIController.t Cand) (ic : IC) :
  InputControllerImpl.ui_ ic = InputUIController.update ui →
  lastComposition ic
  = Some (MakeUI.update
            (mkInputUIState (InputUIController.composingBuffer ui)
               (InputUIController.cursorIndex ui)
               (InputUIController.candidates ui)
               (InputUIController.tooltip ui))).
Proof.
  intros Hui. unfold lastComposition. rewrite Hui.
  unfold InputUIController.update. cbn [InputUIController.calls].
  by rewrite last_snoc.
Qed.

(** The composition after a state with a composing buffer was entered,
    for a state that is not a [Marking] and for a [Marking]. *)
Lemma enterNewState_shows (s : InputState) (ic : IC) :
  match s with
  | InputtingState _ | ChoosingCandidateState _ => True
  | MarkingState m =>
      NotEmpty.composingBuffer (Marking.base m)
      = Marking.head m ++ Marking.markedText m ++ Marking.tail m
  | _ => False
  end →
  ∃ c, lastComposition (InputControllerImpl.enterNewState s ic) = Some c
       ∧ shows c s.
Proof.
  intros Hs. destruct s as [| | |s|s|s|m]; try done.
  - eexists. split.
    + eapply lastComposition_update. reflexivity.
    + unfold shows. cbn. done.
  - eexists. split.
    + eapply lastComposition_update. reflexivity.
    + unfold shows. cbn. done.
  - eexists. split.
    + eapply lastComposition_update. reflexivity.
    + unfold shows. cbn. rewrite Hs. rewrite <- (assoc_L (++)). done.
Qed.

Hypothesis toArray_join : ∀ v : JSString, join (toArray v) [] = v.

(** X23.  Every state with a composing buffer that [handle] enters is shown as
    it is: after [enterNewState] the last composition sent to the host has
    the composing buffer of the state as its text and the cursor of the
    state as its cursor, and its selection is the marked text of a
    [Marking] state, none otherwise.  The hypothesis is a law of lodash:
    joining [_.toArray(s)] gives [s] back. *)
Theorem entered_states_are_shown (k : Key.t) (state : InputState) (now : Z)
    (kh : KeyHandler R G U) (ic : IC) :
  Forall (λ s, instanceofNotEmpty s = true →
               ∃ c, lastComposition (InputControllerImpl.enterNewState s ic)
                    = Some c
                    ∧ shows c s)
         (statesEntered (events (handle k state now kh))).
Proof using toArray_join.
  eapply Forall_impl; [apply handle_emits|].
  intros s Hbuilt Hne. apply enterNewState_shows.
  destruct Hbuilt as [| | |kh0 ev|kh0 ne|kh0 i]; try done.
  by destruct (buildMarkingState_markingOf toArray_join kh0 i) as (_ & Hb & _).
Qed.

End Shown.

(** ** The concrete system, once more *)

Section MoreRuns.
Local Existing Instances Fixture.objectPrototype Fixture.mandarin
  Fixture.numbers Fixture.lodash
  Fixture.localizedStrings Fixture.readingBuffer Fixture.gramambular
  Fixture.userOverrideModel Fixture.candidateController.

(** A phrase added for the readings d3 and e3 is among their unigrams. *)
Lemma addUserPhrase_then_unigramsForKey_run :
  let lm' :=
    WebLanguageModelImpl.addUserPhrase (js "d3-e3") [19969%N; 25098%N]
      Fixture.languageModel in
  WebLanguageModelImpl.hasUnigramsForKey (js "d3-e3") lm' = true
  ∧ match WebLanguageModelImpl.unigramsForKey (js "d3-e3") lm' with
    | Returned unigrams =>
        namesInheritedProperty Fixture.languageModel (js "d3-e3") = false
        ∧ ∃ u, u ∈ unigrams
               ∧ value (keyValue u) = [19969%N; 25098%N]
               ∧ score u = 0%float
               ∧ key (keyValue u) = js "d3-e3"
    | TypeError =>
        namesInheritedProperty Fixture.languageModel (js "d3-e3") = true
    end.
Proof.
  apply (addUserPhrase_then_unigramsForKey Fixture.languageModel
           (js "d3-e3") [19969%N; 25098%N]).
  vm_compute. discriminate.
Defined.

(** The keys d3-e3 and d3 hold one array and the key e3 holds another: a
    phrase added for d3-e3 shows under d3 as well, and the unigrams of e3
    are as they were. *)
Lemma addUserPhrase_other_key_run :
  let lm :=
    WebLanguageModelImpl.setUserPhrases
      (mkPhraseMap {[ js "d3-e3" := 0; js "d3" := 0; js "e3" := 1 ]}
                   {[ 0 := [[19969%N]]; 1 := [[25098%N]] ]})
      Fixture.languageModel in
  let lm' :=
    WebLanguageModelImpl.addUserPhrase (js "d3-e3") [19969%N; 25098%N] lm in
  userPhrasesOf lm' (js "d3") = [[19969%N]; [19969%N; 25098%N]]
  ∧ userPhrasesOf lm' (js "e3") = [[25098%N]]
  ∧ (if sameArray (up_map (userPhrases_ lm)) (js "d3-e3") (js "d3")
     then userPhrasesOf lm (js "d3") = userPhrasesOf lm (js "d3-e3")
          ∧ userPhrasesOf lm' (js "d3")
            = if bool_decide ([19969%N; 25098%N]
                              ∈ userPhrasesOf lm (js "d3-e3"))
              then userPhrasesOf lm (js "d3-e3")
              else userPhrasesOf lm (js "d3-e3") ++ [[19969%N; 25098%N]]
     else WebLanguageModelImpl.unigramsForKey (js "d3") lm'
          = WebLanguageModelImpl.unigramsForKey (js "d3") lm
          ∧ WebLanguageModelImpl.hasUnigramsForKey (js "d3") lm'
            = WebLanguageModelImpl.hasUnigramsForKey (js "d3") lm)
  ∧ (if sameArray (up_map (userPhrases_ lm)) (js "d3-e3") (js "e3")
     then userPhrasesOf lm (js "e3") = userPhrasesOf lm (js "d3-e3")
          ∧ userPhrasesOf lm' (js "e3")
            = if bool_decide ([19969%N; 25098%N]
                              ∈ userPhrasesOf lm (js "d3-e3"))
              then userPhrasesOf lm (js "d3-e3")
              else userPhrasesOf lm (js "d3-e3") ++ [[19969%N; 25098%N]]
     else WebLanguageModelImpl.unigramsForKey (js "e3") lm'
          = WebLanguageModelImpl.unigramsForKey (js "e3") lm
          ∧ WebLanguageModelImpl.hasUnigramsForKey (js "e3") lm'
            = WebLanguageModelImpl.hasUnigramsForKey (js "e3") lm).
Proof.
  intros lm lm'.
  split; [vm_compute; reflexivity|]. split; [vm_compute; reflexivity|].
  split.
  - apply (addUserPhrase_other_key lm (js "d3-e3") [19969%N; 25098%N]
             (js "d3")).
    vm_compute. discriminate.
  - apply (addUserPhrase_other_key lm (js "d3-e3") [19969%N; 25098%N]
             (js "e3")).
    vm_compute. discriminate.
Defined.

(** Backspace on the full buffer inserts nothing and takes a reading
    away. *)
Lemma handle_widens_only_by_insertion_run :
  let k := Fixture.namedKey BACKSPACE "Backspace" false in
  let r := handle k Fixture.fullState 0 Fixture.fullHandler in
  insertedReading Fixture.fullHandler k Fixture.fullState = None
  ∧ gridWidth (after r) = 3
  ∧ gridWidth (after r) ≤ gridWidth Fixture.fullHandler.
Proof.
  split; [vm_compute; reflexivity|]. split; [vm_compute; reflexivity|].
  apply handle_widens_only_by_insertion. vm_compute. reflexivity.
Defined.

(** Escape with nothing typed is not consumed and leaves no trace. *)
Lemma handle_unconsumed_key_is_silent_run :
  let r := handle (Fixture.namedKey ESC "Escape" false) Empty 0
                  Fixture.keyHandler in
  result r = false ∧ after r = Fixture.keyHandler ∧ events r = [].
Proof.
  assert (result (handle (Fixture.namedKey ESC "Escape" false) Empty 0
                         Fixture.keyHandler) = false) as Hr
    by (vm_compute; reflexivity).
  split; [exact Hr|].
  exact (handle_unconsumed_key_is_silent _ _ _ _ Hr).
Defined.

(** After a3 b3 d3 e3, with the cursor behind the phrase of the first two
    readings. *)
Lemma getComposedString_between_nodes_run :
  getComposedString Fixture.fullHandler 2
  = mkComposedString [30002%N; 20057%N] [19969%N; 25098%N] [].
Proof.
  apply (getComposedString_between_nodes Fixture.fullHandler
           (take 1 (walkedNodes_ Fixture.fullHandler))
           (drop 1 (walkedNodes_ Fixture.fullHandler)));
    vm_compute; reflexivity.
Defined.

(** Enter after a3 was typed commits its character. *)
Lemma enter_commits_composing_buffer_run :
  let buffer :=
    NotEmpty.composingBuffer
      (Inputting.base (buildInputtingState Fixture.oneSyllableHandler)) in
  let r :=
    InputControllerImpl.mcbopomofoKeyEvent
      (Fixture.namedKey RETURN "Enter" false) 0
      Fixture.oneSyllableHandler Fixture.oneSyllableController in
  buffer = [30002%N]
  ∧ r.1.1 = true
  ∧ r.1.2 = reset Fixture.oneSyllableHandler
  ∧ InputControllerImpl.state_ r.2 = Committing buffer
  ∧ InputUIController.calls (InputControllerImpl.ui_ r.2)
    = InputUIController.calls
        (InputControllerImpl.ui_ Fixture.oneSyllableController)
      ++ UIReset :: (if bool_decide (0 < length buffer)
                     then [UICommitString buffer] else []).
Proof.
  split; [vm_compute; reflexivity|].
  apply (enter_commits_composing_buffer
           (Fixture.namedKey RETURN "Enter" false) 0
           Fixture.oneSyllableHandler Fixture.oneSyllableController);
    vm_compute; reflexivity.
Defined.

(** Enter on the two marked syllables d3 e3 adds them as a phrase. *)
Lemma enter_adds_marked_phrase_run :
  let m := buildMarkingState Fixture.markedHandler 2 in
  let kh' :=
    withLanguageModel
      (WebLanguageModelImpl.addUserPhrase (js "d3-e3")
                                          [19969%N; 25098%N])
      Fixture.markedHandler in
  Marking.acceptable m = true
  ∧ handle (Fixture.namedKey RETURN "Enter" false) (MarkingState m) 0
           Fixture.markedHandler
    = (true, kh', [StateEntered (InputtingState (buildInputtingState kh'))])
  ∧ buildInputtingState kh' = buildInputtingState Fixture.markedHandler
  ∧ MarkedPhraseExists (languageModel_ kh') (js "d3-e3")
                       [19969%N; 25098%N] = true
  ∧ Marking.acceptable (buildMarkingState kh' 2) = false.
Proof.
  split; [vm_compute; reflexivity|].
  destruct (enter_adds_marked_phrase
              (Fixture.namedKey RETURN "Enter" false) 0
              Fixture.markedHandler 2) as (Hhandle & Hsame & Hthen);
    [vm_compute; reflexivity..|].
  split; [exact Hhandle|]. split; [exact Hsame|].
  apply Hthen; vm_compute; reflexivity.
Defined.


(** Backspace while the key a is in the reading buffer takes it away. *)
Lemma handleDeleteKeys_edits_the_reading_first_run :
  let k := Fixture.namedKey BACKSPACE "Backspace" false in
  let kh := Fixture.readingHandler in
  let kh' :=
    after (handleDeleteKeys k (InputtingState (Inputting.new (js "a") 1 []))
                            kh) in
  reading_ kh = js "a"
  ∧ reading_ kh' = []
  ∧ builder_ kh' = builder_ kh
  ∧ walkedNodes_ kh' = walkedNodes_ kh
  ∧ languageModel_ kh' = languageModel_ kh
  ∧ reading_ kh'
    = if hasToneMarkerOnly (reading_ kh) then readingClear (reading_ kh)
      else if bool_decide (Key.name k = BACKSPACE)
           then readingBackspace (reading_ kh)
           else reading_ kh.
Proof.
  split; [vm_compute; reflexivity|]. split; [vm_compute; reflexivity|].
  apply (handleDeleteKeys_edits_the_reading_first
           (Fixture.namedKey BACKSPACE "Backspace" false)
           (InputtingState (Inputting.new (js "a") 1 []))
           Fixture.readingHandler); vm_compute; reflexivity.
Defined.

(** The right arrow with the cursor behind the only syllable. *)
Lemma handle_past_the_end_run :
  handle (Fixture.namedKey RIGHT "ArrowRight" false)
         Fixture.oneSyllableState 0 Fixture.oneSyllableHandler
  = (true, Fixture.oneSyllableHandler,
     [ErrorSignalled;
      StateEntered
        (InputtingState (buildInputtingState Fixture.oneSyllableHandler))]).
Proof.
  apply (handle_past_the_end (Fixture.namedKey RIGHT "ArrowRight" false)
           Fixture.oneSyllableState 0 Fixture.oneSyllableHandler);
    vm_compute; reflexivity.
Defined.

(** Three pairs in order. *)
Lemma KeyValuePair_isLessThan_transitive_run :
  KeyValuePair_isLessThan (mkKeyValuePair (js "a3") (js "x"))
                          (mkKeyValuePair (js "b3") (js "x")) = true
  ∧ KeyValuePair_isLessThan (mkKeyValuePair (js "b3") (js "x"))
                            (mkKeyValuePair (js "b3") (js "y")) = true
  ∧ KeyValuePair_isLessThan (mkKeyValuePair (js "a3") (js "x"))
                            (mkKeyValuePair (js "b3") (js "y")) = true.
Proof.
  split; [reflexivity|]. split; [reflexivity|].
  apply (KeyValuePair_isLessThan_transitive
           (mkKeyValuePair (js "a3") (js "x"))
           (mkKeyValuePair (js "b3") (js "x"))
           (mkKeyValuePair (js "b3") (js "y"))); reflexivity.
Defined.

(** Shift with the left arrow after a3 was typed, in the concrete system,
    where the symbols of a string are its code points. *)
Lemma entered_states_are_shown_run :
  Forall (λ s, instanceofNotEmpty s = true →
               ∃ c, lastComposition
                      (InputControllerImpl.enterNewState s
                         Fixture.oneSyllableController)
                    = Some c
                    ∧ shows c s)
         (statesEntered
            (events (handle (Fixture.namedKey LEFT "ArrowLeft" true)
                            Fixture.oneSyllableState 0
                            Fixture.oneSyllableHandler))).
Proof.
  apply (entered_states_are_shown codePoints_join
           (Fixture.namedKey LEFT "ArrowLeft" true)
           Fixture.oneSyllableState 0 Fixture.oneSyllableHandler
           Fixture.oneSyllableController).
Defined.

End MoreRuns.
